(** * MoveIt 2: servo calculations and Ruckig trajectory smoothing

    A shallow embedding of
    - [moveit_core/trajectory_processing/src/ruckig_traj_smoothing.cpp]
    - [moveit_ros/moveit_servo/src/servo_calcs.cpp]

    The C++ [double] is Rocq's primitive binary64 [float]: the arithmetic and
    the comparisons below are the IEEE-754 ones the compiled code performs
    (round to nearest even, NaN unordered, signed zeros, infinities).
    [std::vector::at] raises [std::out_of_range]; an unbounded [while] loop
    runs on fuel.  Both are results of the [exec] monad. *)

From Stdlib Require Import Floats ZArith List Bool String Lia.
From coqutil Require Import Datatypes.RecordSetters.
Import ListNotations.

Set Warnings "-inexact-float,-notation-for-abbreviation".

Open Scope float_scope.

(** ** Execution results *)

Inductive exec (A : Type) : Type :=
| Val (a : A)      (* normal completion *)
| OutOfRange       (* std::out_of_range thrown by [.at], or an index outside the object *)
| OutOfFuel.       (* loop not finished within the fuel given *)

Arguments Val {A} a.
Arguments OutOfRange {A}.
Arguments OutOfFuel {A}.

Definition bind {A B : Type} (m : exec A) (k : A -> exec B) : exec B :=
  match m with
  | Val a => k a
  | OutOfRange => OutOfRange
  | OutOfFuel => OutOfFuel
  end.

Notation "x <- m ;; k" := (bind m (fun x => k))
  (at level 61, m at next level, right associativity).
Notation "' pat <- m ;; k" := (bind m (fun x => match x with pat => k end))
  (at level 61, pat pattern, m at next level, right associativity).

(** The C++ [double]. *)
Notation double := float (only parsing).

(** [v.at(i)] as an rvalue. *)
Definition at_ {A : Type} (v : list A) (i : nat) : exec A :=
  match nth_error v i with
  | Some a => Val a
  | None => OutOfRange
  end.

Fixpoint replace_nth {A : Type} (v : list A) (i : nat) (a : A) : list A :=
  match v, i with
  | [], _ => []
  | _ :: t, O => a :: t
  | h :: t, S i' => h :: replace_nth t i' a
  end.

(** [v.at(i) = a]. *)
Definition set_at {A : Type} (v : list A) (i : nat) (a : A) : exec (list A) :=
  if Nat.ltb i (List.length v) then Val (replace_nth v i a) else OutOfRange.

(** [for (size_t i = start; i < start + n; ++i) body]. *)
Fixpoint for_loop {St : Type} (n : nat) (i : nat) (body : nat -> St -> exec St) (s : St)
  : exec St :=
  match n with
  | O => Val s
  | S n' => s' <- body i s ;; for_loop n' (S i) body s'
  end.

(** [std::vector<double>(n, 0)]. *)
Definition zeros (n : nat) : list double := repeat 0 n.

(** ** trajectory_processing: ruckig_traj_smoothing.cpp *)

Module RuckigSmoothing.

Definition DEFAULT_MAX_VELOCITY : double := 5.
Definition DEFAULT_MAX_ACCELERATION : double := 10.
Definition DEFAULT_MAX_JERK : double := 20.
Definition IDENTICAL_POSITION_EPSILON : double := 1e-3.
Definition MINIMUM_VELOCITY_SEARCH_MAGNITUDE : double := 0.01.
Definition DEFAULT_RUCKIG_TIMESTEP : double := 0.001.
Definition DBL_MAX : double := 0x1.fffffffffffffp+1023.

(** [ruckig::Result]: [Working], [Finished], or one of the negative error codes. *)
Inductive Result := Working | Finished | Error.

Definition Result_eqb (a b : Result) : bool :=
  match a, b with
  | Working, Working | Finished, Finished | Error, Error => true
  | _, _ => false
  end.

Record InputParameter := {
  current_position : list double;
  current_velocity : list double;
  current_acceleration : list double;
  target_position : list double;
  target_velocity : list double;
  target_acceleration : list double;
  max_velocity : list double;
  max_acceleration : list double;
  max_jerk : list double
}.

Record OutputParameter := {
  new_position : list double;
  new_velocity : list double;
  new_acceleration : list double
}.

(** [ruckig::InputParameter<0>{ num_dof }] and [ruckig::OutputParameter<0>{ num_dof }]. *)
Definition InputParameter_new (num_dof : nat) : InputParameter :=
  {| current_position := zeros num_dof; current_velocity := zeros num_dof;
     current_acceleration := zeros num_dof;
     target_position := zeros num_dof; target_velocity := zeros num_dof;
     target_acceleration := zeros num_dof;
     max_velocity := zeros num_dof; max_acceleration := zeros num_dof;
     max_jerk := repeat infinity num_dof |}.

Definition OutputParameter_new (num_dof : nat) : OutputParameter :=
  {| new_position := zeros num_dof; new_velocity := zeros num_dof;
     new_acceleration := zeros num_dof |}.

(** [moveit::core::RobotState]: the values of all robot variables. *)
Record RobotState := {
  position : list double;
  velocity : list double;
  acceleration : list double
}.

Definition getVariablePosition (s : RobotState) (index : nat) := at_ (position s) index.
Definition getVariableVelocity (s : RobotState) (index : nat) := at_ (velocity s) index.
Definition getVariableAcceleration (s : RobotState) (index : nat) := at_ (acceleration s) index.

Definition setVariablePosition (s : RobotState) (index : nat) (v : double) : exec RobotState :=
  p <- set_at (position s) index v ;;
  Val {| position := p; velocity := velocity s; acceleration := acceleration s |}.
Definition setVariableVelocity (s : RobotState) (index : nat) (v : double) : exec RobotState :=
  p <- set_at (velocity s) index v ;;
  Val {| position := position s; velocity := p; acceleration := acceleration s |}.
Definition setVariableAcceleration (s : RobotState) (index : nat) (v : double) : exec RobotState :=
  p <- set_at (acceleration s) index v ;;
  Val {| position := position s; velocity := velocity s; acceleration := p |}.

Record VariableBounds := {
  velocity_bounded_ : bool;
  max_velocity_ : double;
  acceleration_bounded_ : bool;
  max_acceleration_ : double
}.

(** [moveit::core::JointModelGroup], as far as the smoother reads it; [getVariableBounds]
    lists [rmodel.getVariableBounds(vars.at(i))] for the group's variables. *)
Record JointModelGroup := {
  getVariableCount : nat;
  getVariableIndexList : list nat;
  getVariableBounds : list VariableBounds
}.

(** [robot_trajectory::RobotTrajectory]: the waypoints, each with its duration from the
    previous one. *)
Record RobotTrajectory := {
  getGroup : option JointModelGroup;
  waypoints : list (RobotState * double)
}.

Definition getWayPointCount (t : RobotTrajectory) : nat := List.length (waypoints t).

Definition addSuffixWayPoint (t : RobotTrajectory) (s : RobotState) (dt : double) :=
  {| getGroup := getGroup t; waypoints := waypoints t ++ [(s, dt)] |}.

Definition addPrefixWayPoint (t : RobotTrajectory) (s : RobotState) (dt : double) :=
  {| getGroup := getGroup t; waypoints := (s, dt) :: waypoints t |}.

Definition clear (t : RobotTrajectory) :=
  {| getGroup := getGroup t; waypoints := [] |}.

Definition getWayPoint (t : RobotTrajectory) (i : nat) : exec RobotState :=
  '(s, _) <- at_ (waypoints t) i ;; Val s.

Definition getWayPointDurationFromPrevious (t : RobotTrajectory) (i : nat) : double :=
  match nth_error (waypoints t) i with
  | Some (_, d) => d
  | None => 0
  end.

(** [checkForLaggingMotion]: the loop over the joints, left at the first joint whose
    ratio is below 1. *)
Fixpoint checkForLaggingMotion_from (n joint : nat)
  (ruckig_input : InputParameter) (ruckig_output : OutputParameter) : exec bool :=
  match n with
  | O => Val false
  | S n' =>
      nv <- at_ (new_velocity ruckig_output) joint ;;
      tv <- at_ (target_velocity ruckig_input) joint ;;
      if nv / tv <? 1 then Val true
      else checkForLaggingMotion_from n' (S joint) ruckig_input ruckig_output
  end.

Definition checkForLaggingMotion (num_dof : nat)
  (ruckig_input : InputParameter) (ruckig_output : OutputParameter) : exec bool :=
  checkForLaggingMotion_from num_dof 0 ruckig_input ruckig_output.

Definition getTargetVelocityMagnitude (ruckig_input : InputParameter) (num_dof : nat)
  : exec double :=
  vel_magnitude <-
    for_loop num_dof 0
      (fun joint vel_magnitude =>
         a <- at_ (target_velocity ruckig_input) joint ;;
         Val (vel_magnitude + a * a))
      0 ;;
  Val (sqrt vel_magnitude).

Definition with_target_velocity (i : InputParameter) (v : list double) :=
  {| current_position := current_position i; current_velocity := current_velocity i;
     current_acceleration := current_acceleration i;
     target_position := target_position i; target_velocity := v;
     target_acceleration := target_acceleration i;
     max_velocity := max_velocity i; max_acceleration := max_acceleration i;
     max_jerk := max_jerk i |}.

Definition with_target_acceleration (i : InputParameter) (v : list double) :=
  {| current_position := current_position i; current_velocity := current_velocity i;
     current_acceleration := current_acceleration i;
     target_position := target_position i; target_velocity := target_velocity i;
     target_acceleration := v;
     max_velocity := max_velocity i; max_acceleration := max_acceleration i;
     max_jerk := max_jerk i |}.

(** The "decrease target velocity" loop of [applySmoothing]. *)
Definition decreaseTargetVelocity (num_dof : nat)
  (ruckig_input : InputParameter) (ruckig_output : OutputParameter) : exec InputParameter :=
  for_loop num_dof 0
    (fun joint inp =>
       tv <- at_ (target_velocity inp) joint ;;
       tvs <- set_at (target_velocity inp) joint (tv * 0.9) ;;
       let inp := with_target_velocity inp tvs in
       tv <- at_ (target_velocity inp) joint ;;
       nv <- at_ (new_velocity ruckig_output) joint ;;
       tas <- set_at (target_acceleration inp) joint ((tv - nv) / DEFAULT_RUCKIG_TIMESTEP) ;;
       Val (with_target_acceleration inp tas))
    ruckig_input.

Definition getNextRuckigInput (ruckig_output : OutputParameter) (target_waypoint : RobotState)
  (num_dof : nat) (idx : list nat) (ruckig_input : InputParameter) : exec InputParameter :=
  for_loop num_dof 0
    (fun joint inp =>
       np <- at_ (new_position ruckig_output) joint ;;
       cp <- set_at (current_position inp) joint np ;;
       nv <- at_ (new_velocity ruckig_output) joint ;;
       cv <- set_at (current_velocity inp) joint nv ;;
       na <- at_ (new_acceleration ruckig_output) joint ;;
       ca <- set_at (current_acceleration inp) joint na ;;
       i <- at_ idx joint ;;
       p <- getVariablePosition target_waypoint i ;;
       tp <- set_at (target_position inp) joint p ;;
       v <- getVariableVelocity target_waypoint i ;;
       tv <- set_at (target_velocity inp) joint v ;;
       a <- getVariableAcceleration target_waypoint i ;;
       ta <- set_at (target_acceleration inp) joint a ;;
       Val {| current_position := cp; current_velocity := cv; current_acceleration := ca;
              target_position := tp; target_velocity := tv; target_acceleration := ta;
              max_velocity := max_velocity inp; max_acceleration := max_acceleration inp;
              max_jerk := max_jerk inp |})
    ruckig_input.

Definition initializeRuckigState (ruckig_input : InputParameter)
  (first_waypoint : RobotState) (num_dof : nat) (idx : list nat)
  : exec (InputParameter * OutputParameter) :=
  '(ps, vs, accs) <-
    for_loop num_dof 0
      (fun i '(ps, vs, accs) =>
         k <- at_ idx i ;;
         p <- getVariablePosition first_waypoint k ;;
         ps <- set_at ps i p ;;
         v <- getVariableVelocity first_waypoint k ;;
         vs <- set_at vs i v ;;
         a <- getVariableAcceleration first_waypoint k ;;
         accs <- set_at accs i a ;;
         Val (ps, vs, accs))
      (zeros num_dof, zeros num_dof, zeros num_dof) ;;
  let inp :=
    {| current_position := ps; current_velocity := vs; current_acceleration := accs;
       target_position := target_position ruckig_input;
       target_velocity := target_velocity ruckig_input;
       target_acceleration := target_acceleration ruckig_input;
       max_velocity := max_velocity ruckig_input;
       max_acceleration := max_acceleration ruckig_input;
       max_jerk := max_jerk ruckig_input |} in
  Val (inp, {| new_position := ps; new_velocity := vs; new_acceleration := accs |}).

(** A [return false;] from inside a loop, or the loop's state carried on. *)
Inductive flow (A : Type) : Type :=
| Next (a : A)
| ReturnFalse.

Arguments Next {A} a.
Arguments ReturnFalse {A}.

Section ApplySmoothing.

(** The collaborators [applySmoothing] calls: the Ruckig library ([Ruckig] is the
    generator's own state) and the robot state and trajectory classes. *)
Context {Ruckig : Type}.
Variable Ruckig_new : nat -> double -> Ruckig.
Variable update :
  Ruckig -> InputParameter -> OutputParameter -> Ruckig * Result * OutputParameter.
Variable distance : RobotState -> RobotState -> double.
Variable unwind : RobotTrajectory -> RobotTrajectory.
Variable getAverageSegmentDuration : RobotTrajectory -> double.

Definition checkForIdenticalWaypoints (prev_waypoint target_waypoint : RobotState) : bool :=
  let magnitude_position_difference := distance prev_waypoint target_waypoint in
  magnitude_position_difference <=? IDENTICAL_POSITION_EPSILON.

(** The loop "Remove repeated waypoints with no change in position" (lines 84-97).
    [addSuffixWayPoint] is called on [trajectory] itself. *)
Definition removeRepeatedWaypoints (num_waypoints : nat) (trajectory : RobotTrajectory)
  : exec RobotTrajectory :=
  for_loop (num_waypoints - 1) 0
    (fun waypoint_idx trajectory =>
       a <- getWayPoint trajectory waypoint_idx ;;
       b <- getWayPoint trajectory (waypoint_idx + 1) ;;
       let identical_waypoint := checkForIdenticalWaypoints a b in
       if identical_waypoint then Val trajectory
       else Val (addSuffixWayPoint trajectory a
                   (getWayPointDurationFromPrevious trajectory waypoint_idx)))
    trajectory.

(** The kinematic limits loop (lines 131-155). *)
Definition setKinematicLimits (group : JointModelGroup) (num_dof : nat)
  (max_velocity_scaling_factor max_acceleration_scaling_factor : double)
  (ruckig_input : InputParameter) : exec InputParameter :=
  for_loop num_dof 0
    (fun i inp =>
       mj <- set_at (max_jerk inp) i DEFAULT_MAX_JERK ;;
       bounds <- at_ (getVariableBounds group) i ;;
       mv <- set_at (max_velocity inp) i
               (if velocity_bounded_ bounds
                then max_velocity_scaling_factor * max_velocity_ bounds
                else max_velocity_scaling_factor * DEFAULT_MAX_VELOCITY) ;;
       ma <- set_at (max_acceleration inp) i
               (if acceleration_bounded_ bounds
                then max_acceleration_scaling_factor * max_acceleration_ bounds
                else max_acceleration_scaling_factor * DEFAULT_MAX_ACCELERATION) ;;
       Val {| current_position := current_position inp;
              current_velocity := current_velocity inp;
              current_acceleration := current_acceleration inp;
              target_position := target_position inp;
              target_velocity := target_velocity inp;
              target_acceleration := target_acceleration inp;
              max_velocity := mv; max_acceleration := ma; max_jerk := mj |})
    ruckig_input.

(** What the waypoint loop starts from. *)
Record Prepared := {
  p_trajectory : RobotTrajectory;          (* the waypoints the generator is driven through *)
  p_output_trajectory : RobotTrajectory;
  p_num_waypoints : nat;
  p_num_dof : nat;
  p_idx : list nat;
  p_ruckig : Ruckig;
  p_input : InputParameter;
  p_output : OutputParameter
}.

(** [applySmoothing], lines 63-155.  The first component is [trajectory] as the caller
    sees it afterwards. *)
Definition applySmoothing_prepare (trajectory : RobotTrajectory)
  (max_velocity_scaling_factor max_acceleration_scaling_factor : double)
  : exec (RobotTrajectory * flow Prepared) :=
  match getGroup trajectory with
  | None => Val (trajectory, ReturnFalse)
  | Some group =>
      let num_waypoints := getWayPointCount trajectory in
      if Nat.ltb num_waypoints 2 then Val (trajectory, ReturnFalse)
      else
        let num_dof := getVariableCount group in
        let trajectory := unwind trajectory in
        trajectory <- removeRepeatedWaypoints num_waypoints trajectory ;;
        first <- getWayPoint trajectory 0 ;;
        let output_trajectory := addPrefixWayPoint (clear trajectory) first 0 in
        let num_waypoints := getWayPointCount trajectory in
        if Nat.ltb num_waypoints 2 then Val (trajectory, ReturnFalse)
        else
          let ruckig := Ruckig_new num_dof DEFAULT_RUCKIG_TIMESTEP in
          if getAverageSegmentDuration trajectory <? DEFAULT_RUCKIG_TIMESTEP
          then Val (trajectory, ReturnFalse)
          else
            let idx := getVariableIndexList group in
            '(ruckig_input, ruckig_output) <-
              initializeRuckigState (InputParameter_new num_dof) first num_dof idx ;;
            ruckig_input <-
              setKinematicLimits group num_dof max_velocity_scaling_factor
                max_acceleration_scaling_factor ruckig_input ;;
            Val (trajectory,
                 Next {| p_trajectory := trajectory;
                         p_output_trajectory := output_trajectory;
                         p_num_waypoints := num_waypoints;
                         p_num_dof := num_dof; p_idx := idx; p_ruckig := ruckig;
                         p_input := ruckig_input; p_output := ruckig_output |})
  end.

(** The variables live across the iterations of the [while] loop (lines 162-219). *)
Record LoopVars := {
  ruckig : Ruckig;
  ruckig_input : InputParameter;
  ruckig_output : OutputParameter;
  velocity_magnitude : double;
  backward_motion_detected : bool;
  ruckig_result : Result;
  output_trajectory : RobotTrajectory
}.

(** [new_waypoint] of lines 201-207. *)
Definition makeNewWaypoint (target_waypoint : RobotState) (num_dof : nat) (idx : list nat)
  (out : OutputParameter) : exec RobotState :=
  for_loop num_dof 0
    (fun joint w =>
       i <- at_ idx joint ;;
       p <- at_ (new_position out) joint ;;
       w <- setVariablePosition w i p ;;
       v <- at_ (new_velocity out) joint ;;
       w <- setVariableVelocity w i v ;;
       a <- at_ (new_acceleration out) joint ;;
       setVariableAcceleration w i a)
    target_waypoint.

(** One pass through the body of the [while] loop (lines 168-218). *)
Definition while_body (target_waypoint : RobotState) (num_dof : nat) (idx : list nat)
  (s : LoopVars) : exec (flow LoopVars) :=
  let '(rk, result, out) := update (ruckig s) (ruckig_input s) (ruckig_output s) in
  backward <- checkForLaggingMotion num_dof (ruckig_input s) out ;;
  '(inp, magnitude) <-
    (if backward : bool
     then inp <- decreaseTargetVelocity num_dof (ruckig_input s) out ;;
          m <- getTargetVelocityMagnitude inp num_dof ;;
          Val (inp, m)
     else Val (ruckig_input s, velocity_magnitude s)) ;;
  if magnitude <? MINIMUM_VELOCITY_SEARCH_MAGNITUDE then Val ReturnFalse
  else
    otraj <-
      (if negb backward && (Result_eqb result Working || Result_eqb result Finished)
       then new_waypoint <- makeNewWaypoint target_waypoint num_dof idx out ;;
            Val (addSuffixWayPoint (output_trajectory s) new_waypoint DEFAULT_RUCKIG_TIMESTEP)
       else Val (output_trajectory s)) ;;
    inp <- getNextRuckigInput out target_waypoint num_dof idx inp ;;
    Val (Next {| ruckig := rk; ruckig_input := inp; ruckig_output := out;
                 velocity_magnitude := magnitude; backward_motion_detected := backward;
                 ruckig_result := result; output_trajectory := otraj |}).

(** [while (backward_motion_detected || (ruckig_result != ruckig::Result::Finished))]. *)
Fixpoint while_loop (fuel : nat) (target_waypoint : RobotState) (num_dof : nat)
  (idx : list nat) (s : LoopVars) : exec (flow LoopVars) :=
  if backward_motion_detected s || negb (Result_eqb (ruckig_result s) Finished) then
    match fuel with
    | O => OutOfFuel
    | S fuel' =>
        r <- while_body target_waypoint num_dof idx s ;;
        match r with
        | ReturnFalse => Val ReturnFalse
        | Next s' => while_loop fuel' target_waypoint num_dof idx s'
        end
    end
  else Val (Next s).

(** The loop over the target waypoints (lines 157-247); [fuel] bounds each [while]. *)
Fixpoint waypoint_loop (fuel : nat) (n waypoint_idx : nat) (trajectory : RobotTrajectory)
  (num_dof : nat) (idx : list nat)
  (rk : Ruckig) (inp : InputParameter) (out : OutputParameter) (otraj : RobotTrajectory)
  : exec (flow RobotTrajectory) :=
  match n with
  | O => Val (Next otraj)
  | S n' =>
      target_waypoint <- getWayPoint trajectory (waypoint_idx + 1) ;;
      r <- while_loop fuel target_waypoint num_dof idx
             {| ruckig := rk; ruckig_input := inp; ruckig_output := out;
                velocity_magnitude := DBL_MAX; backward_motion_detected := true;
                ruckig_result := Working; output_trajectory := otraj |} ;;
      match r with
      | ReturnFalse => Val ReturnFalse
      | Next s =>
          waypoint_loop fuel n' (S waypoint_idx) trajectory num_dof idx
            (ruckig s) (ruckig_input s) (ruckig_output s) (output_trajectory s)
      end
  end.

(** [applySmoothing]: the returned flag and [trajectory] as the caller sees it. *)
Definition applySmoothing (fuel : nat) (trajectory : RobotTrajectory)
  (max_velocity_scaling_factor max_acceleration_scaling_factor : double)
  : exec (bool * RobotTrajectory) :=
  '(trajectory, r) <-
    applySmoothing_prepare trajectory max_velocity_scaling_factor
      max_acceleration_scaling_factor ;;
  match r with
  | ReturnFalse => Val (false, trajectory)
  | Next p =>
      r <- waypoint_loop fuel (p_num_waypoints p - 1) 0 (p_trajectory p) (p_num_dof p)
             (p_idx p) (p_ruckig p) (p_input p) (p_output p) (p_output_trajectory p) ;;
      match r with
      | ReturnFalse => Val (false, trajectory)
      | Next output_trajectory => Val (true, output_trajectory)
      end
  end.

End ApplySmoothing.

End RuckigSmoothing.

(** ** moveit_servo: servo_calcs.cpp *)

Module Servo.

Import RecordSetters.TriangleBracketNotations.

Definition STOPPED_VELOCITY_EPS : double := 1e-4.

(** [moveit_servo::StatusCode] *)
Inductive StatusCode :=
| INVALID
| NO_WARNING
| DECELERATE_FOR_SINGULARITY
| HALT_FOR_SINGULARITY
| DECELERATE_FOR_COLLISION
| HALT_FOR_COLLISION
| JOINT_BOUND.

Inductive ServoType := CARTESIAN_SPACE | JOINT_SPACE.

(** *** Messages *)

(** [builtin_interfaces::msg::Time]; the comparisons with [rclcpp::Time(0.)] in the
    source are those of the message type, field by field. *)
Module Time.
Record t := { sec : Z; nanosec : Z }.
Definition zero : t := {| sec := 0; nanosec := 0 |}.
Definition eqb (a b : t) : bool := Z.eqb (sec a) (sec b) && Z.eqb (nanosec a) (nanosec b).
End Time.

Module Header.
Record t := { stamp : Time.t; frame_id : string }.
Definition default : t := {| stamp := Time.zero; frame_id := EmptyString |}.
End Header.

Module Vector3.
Record t := { x : double; y : double; z : double }.
Definition default : t := {| x := 0; y := 0; z := 0 |}.
End Vector3.

Module Twist.
Record t := { linear : Vector3.t; angular : Vector3.t }.
Definition default : t := {| linear := Vector3.default; angular := Vector3.default |}.
End Twist.

Module TwistStamped.
Record t := { header : Header.t; twist : Twist.t }.
Definition default : t := {| header := Header.default; twist := Twist.default |}.
End TwistStamped.

Module JointJog.
Record t := {
  header : Header.t;
  joint_names : list string;
  displacements : list double;
  velocities : list double;
  duration : double
}.
Definition default : t :=
  {| header := Header.default; joint_names := []; displacements := [];
     velocities := []; duration := 0 |}.
End JointJog.

(** [sensor_msgs::msg::JointState] *)
Module JointState.
Record t := { name : list string; position : list double; velocity : list double }.
End JointState.

Module JointTrajectoryPoint.
Record t := {
  positions : list double;
  velocities : list double;
  accelerations : list double;
  time_from_start : double        (* seconds *)
}.
Definition default : t :=
  {| positions := []; velocities := []; accelerations := []; time_from_start := 0 |}.
End JointTrajectoryPoint.

Module JointTrajectory.
Record t := {
  header : Header.t;
  joint_names : list string;
  points : list JointTrajectoryPoint.t
}.
Definition default : t := {| header := Header.default; joint_names := []; points := [] |}.
End JointTrajectory.

(** What the node sends out, in order. *)
Inductive Publication :=
| StatusMsg (status : StatusCode)                       (* status_pub_ *)
| ConditionMsg (condition : double)                     (* condition_pub_ *)
| TrajectoryMsg (msg : JointTrajectory.t)               (* trajectory_outgoing_cmd_pub_ *)
| MultiArrayMsg (data : list double).                   (* multiarray_outgoing_cmd_pub_ *)

Definition is_command (p : Publication) : bool :=
  match p with
  | TrajectoryMsg _ | MultiArrayMsg _ => true
  | _ => false
  end.

(** *** Parameters and robot model *)

Record ServoParameters := {
  publish_period : double;
  incoming_command_timeout : double;
  num_outgoing_halt_msgs_to_publish : Z;
  command_in_type : string;
  command_out_type : string;
  linear_scale : double;
  rotational_scale : double;
  joint_scale : double;
  lower_singularity_threshold : double;
  hard_stop_singularity_threshold : double;
  joint_limit_margin : double;
  halt_all_joints_in_joint_mode : bool;
  halt_all_joints_in_cartesian_mode : bool;
  publish_joint_positions : bool;
  publish_joint_velocities : bool;
  publish_joint_accelerations : bool;
  use_gazebo : bool;
  planning_frame : string;
  ee_frame_name : string
}.

(** [moveit_msgs::msg::JointLimits] *)
Record JointLimits := { min_position : double; max_position : double }.

(** [moveit::core::JointModel], as far as the servo reads it. *)
Record JointModel := {
  getName : string;
  satisfiesPositionBounds : double -> double -> bool;   (* value, margin *)
  getVariableBoundsMsg : list JointLimits
}.

Definition Matrix : Type := list (list double).

(** [Eigen::JacobiSVD<Eigen::MatrixXd>] with thin U and V. *)
Record JacobiSVD := {
  matrixU : Matrix;
  singularValues : list double;
  matrixV : Matrix
}.

(** *** Eigen expressions used by the servo *)

(** [m.col(k)] *)
Definition col (m : Matrix) (k : nat) : list double := map (fun row => nth k row 0) m.

(** [a.dot(b)] *)
Definition dot (a b : list double) : double :=
  fold_left (fun acc '(p, q) => acc + p * q) (combine a b) 0.

(** [m * v] *)
Definition mat_vec (m : Matrix) (v : list double) : list double :=
  map (fun row => dot row v) m.

(** [v / c], [v * c] and [v *= -1] for a vector [v] and a scalar [c]. *)
Definition vec_div (v : list double) (c : double) : list double := map (fun a => a / c) v.
Definition vec_scale (v : list double) (c : double) : list double := map (fun a => a * c) v.

(** [a + b] on vectors of one size. *)
Definition vec_add (a b : list double) : list double :=
  map (fun '(p, q) => p + q) (combine a b).

(** [std::find(names.begin(), names.end(), n) - names.begin()]: the index of the first
    occurrence, [names.size()] when there is none. *)
Fixpoint find_index (names : list string) (n : string) : nat :=
  match names with
  | [] => O
  | h :: t => if String.eqb h n then O else S (find_index t n)
  end.

(** Helper functions for detecting a zeroed message. *)
Definition isNonZero_TwistStamped (msg : TwistStamped.t) : bool :=
  let l := Twist.linear (TwistStamped.twist msg) in
  let a := Twist.angular (TwistStamped.twist msg) in
  negb (Vector3.x l =? 0) || negb (Vector3.y l =? 0) || negb (Vector3.z l =? 0) ||
  negb (Vector3.x a =? 0) || negb (Vector3.y a =? 0) || negb (Vector3.z a =? 0).

Definition isNonZero_JointJog (msg : JointJog.t) : bool :=
  let all_zeros :=
    fold_left (fun all_zeros delta => all_zeros && (delta =? 0)) (JointJog.velocities msg) true in
  negb all_zeros.

Section ServoCalcs.

(** The collaborators of [ServoCalcs]: the smoothing plugin ([Smoother] is the plugin
    instance with its filter state), the robot state and kinematics of the planning scene
    monitor, Eigen's decomposition, the velocity limits of enforce_limits.hpp and the
    node clock. *)
Context {Smoother : Type}.
Variable doSmoothing : Smoother -> list double -> Smoother * list double.
Variable reset : Smoother -> list double -> Smoother.
Context {RobotState : Type}.
Variable copyJointGroupPositions : RobotState -> list double.
Variable copyJointGroupVelocities : RobotState -> list double.
Variable setJointGroupPositions : RobotState -> list double -> RobotState.
Variable getJacobian : RobotState -> Matrix.
Context {Isometry3d : Type}.
Variable linear : Isometry3d -> Matrix.
(** [getGlobalLinkTransform(from).inverse() * getGlobalLinkTransform(to)] *)
Variable frameTransform : RobotState -> string -> string -> Isometry3d.
Variable jacobiSVD : Matrix -> JacobiSVD.
(** [svd.matrixV() * matrix_s.inverse() * svd.matrixU().transpose()] *)
Variable pseudoInverse : JacobiSVD -> Matrix.
Variable enforceVelocityLimits : double -> list double -> list double.
(** [(now - stamp) >= rclcpp::Duration::from_seconds(timeout)] *)
Variable timedOut : Time.t -> Time.t -> double -> bool.

Variable parameters_ : ServoParameters.
(** [joint_model_group_->getActiveJointModels()] *)
Variable joint_model_group_ : list JointModel.
(** What the memory past the end of a vector holds: [v[i]] on a [std::vector] is not
    checked and throws nothing, and the entries [conservativeResize] adds to a vector are
    not initialised. *)
Variable past_the_end : list double -> nat -> double.

(** The members of [ServoCalcs] the calculations read and write, and [published], the
    messages handed to the publishers so far (oldest first). *)
Record ServoCalcs := {
  status_ : StatusCode;
  current_state_ : RobotState;
  original_joint_state_ : JointState.t;
  internal_joint_state_ : JointState.t;
  num_joints_ : nat;
  joint_state_name_map_ : list (string * nat);
  smoother_ : Smoother;
  updated_filters_ : bool;
  delta_theta_ : list double;
  collision_velocity_scale_ : double;
  drift_dimensions_ : list bool;
  control_dimensions_ : list bool;
  tf_moveit_to_ee_frame_ : Isometry3d;
  tf_moveit_to_robot_cmd_frame_ : Isometry3d;
  robot_link_command_frame_ : string;
  latest_twist_stamped_ : option TwistStamped.t;
  latest_joint_cmd_ : option JointJog.t;
  latest_twist_command_stamp_ : Time.t;
  latest_joint_command_stamp_ : Time.t;
  latest_twist_cmd_is_nonzero_ : bool;
  latest_joint_cmd_is_nonzero_ : bool;
  new_input_cmd_ : bool;
  twist_stamped_cmd_ : TwistStamped.t;
  joint_servo_cmd_ : JointJog.t;
  twist_command_is_stale_ : bool;
  joint_command_is_stale_ : bool;
  have_nonzero_twist_stamped_ : bool;
  have_nonzero_joint_command_ : bool;
  have_nonzero_command_ : bool;
  wait_for_servo_commands_ : bool;
  paused_ : bool;
  done_stopping_ : bool;
  ok_to_publish_ : bool;
  zero_velocity_count_ : Z;
  last_sent_command_ : JointTrajectory.t;
  gazebo_redundant_message_count_ : Z;
  published : list Publication
}.

Definition publish (m : Publication) (s : ServoCalcs) : ServoCalcs :=
  s<|published := published s ++ [m]|>.

Definition resetLowPassFilters (joint_state : JointState.t) (s : ServoCalcs) : ServoCalcs :=
  s<|smoother_ := reset (smoother_ s) (JointState.position joint_state)|>
   <|updated_filters_ := true|>.

Definition updateJoints (monitor : RobotState) (s : ServoCalcs) : ServoCalcs :=
  let s := s<|current_state_ := monitor|> in
  let js :=
    {| JointState.name := JointState.name (internal_joint_state_ s);
       JointState.position := copyJointGroupPositions (current_state_ s);
       JointState.velocity := copyJointGroupVelocities (current_state_ s) |} in
  s<|internal_joint_state_ := js|><|original_joint_state_ := js|>.

(** [svd.singularValues()(0) / svd.singularValues()(size - 1)] *)
Definition condition_number (sv : list double) : double :=
  nth 0 sv 0 / nth (List.length sv - 1) sv 0.

(** The first part of [velocityScalingFactorForSingularity] (lines 763-793): the
    condition number of the Jacobian, which is published, and the last column of U,
    turned by a look-ahead so that it points toward the singularity. *)
Definition vectorTowardSingularity (commanded_velocity : list double)
  (svd : JacobiSVD) (pseudo_inverse : Matrix) (s : ServoCalcs)
  : list double * double * ServoCalcs :=
  let num_dimensions := List.length commanded_velocity in
  let vector_toward_singularity := col (matrixU svd) (num_dimensions - 1) in
  let ini_condition := condition_number (singularValues svd) in
  let s := publish (ConditionMsg ini_condition) s in
  let scale : double := 100 in
  let delta_x := vec_div vector_toward_singularity scale in
  (* Calculate a small change in joints *)
  let new_theta := copyJointGroupPositions (current_state_ s) in
  let new_theta := vec_add new_theta (mat_vec pseudo_inverse delta_x) in
  let s := s<|current_state_ := setJointGroupPositions (current_state_ s) new_theta|> in
  let new_jacobian := getJacobian (current_state_ s) in
  let new_svd := jacobiSVD new_jacobian in
  let new_condition := condition_number (singularValues new_svd) in
  (* If new_condition < ini_condition, the singular vector does point towards a
     singularity. Otherwise, flip its direction. *)
  let vector_toward_singularity :=
    if new_condition <=? ini_condition
    then vec_scale vector_toward_singularity (-1)
    else vector_toward_singularity in
  (vector_toward_singularity, ini_condition, s).

(** Possibly calculate a velocity scaling factor, due to proximity of singularity and
    direction of motion. *)
Definition velocityScalingFactorForSingularity (commanded_velocity : list double)
  (svd : JacobiSVD) (pseudo_inverse : Matrix) (s : ServoCalcs) : double * ServoCalcs :=
  let velocity_scale : double := 1 in
  let '(vector_toward_singularity, ini_condition, s) :=
    vectorTowardSingularity commanded_velocity svd pseudo_inverse s in
  (* If this dot product is positive, we're moving toward singularity ==> decelerate *)
  let dot := dot vector_toward_singularity commanded_velocity in
  if 0 <? dot then
    (* Ramp velocity down linearly when the Jacobian condition is between
       lower_singularity_threshold and hard_stop_singularity_threshold *)
    if (lower_singularity_threshold parameters_ <? ini_condition) &&
       (ini_condition <? hard_stop_singularity_threshold parameters_)
    then
      (1 - (ini_condition - lower_singularity_threshold parameters_) /
           (hard_stop_singularity_threshold parameters_ -
            lower_singularity_threshold parameters_),
       s<|status_ := DECELERATE_FOR_SINGULARITY|>)
    (* Very close to singularity, so halt. *)
    else if hard_stop_singularity_threshold parameters_ <? ini_condition
    then (0, s<|status_ := HALT_FOR_SINGULARITY|>)
    else (velocity_scale, s)
  else (velocity_scale, s).

(** One pass of the loop over the active joints in [enforcePositionLimits];
    [joint_angle] is declared outside the loop. *)
Definition enforcePositionLimits_joint (joint_state : JointState.t) (joint : JointModel)
  (acc : double * list JointModel) : exec (double * list JointModel) :=
  let '(joint_angle, joints_to_halt) := acc in
  let c := find_index (JointState.name joint_state) (getName joint) in
  joint_angle <-
    (if Nat.ltb c (List.length (JointState.name joint_state))
     then at_ (JointState.position joint_state) c
     else Val joint_angle) ;;
  if negb (satisfiesPositionBounds joint joint_angle (- joint_limit_margin parameters_))
  then
    match getVariableBoundsMsg joint with
    | [] => Val (joint_angle, joints_to_halt)
    | limits0 :: _ =>
        let joint_idx := find_index (JointState.name joint_state) (getName joint) in
        v <- at_ (JointState.velocity joint_state) joint_idx ;;
        if ((v <? 0) &&
            (joint_angle <? min_position limits0 + joint_limit_margin parameters_)) ||
           ((0 <? v) &&
            (max_position limits0 - joint_limit_margin parameters_ <? joint_angle))
        then Val (joint_angle, joints_to_halt ++ [joint])
        else Val (joint_angle, joints_to_halt)
    end
  else Val (joint_angle, joints_to_halt).

Fixpoint enforcePositionLimits_loop (joint_state : JointState.t) (joints : list JointModel)
  (acc : double * list JointModel) : exec (double * list JointModel) :=
  match joints with
  | [] => Val acc
  | joint :: rest =>
      acc <- enforcePositionLimits_joint joint_state joint acc ;;
      enforcePositionLimits_loop joint_state rest acc
  end.

(** Halt if we're past a joint margin and joint velocity is moving even farther past. *)
Definition enforcePositionLimits (joint_state : JointState.t) : exec (list JointModel) :=
  '(_, joints_to_halt) <- enforcePositionLimits_loop joint_state joint_model_group_ (0, []) ;;
  Val joints_to_halt.

(** Set the position to the original position, and velocity to 0 for input joints. *)
Fixpoint suddenHalt (s : ServoCalcs) (joint_state : JointState.t)
  (joints_to_halt : list JointModel) : exec JointState.t :=
  match joints_to_halt with
  | [] => Val joint_state
  | joint_to_halt :: rest =>
      let joint_index := find_index (JointState.name joint_state) (getName joint_to_halt) in
      joint_state <-
        (if Nat.ltb joint_index (List.length (JointState.name joint_state))
         then
           o <- at_ (JointState.position (original_joint_state_ s)) joint_index ;;
           p <- set_at (JointState.position joint_state) joint_index o ;;
           v <- set_at (JointState.velocity joint_state) joint_index 0 ;;
           Val {| JointState.name := JointState.name joint_state;
                  JointState.position := p; JointState.velocity := v |}
         else Val joint_state) ;;
      suddenHalt s joint_state rest
  end.

Definition applyJointUpdate (delta_theta : list double) (joint_state : JointState.t)
  (s : ServoCalcs) : exec (bool * JointState.t * ServoCalcs) :=
  if negb (Nat.eqb (List.length (JointState.position joint_state)) (List.length delta_theta)) ||
     negb (Nat.eqb (List.length (JointState.velocity joint_state))
                   (List.length (JointState.position joint_state)))
  then Val (false, joint_state, s)
  else
    let position := vec_add (JointState.position joint_state) delta_theta in
    let '(sm, position) := doSmoothing (smoother_ s) position in
    let s := s<|smoother_ := sm|> in
    velocity <-
      for_loop (List.length position) 0
        (fun i velocity =>
           p <- at_ position i ;;
           o <- at_ (JointState.position (original_joint_state_ s)) i ;;
           set_at velocity i ((p - o) / publish_period parameters_))
        (JointState.velocity joint_state) ;;
    Val (true,
         {| JointState.name := JointState.name joint_state;
            JointState.position := position; JointState.velocity := velocity |},
         s).

Definition composeJointTrajMessage (s : ServoCalcs) (joint_state : JointState.t)
  (joint_trajectory : JointTrajectory.t) : JointTrajectory.t :=
  let point :=
    {| JointTrajectoryPoint.positions :=
         if publish_joint_positions parameters_ then JointState.position joint_state else [];
       JointTrajectoryPoint.velocities :=
         if publish_joint_velocities parameters_ then JointState.velocity joint_state else [];
       JointTrajectoryPoint.accelerations :=
         if publish_joint_accelerations parameters_
         then zeros (num_joints_ s) else [];
       JointTrajectoryPoint.time_from_start := publish_period parameters_ |} in
  {| JointTrajectory.header :=
       {| Header.stamp := Time.zero; Header.frame_id := planning_frame parameters_ |};
     JointTrajectory.joint_names := JointState.name joint_state;
     JointTrajectory.points := JointTrajectory.points joint_trajectory ++ [point] |}.

(** [static_cast<double>] of an [int]. *)
Definition int_to_double (n : Z) : double :=
  if Z.ltb n 0 then - PrimFloat.of_uint63 (Uint63.of_Z (- n))
  else PrimFloat.of_uint63 (Uint63.of_Z n).

(** [points.resize(count)] *)
Definition resize_points (count : nat) (points : list JointTrajectoryPoint.t) :=
  firstn count points ++ repeat JointTrajectoryPoint.default (count - List.length points).

(** Spam several redundant points into the trajectory. *)
Definition insertRedundantPointsIntoTrajectory (joint_trajectory : JointTrajectory.t)
  (count : Z) : JointTrajectory.t :=
  if Z.ltb count 2 then joint_trajectory
  else
    let points := resize_points (Z.to_nat count) (JointTrajectory.points joint_trajectory) in
    let point := nth 0 points JointTrajectoryPoint.default in
    let later :=
      map (fun i =>
             point<|JointTrajectoryPoint.time_from_start :=
                      int_to_double (Z.of_nat i + 1) * publish_period parameters_|>)
          (seq 1 (Z.to_nat count - 1)) in
    joint_trajectory<|JointTrajectory.points := firstn 1 points ++ later|>.

(** Whether the halt is for the joints at their limits only, in this mode of servoing. *)
Definition halt_selected_only (servo_type : ServoType) : bool :=
  match servo_type with
  | JOINT_SPACE => negb (halt_all_joints_in_joint_mode parameters_)
  | CARTESIAN_SPACE => negb (halt_all_joints_in_cartesian_mode parameters_)
  end.

(** The position limits in [internalServoUpdate] (lines 643-657). *)
Definition haltAtPositionLimits (servo_type : ServoType) (s : ServoCalcs) : exec ServoCalcs :=
  joints_to_halt <- enforcePositionLimits (internal_joint_state_ s) ;;
  match joints_to_halt with
  | [] => Val s
  | _ :: _ =>
      let s := s<|status_ := JOINT_BOUND|> in
      joint_state <-
        (if halt_selected_only servo_type
         then suddenHalt s (internal_joint_state_ s) joints_to_halt
         else suddenHalt s (internal_joint_state_ s) joint_model_group_) ;;
      Val (s<|internal_joint_state_ := joint_state|>)
  end.

Definition internalServoUpdate (delta_theta : list double)
  (joint_trajectory : JointTrajectory.t) (servo_type : ServoType) (s : ServoCalcs)
  : exec (bool * JointTrajectory.t * ServoCalcs) :=
  (* Set internal joint state from original *)
  let s := s<|internal_joint_state_ := original_joint_state_ s|> in
  (* Apply collision scaling *)
  let collision_scale := collision_velocity_scale_ s in
  let s :=
    if (0 <? collision_scale) && (collision_scale <? 1)
    then s<|status_ := DECELERATE_FOR_COLLISION|>
    else if collision_scale =? 0 then s<|status_ := HALT_FOR_COLLISION|>
    else s in
  let delta_theta := vec_scale delta_theta collision_scale in
  let s := s<|delta_theta_ := delta_theta|> in
  (* Loop thru joints and update them, calculate velocities, and filter *)
  '(updated, joint_state, s) <- applyJointUpdate delta_theta (internal_joint_state_ s) s ;;
  let s := s<|internal_joint_state_ := joint_state|> in
  if negb updated then Val (false, joint_trajectory, s)
  else
    let s := s<|updated_filters_ := true|> in
    (* Enforce SRDF velocity limits *)
    let delta_theta := enforceVelocityLimits (publish_period parameters_) delta_theta in
    let s := s<|delta_theta_ := delta_theta|> in
    (* Enforce SRDF position limits, might halt if needed *)
    s <- haltAtPositionLimits servo_type s ;;
    (* compose outgoing message *)
    let joint_trajectory :=
      composeJointTrajMessage s (internal_joint_state_ s) joint_trajectory in
    let joint_trajectory :=
      if use_gazebo parameters_
      then insertRedundantPointsIntoTrajectory joint_trajectory
             (gazebo_redundant_message_count_ s)
      else joint_trajectory in
    Val (true, joint_trajectory, s).

Definition filteredHalt (joint_trajectory : JointTrajectory.t) (s : ServoCalcs)
  : exec (JointTrajectory.t * ServoCalcs) :=
  let original := original_joint_state_ s in
  (* points.clear(); points.emplace_back(); *)
  let positions := JointState.position original in
  let '(sm, positions) := doSmoothing (smoother_ s) positions in
  let s := s<|smoother_ := sm|> in
  let s := s<|done_stopping_ := true|> in
  '(velocities, s) <-
    (if publish_joint_velocities parameters_
     then
       '(velocities, done_stopping) <-
         for_loop (num_joints_ s) 0
           (fun i '(velocities, done_stopping) =>
              p <- at_ positions i ;;
              o <- at_ (JointState.position original) i ;;
              velocities <- set_at velocities i ((p - o) / publish_period parameters_) ;;
              v <- at_ velocities i ;;
              (* If velocity is very close to zero, round to zero *)
              Val (velocities, if STOPPED_VELOCITY_EPS <? v then false else done_stopping))
           (zeros (num_joints_ s), done_stopping_ s) ;;
       (* If every joint is very close to stopped, round velocity to zero *)
       let velocities :=
         if done_stopping then map (fun _ => 0) velocities else velocities in
       Val (velocities, s<|done_stopping_ := done_stopping|>)
     else Val ([], s)) ;;
  accelerations <-
    (if publish_joint_accelerations parameters_
     then
       for_loop (num_joints_ s) 0
         (fun i accelerations =>
            v <- at_ velocities i ;;
            ov <- at_ (JointState.velocity original) i ;;
            set_at accelerations i ((v - ov) / publish_period parameters_))
         (zeros (num_joints_ s))
     else Val []) ;;
  let point :=
    {| JointTrajectoryPoint.positions := positions;
       JointTrajectoryPoint.velocities := velocities;
       JointTrajectoryPoint.accelerations := accelerations;
       JointTrajectoryPoint.time_from_start := publish_period parameters_ |} in
  Val (joint_trajectory<|JointTrajectory.points := [point]|>, s).

Definition checkValidCommand_JointJog (cmd : JointJog.t) : bool :=
  negb (existsb is_nan (JointJog.velocities cmd)).

Definition checkValidCommand_TwistStamped (cmd : TwistStamped.t) : bool :=
  let l := Twist.linear (TwistStamped.twist cmd) in
  let a := Twist.angular (TwistStamped.twist cmd) in
  if is_nan (Vector3.x l) || is_nan (Vector3.y l) || is_nan (Vector3.z l) ||
     is_nan (Vector3.x a) || is_nan (Vector3.y a) || is_nan (Vector3.z a)
  then false
  else if String.eqb (command_in_type parameters_) "unitless"%string then
    if (1 <? abs (Vector3.x l)) || (1 <? abs (Vector3.y l)) || (1 <? abs (Vector3.z l)) ||
       (1 <? abs (Vector3.x a)) || (1 <? abs (Vector3.y a)) || (1 <? abs (Vector3.z a))
    then false
    else true
  else true.

(** Scale the incoming jog command. Returns a vector of position deltas. *)
Definition scaleCartesianCommand (command : TwistStamped.t) : list double :=
  let l := Twist.linear (TwistStamped.twist command) in
  let a := Twist.angular (TwistStamped.twist command) in
  if String.eqb (command_in_type parameters_) "unitless"%string then
    [ linear_scale parameters_ * publish_period parameters_ * Vector3.x l;
      linear_scale parameters_ * publish_period parameters_ * Vector3.y l;
      linear_scale parameters_ * publish_period parameters_ * Vector3.z l;
      rotational_scale parameters_ * publish_period parameters_ * Vector3.x a;
      rotational_scale parameters_ * publish_period parameters_ * Vector3.y a;
      rotational_scale parameters_ * publish_period parameters_ * Vector3.z a ]
  else if String.eqb (command_in_type parameters_) "speed_units"%string then
    [ Vector3.x l * publish_period parameters_;
      Vector3.y l * publish_period parameters_;
      Vector3.z l * publish_period parameters_;
      Vector3.x a * publish_period parameters_;
      Vector3.y a * publish_period parameters_;
      Vector3.z a * publish_period parameters_ ]
  else zeros 6.

(** [joint_state_name_map_.at(name)]; [None] where the source catches
    [std::out_of_range]. *)
Fixpoint name_map_at (m : list (string * nat)) (n : string) : option nat :=
  match m with
  | [] => None
  | (k, c) :: rest => if String.eqb k n then Some c else name_map_at rest n
  end.

(** [v[i]] as an rvalue, on a [std::vector]. *)
Definition unchecked_at (v : list double) (i : nat) : double :=
  match nth_error v i with
  | Some a => a
  | None => past_the_end v i
  end.

(** [command.velocities[m]] is read unchecked.  [result[c]] is an index into the Eigen
    vector of [num_joints_] entries; the constructor (lines 169-176) fills
    [joint_state_name_map_] with indices below [num_joints_]. *)
Definition scaleJointCommand (command : JointJog.t) (s : ServoCalcs) : exec (list double) :=
  for_loop (List.length (JointJog.joint_names command)) 0
    (fun m result =>
       match name_map_at (joint_state_name_map_ s) (nth m (JointJog.joint_names command) EmptyString) with
       | None => Val result
       | Some c =>
           if String.eqb (command_in_type parameters_) "unitless"%string then
             set_at result c
               (unchecked_at (JointJog.velocities command) m *
                joint_scale parameters_ * publish_period parameters_)
           else if String.eqb (command_in_type parameters_) "speed_units"%string then
             set_at result c
               (unchecked_at (JointJog.velocities command) m * publish_period parameters_)
           else Val result
       end)
    (zeros (num_joints_ s)).

(** [block(row, 0, n, cols) = block(row + 1, 0, n, cols)] and the same on a segment;
    both blocks have to lie within the object. *)
Definition shift_up {A : Type} (l : list A) (row : nat) (n : Z) : exec (list A) :=
  if (Z.of_nat row + 1 + n <=? Z.of_nat (List.length l))%Z
  then Val (firstn row l ++ firstn (Z.to_nat n) (skipn (row + 1) l)
            ++ skipn (row + Z.to_nat n) l)
  else OutOfRange.

(** [jacobian.conservativeResize(rows, cols)] with the columns as they are.  The matrix
    never grows here but for [rows] wrapped around to 2^32 - 1, which no matrix has. *)
Definition conservativeResize_rows (m : Matrix) (rows : Z) : exec Matrix :=
  if (rows <=? Z.of_nat (List.length m))%Z
  then Val (firstn (Z.to_nat rows) m)
  else OutOfRange.

(** [delta_x.conservativeResize(size)]: the entries kept, and uninitialised ones where
    the vector grows. *)
Definition conservativeResize (v : list double) (size : Z) : list double :=
  firstn (Z.to_nat size) v ++
  map (past_the_end v) (seq (List.length v) (Z.to_nat size - List.length v)).

Definition removeDimension (jacobian : Matrix) (delta_x : list double) (row_to_remove : nat)
  : exec (Matrix * list double) :=
  (* unsigned int num_rows = jacobian.rows() - 1; *)
  let num_rows : Z := ((Z.of_nat (List.length jacobian) - 1) mod 2 ^ 32)%Z in
  '(jacobian, delta_x) <-
    (if (Z.of_nat row_to_remove <? num_rows)%Z
     then
       jacobian <- shift_up jacobian row_to_remove (num_rows - Z.of_nat row_to_remove) ;;
       delta_x <- shift_up delta_x row_to_remove (num_rows - Z.of_nat row_to_remove) ;;
       Val (jacobian, delta_x)
     else Val (jacobian, delta_x)) ;;
  jacobian <- conservativeResize_rows jacobian num_rows ;;
  Val (jacobian, conservativeResize delta_x num_rows).

(** The loop of [removeDriftDimensions], entered with [n = dimension + 1]. *)
Fixpoint removeDriftDimensions_from (drift_dimensions : list bool) (n : nat)
  (matrix : Matrix) (delta_x : list double) : exec (Matrix * list double) :=
  match n with
  | O => Val (matrix, delta_x)
  | S dimension =>
      '(matrix, delta_x) <-
        (if nth dimension drift_dimensions false && Nat.ltb 1 (List.length matrix)
         then removeDimension matrix delta_x dimension
         else Val (matrix, delta_x)) ;;
      removeDriftDimensions_from drift_dimensions dimension matrix delta_x
  end.

Definition removeDriftDimensions (matrix : Matrix) (delta_x : list double) (s : ServoCalcs)
  : exec (Matrix * list double) :=
  removeDriftDimensions_from (drift_dimensions_ s) (List.length matrix) matrix delta_x.

Definition enforceControlDimensions (command : TwistStamped.t) (s : ServoCalcs)
  : TwistStamped.t :=
  let keep (k : nat) (v : double) : double :=
    if negb (nth k (control_dimensions_ s) false) then 0 else v in
  let l := Twist.linear (TwistStamped.twist command) in
  let a := Twist.angular (TwistStamped.twist command) in
  {| TwistStamped.header := TwistStamped.header command;
     TwistStamped.twist :=
       {| Twist.linear :=
            {| Vector3.x := keep 0%nat (Vector3.x l); Vector3.y := keep 1%nat (Vector3.y l);
               Vector3.z := keep 2%nat (Vector3.z l) |};
          Twist.angular :=
            {| Vector3.x := keep 3%nat (Vector3.x a); Vector3.y := keep 4%nat (Vector3.y a);
               Vector3.z := keep 5%nat (Vector3.z a) |} |} |}.

(** The transform of the command into the planning frame (lines 539-576). *)
Definition transformToPlanningFrame (cmd : TwistStamped.t) (s : ServoCalcs) : TwistStamped.t :=
  let frame := Header.frame_id (TwistStamped.header cmd) in
  if negb (String.eqb frame (planning_frame parameters_)) then
    let l := Twist.linear (TwistStamped.twist cmd) in
    let a := Twist.angular (TwistStamped.twist cmd) in
    let translation_vector := [Vector3.x l; Vector3.y l; Vector3.z l] in
    let angular_vector := [Vector3.x a; Vector3.y a; Vector3.z a] in
    let tf :=
      if String.eqb frame EmptyString || String.eqb frame (robot_link_command_frame_ s)
      then tf_moveit_to_robot_cmd_frame_ s
      else if String.eqb frame (ee_frame_name parameters_)
      then tf_moveit_to_ee_frame_ s
      else frameTransform (current_state_ s) (planning_frame parameters_) frame in
    let translation_vector := mat_vec (linear tf) translation_vector in
    let angular_vector := mat_vec (linear tf) angular_vector in
    {| TwistStamped.header :=
         {| Header.stamp := Header.stamp (TwistStamped.header cmd);
            Header.frame_id := planning_frame parameters_ |};
       TwistStamped.twist :=
         {| Twist.linear :=
              {| Vector3.x := nth 0 translation_vector 0;
                 Vector3.y := nth 1 translation_vector 0;
                 Vector3.z := nth 2 translation_vector 0 |};
            Twist.angular :=
              {| Vector3.x := nth 0 angular_vector 0;
                 Vector3.y := nth 1 angular_vector 0;
                 Vector3.z := nth 2 angular_vector 0 |} |} |}
  else cmd.

(** Perform the servoing calculations.  [cmd] is passed by reference: the command as
    the function leaves it is the second component. *)
Definition cartesianServoCalcs (cmd : TwistStamped.t) (joint_trajectory : JointTrajectory.t)
  (s : ServoCalcs) : exec (bool * TwistStamped.t * JointTrajectory.t * ServoCalcs) :=
  (* Check for nan's in the incoming command *)
  if negb (checkValidCommand_TwistStamped cmd) then Val (false, cmd, joint_trajectory, s)
  else
    (* Set uncontrolled dimensions to 0 in command frame *)
    let cmd := enforceControlDimensions cmd s in
    (* Transform the command to the MoveGroup planning frame *)
    let cmd := transformToPlanningFrame cmd s in
    let delta_x := scaleCartesianCommand cmd in
    (* Convert from cartesian commands to joint commands *)
    let jacobian := getJacobian (current_state_ s) in
    '(jacobian, delta_x) <- removeDriftDimensions jacobian delta_x s ;;
    let svd := jacobiSVD jacobian in
    let pseudo_inverse := pseudoInverse svd in
    let delta_theta := mat_vec pseudo_inverse delta_x in
    let '(scale, s) := velocityScalingFactorForSingularity delta_x svd pseudo_inverse s in
    let delta_theta := vec_scale delta_theta scale in
    '(ok, joint_trajectory, s) <-
      internalServoUpdate delta_theta joint_trajectory CARTESIAN_SPACE s ;;
    Val (ok, cmd, joint_trajectory, s).

Definition jointServoCalcs (cmd : JointJog.t) (joint_trajectory : JointTrajectory.t)
  (s : ServoCalcs) : exec (bool * JointTrajectory.t * ServoCalcs) :=
  (* Check for nan's *)
  if negb (checkValidCommand_JointJog cmd) then Val (false, joint_trajectory, s)
  else
    (* Apply user-defined scaling *)
    delta_theta <- scaleJointCommand cmd s ;;
    (* Perform interal servo with the command *)
    internalServoUpdate delta_theta joint_trajectory JOINT_SPACE s.

Definition INT_MAX : Z := 2147483647.

(** The publication at the end of [calculateSingleIteration] (lines 473-510). *)
Definition publishCommand (joint_trajectory : JointTrajectory.t) (s : ServoCalcs)
  : exec ServoCalcs :=
  (* [joint_trajectory->points[0].positions.clear()] and the like: the message has to
     have a first point *)
  let in_first_point (clear : JointTrajectoryPoint.t -> JointTrajectoryPoint.t)
        (joint_trajectory : JointTrajectory.t) : exec JointTrajectory.t :=
    match JointTrajectory.points joint_trajectory with
    | [] => OutOfRange
    | point :: rest =>
        Val (joint_trajectory<|JointTrajectory.points := clear point :: rest|>)
    end in
  (* Clear out position commands if user did not request them *)
  joint_trajectory <-
    (if negb (publish_joint_positions parameters_)
     then in_first_point (fun point => point<|JointTrajectoryPoint.positions := []|>)
            joint_trajectory
     else Val joint_trajectory) ;;
  (* Likewise for velocity and acceleration *)
  joint_trajectory <-
    (if negb (publish_joint_velocities parameters_)
     then in_first_point (fun point => point<|JointTrajectoryPoint.velocities := []|>)
            joint_trajectory
     else Val joint_trajectory) ;;
  joint_trajectory <-
    (if negb (publish_joint_accelerations parameters_)
     then in_first_point (fun point => point<|JointTrajectoryPoint.accelerations := []|>)
            joint_trajectory
     else Val joint_trajectory) ;;
  if String.eqb (command_out_type parameters_) "trajectory_msgs/JointTrajectory"%string
  then
    let joint_trajectory :=
      joint_trajectory<|JointTrajectory.header :=
        {| Header.stamp := Time.zero;
           Header.frame_id :=
             Header.frame_id (JointTrajectory.header joint_trajectory) |}|> in
    let s := s<|last_sent_command_ := joint_trajectory|> in
    Val (publish (TrajectoryMsg joint_trajectory) s)
  else if String.eqb (command_out_type parameters_) "std_msgs/Float64MultiArray"%string
  then
    let joints :=
      match JointTrajectory.points joint_trajectory with
      | point :: _ =>
          if publish_joint_positions parameters_
          then JointTrajectoryPoint.positions point
          else if publish_joint_velocities parameters_
          then JointTrajectoryPoint.velocities point
          else []
      | [] => []
      end in
    let s := s<|last_sent_command_ := joint_trajectory|> in
    Val (publish (MultiArrayMsg joints) s)
  else Val s.

(** One cycle of the servo loop.  [now] is the node clock and [monitor] the state the
    planning scene monitor reports during the cycle. *)
Definition calculateSingleIteration (now : Time.t) (monitor : RobotState) (s : ServoCalcs)
  : exec ServoCalcs :=
  (* Publish status each loop iteration *)
  let s := publish (StatusMsg (status_ s)) s in
  (* After we publish, status, reset it back to no warnings *)
  let s := s<|status_ := NO_WARNING|> in
  let s := updateJoints monitor s in
  (* Update from latest state *)
  let s := s<|current_state_ := monitor|> in
  let s :=
    match latest_twist_stamped_ s with
    | Some m => s<|twist_stamped_cmd_ := m|>
    | None => s
    end in
  let s :=
    match latest_joint_cmd_ s with
    | Some m => s<|joint_servo_cmd_ := m|>
    | None => s
    end in
  (* Check for stale cmds *)
  let s :=
    s<|twist_command_is_stale_ :=
         timedOut now (latest_twist_command_stamp_ s) (incoming_command_timeout parameters_)|> in
  let s :=
    s<|joint_command_is_stale_ :=
         timedOut now (latest_joint_command_stamp_ s) (incoming_command_timeout parameters_)|> in
  let s := s<|have_nonzero_twist_stamped_ := latest_twist_cmd_is_nonzero_ s|> in
  let s := s<|have_nonzero_joint_command_ := latest_joint_cmd_is_nonzero_ s|> in
  let s :=
    s<|tf_moveit_to_robot_cmd_frame_ :=
         frameTransform (current_state_ s) (planning_frame parameters_)
           (robot_link_command_frame_ s)|> in
  let s :=
    s<|tf_moveit_to_ee_frame_ :=
         frameTransform (current_state_ s) (planning_frame parameters_)
           (ee_frame_name parameters_)|> in
  let s :=
    s<|have_nonzero_command_ :=
         have_nonzero_twist_stamped_ s || have_nonzero_joint_command_ s|> in
  (* Don't end this function without updating the filters *)
  let s := s<|updated_filters_ := false|> in
  if wait_for_servo_commands_ s || paused_ s then
    let s := resetLowPassFilters (original_joint_state_ s) s in
    (* Check if there are any new commands with valid timestamp *)
    let s :=
      s<|wait_for_servo_commands_ :=
           Time.eqb (Header.stamp (TwistStamped.header (twist_stamped_cmd_ s))) Time.zero &&
           Time.eqb (Header.stamp (JointJog.header (joint_servo_cmd_ s))) Time.zero|> in
    (* Early exit *)
    Val s
  else
    let joint_trajectory := JointTrajectory.default in
    (* Prioritize cartesian servoing above joint servoing.
       Only run commands if not stale and nonzero *)
    '(ok, joint_trajectory, s) <-
      (if have_nonzero_twist_stamped_ s && negb (twist_command_is_stale_ s) then
         '(ok, cmd, joint_trajectory, s) <-
           cartesianServoCalcs (twist_stamped_cmd_ s) joint_trajectory s ;;
         Val (ok, joint_trajectory, s<|twist_stamped_cmd_ := cmd|>)
       else if have_nonzero_joint_command_ s && negb (joint_command_is_stale_ s) then
         jointServoCalcs (joint_servo_cmd_ s) joint_trajectory s
       else
         (* Joint trajectory is not populated with anything, so set it to the last
            positions and 0 velocity *)
         let last := last_sent_command_ s in
         Val (true,
              last<|JointTrajectory.points :=
                      map (fun point =>
                             point<|JointTrajectoryPoint.velocities :=
                                      map (fun _ => 0)
                                        (JointTrajectoryPoint.velocities point)|>)
                          (JointTrajectory.points last)|>,
              s)) ;;
    if negb ok then Val (resetLowPassFilters (original_joint_state_ s) s)
    else
      '(joint_trajectory, s) <-
        (if twist_command_is_stale_ s && joint_command_is_stale_ s
         then filteredHalt joint_trajectory s
         else Val (joint_trajectory, s<|done_stopping_ := false|>)) ;;
      (* Skip the servoing publication if all inputs have been zero for several cycles in
         a row; skip it if both types of commands are stale. *)
      let s :=
        if negb (have_nonzero_command_ s) && done_stopping_ s &&
           negb (Z.eqb (num_outgoing_halt_msgs_to_publish parameters_) 0) &&
           Z.ltb (num_outgoing_halt_msgs_to_publish parameters_) (zero_velocity_count_ s)
        then s<|ok_to_publish_ := false|>
        else if twist_command_is_stale_ s && joint_command_is_stale_ s
        then s<|ok_to_publish_ := false|>
        else s<|ok_to_publish_ := true|> in
      (* Store last zero-velocity message flag to prevent superfluous warnings. *)
      let s :=
        if negb (have_nonzero_command_ s) && done_stopping_ s then
          if Z.ltb (zero_velocity_count_ s) INT_MAX
          then s<|zero_velocity_count_ := (zero_velocity_count_ s + 1)%Z|>
          else s
        else s<|zero_velocity_count_ := 0%Z|> in
      s <-
        (if ok_to_publish_ s && negb (paused_ s)
         then publishCommand joint_trajectory s
         else Val s) ;;
      (* Update the filters if we haven't yet *)
      if negb (updated_filters_ s)
      then Val (resetLowPassFilters (original_joint_state_ s) s)
      else Val s.

(** *** The phases of a cycle

    [calculateSingleIteration] in four parts, which it is the sequence of. *)

(** Lines 334-372: the status is published, the joints and the latest commands are
    read, staleness and the nonzero flags are computed. *)
Definition beginIteration (now : Time.t) (monitor : RobotState) (s : ServoCalcs)
  : ServoCalcs :=
  let s := publish (StatusMsg (status_ s)) s in
  let s := s<|status_ := NO_WARNING|> in
  let s := updateJoints monitor s in
  let s := s<|current_state_ := monitor|> in
  let s :=
    match latest_twist_stamped_ s with
    | Some m => s<|twist_stamped_cmd_ := m|>
    | None => s
    end in
  let s :=
    match latest_joint_cmd_ s with
    | Some m => s<|joint_servo_cmd_ := m|>
    | None => s
    end in
  let s :=
    s<|twist_command_is_stale_ :=
         timedOut now (latest_twist_command_stamp_ s) (incoming_command_timeout parameters_)|> in
  let s :=
    s<|joint_command_is_stale_ :=
         timedOut now (latest_joint_command_stamp_ s) (incoming_command_timeout parameters_)|> in
  let s := s<|have_nonzero_twist_stamped_ := latest_twist_cmd_is_nonzero_ s|> in
  let s := s<|have_nonzero_joint_command_ := latest_joint_cmd_is_nonzero_ s|> in
  let s :=
    s<|tf_moveit_to_robot_cmd_frame_ :=
         frameTransform (current_state_ s) (planning_frame parameters_)
           (robot_link_command_frame_ s)|> in
  let s :=
    s<|tf_moveit_to_ee_frame_ :=
         frameTransform (current_state_ s) (planning_frame parameters_)
           (ee_frame_name parameters_)|> in
  let s :=
    s<|have_nonzero_command_ :=
         have_nonzero_twist_stamped_ s || have_nonzero_joint_command_ s|> in
  s<|updated_filters_ := false|>.

(** Lines 376-386: the early exit of a node that waits or is paused. *)
Definition keepWaiting (s : ServoCalcs) : ServoCalcs :=
  let s := resetLowPassFilters (original_joint_state_ s) s in
  s<|wait_for_servo_commands_ :=
       Time.eqb (Header.stamp (TwistStamped.header (twist_stamped_cmd_ s))) Time.zero &&
       Time.eqb (Header.stamp (JointJog.header (joint_servo_cmd_ s))) Time.zero|>.

(** Lines 391-421: the servo calculations for the command that is nonzero and not
    stale, the twist first; the last command sent, with zero velocities, when there is
    none. *)
Definition commandIteration (s : ServoCalcs)
  : exec (bool * JointTrajectory.t * ServoCalcs) :=
  let joint_trajectory := JointTrajectory.default in
  if have_nonzero_twist_stamped_ s && negb (twist_command_is_stale_ s) then
    '(ok, cmd, joint_trajectory, s) <-
      cartesianServoCalcs (twist_stamped_cmd_ s) joint_trajectory s ;;
    Val (ok, joint_trajectory, s<|twist_stamped_cmd_ := cmd|>)
  else if have_nonzero_joint_command_ s && negb (joint_command_is_stale_ s) then
    jointServoCalcs (joint_servo_cmd_ s) joint_trajectory s
  else
    let last := last_sent_command_ s in
    Val (true,
         last<|JointTrajectory.points :=
                 map (fun point =>
                        point<|JointTrajectoryPoint.velocities :=
                                 map (fun _ => 0)
                                   (JointTrajectoryPoint.velocities point)|>)
                     (JointTrajectory.points last)|>,
         s).

(** Lines 423-431: the halt when both commands are stale. *)
Definition haltIfStale (joint_trajectory : JointTrajectory.t) (s : ServoCalcs)
  : exec (JointTrajectory.t * ServoCalcs) :=
  if twist_command_is_stale_ s && joint_command_is_stale_ s
  then filteredHalt joint_trajectory s
  else Val (joint_trajectory, s<|done_stopping_ := false|>).

(** Lines 433-514: whether to publish, the count of cycles without command, the
    publication and the filters. *)
Definition endIteration (joint_trajectory : JointTrajectory.t) (s : ServoCalcs)
  : exec ServoCalcs :=
  let s :=
    if negb (have_nonzero_command_ s) && done_stopping_ s &&
       negb (Z.eqb (num_outgoing_halt_msgs_to_publish parameters_) 0) &&
       Z.ltb (num_outgoing_halt_msgs_to_publish parameters_) (zero_velocity_count_ s)
    then s<|ok_to_publish_ := false|>
    else if twist_command_is_stale_ s && joint_command_is_stale_ s
    then s<|ok_to_publish_ := false|>
    else s<|ok_to_publish_ := true|> in
  let s :=
    if negb (have_nonzero_command_ s) && done_stopping_ s then
      if Z.ltb (zero_velocity_count_ s) INT_MAX
      then s<|zero_velocity_count_ := (zero_velocity_count_ s + 1)%Z|>
      else s
    else s<|zero_velocity_count_ := 0%Z|> in
  s <-
    (if ok_to_publish_ s && negb (paused_ s)
     then publishCommand joint_trajectory s
     else Val s) ;;
  if negb (updated_filters_ s)
  then Val (resetLowPassFilters (original_joint_state_ s) s)
  else Val s.

(** *** Callbacks and services *)

Definition twistStampedCB (msg : TwistStamped.t) (s : ServoCalcs) : ServoCalcs :=
  let s := s<|latest_twist_stamped_ := Some msg|> in
  let s := s<|latest_twist_cmd_is_nonzero_ := isNonZero_TwistStamped msg|> in
  let s :=
    if negb (Time.eqb (Header.stamp (TwistStamped.header msg)) Time.zero)
    then s<|latest_twist_command_stamp_ := Header.stamp (TwistStamped.header msg)|>
    else s in
  (* notify that we have a new input *)
  s<|new_input_cmd_ := true|>.

Definition jointCmdCB (msg : JointJog.t) (s : ServoCalcs) : ServoCalcs :=
  let s := s<|latest_joint_cmd_ := Some msg|> in
  let s := s<|latest_joint_cmd_is_nonzero_ := isNonZero_JointJog msg|> in
  let s :=
    if negb (Time.eqb (Header.stamp (JointJog.header msg)) Time.zero)
    then s<|latest_joint_command_stamp_ := Header.stamp (JointJog.header msg)|>
    else s in
  (* notify that we have a new input *)
  s<|new_input_cmd_ := true|>.


Definition changeDriftDimensions (req : list bool) (s : ServoCalcs) : ServoCalcs :=
  s<|drift_dimensions_ := map (fun k => nth k req false) (seq 0 6)|>.

Definition changeControlDimensions (req : list bool) (s : ServoCalcs) : ServoCalcs :=
  s<|control_dimensions_ := map (fun k => nth k req false) (seq 0 6)|>.

Definition resetServoStatus (s : ServoCalcs) : ServoCalcs :=
  s<|status_ := NO_WARNING|>.

Definition setPaused (paused : bool) (s : ServoCalcs) : ServoCalcs :=
  s<|paused_ := paused|>.

(** *** The node as a transition system

    What happens to a running node: a command arrives on one of the two topics, or the
    loop thread runs a cycle. *)
Inductive Event :=
| TwistCommand (msg : TwistStamped.t)
| JointCommand (msg : JointJog.t)
| Cycle (now : Time.t) (monitor : RobotState).

Definition handle (e : Event) (s : ServoCalcs) : exec ServoCalcs :=
  match e with
  | TwistCommand msg => Val (twistStampedCB msg s)
  | JointCommand msg => Val (jointCmdCB msg s)
  | Cycle now monitor => calculateSingleIteration now monitor s
  end.

Fixpoint run (events : list Event) (s : ServoCalcs) : exec ServoCalcs :=
  match events with
  | [] => Val s
  | e :: rest => s <- handle e s ;; run rest s
  end.

(** No command of the event carries a header stamp other than 0. *)
Definition unstamped (e : Event) : bool :=
  match e with
  | TwistCommand msg => Time.eqb (Header.stamp (TwistStamped.header msg)) Time.zero
  | JointCommand msg => Time.eqb (Header.stamp (JointJog.header msg)) Time.zero
  | Cycle _ _ => true
  end.

(** The node waits for its first command and has seen no header stamp other than 0. *)
Definition waiting_unstamped (s : ServoCalcs) : Prop :=
  wait_for_servo_commands_ s = true /\
  Header.stamp (TwistStamped.header (twist_stamped_cmd_ s)) = Time.zero /\
  Header.stamp (JointJog.header (joint_servo_cmd_ s)) = Time.zero /\
  (forall msg, latest_twist_stamped_ s = Some msg ->
               Header.stamp (TwistStamped.header msg) = Time.zero) /\
  (forall msg, latest_joint_cmd_ s = Some msg ->
               Header.stamp (JointJog.header msg) = Time.zero).

(** The velocity of joint [i] that takes it from [original] to [positions] in one
    publish period. *)
Definition velocity_from (positions original : list double) (i : nat) : double :=
  (nth i positions 0 - nth i original 0) / publish_period parameters_.

(** The joint's angle and pending velocity in [joint_state], found by its name. *)
Definition joint_angle_of (joint_state : JointState.t) (joint : JointModel) : double :=
  nth (find_index (JointState.name joint_state) (getName joint))
      (JointState.position joint_state) 0.

Definition joint_velocity_of (joint_state : JointState.t) (joint : JointModel) : double :=
  nth (find_index (JointState.name joint_state) (getName joint))
      (JointState.velocity joint_state) 0.

(** Within the margin of the lower bound and moving down, or within the margin of the
    upper bound and moving up. *)
Definition leaving_bounds (limits : JointLimits) (joint_angle v : double) : bool :=
  ((v <? 0) && (joint_angle <? min_position limits + joint_limit_margin parameters_)) ||
  ((0 <? v) && (max_position limits - joint_limit_margin parameters_ <? joint_angle)).

(** What [enforcePositionLimits] asks of a joint: outside its bounds narrowed by the
    margin, limits defined, and leaving. *)
Definition halt_candidate (joint_state : JointState.t) (joint : JointModel) : bool :=
  negb (satisfiesPositionBounds joint (joint_angle_of joint_state joint)
          (- joint_limit_margin parameters_)) &&
  match getVariableBoundsMsg joint with
  | [] => false
  | limits :: _ =>
      leaving_bounds limits (joint_angle_of joint_state joint)
        (joint_velocity_of joint_state joint)
  end.

(** The joint state names every active joint once and has a position and a velocity
    for every name, as [internal_joint_state_] does. *)
Definition names_the_group (joint_state : JointState.t) : Prop :=
  NoDup (JointState.name joint_state) /\
  List.length (JointState.position joint_state) = List.length (JointState.name joint_state) /\
  List.length (JointState.velocity joint_state) = List.length (JointState.name joint_state) /\
  forall joint, In joint joint_model_group_ -> In (getName joint) (JointState.name joint_state).

(** The joint's own bounds check is the check of an interval, the one its limits
    message describes. *)
Definition checks_its_limits (joint : JointModel) (limits : JointLimits) : Prop :=
  getVariableBoundsMsg joint = [limits] /\
  forall value,
    satisfiesPositionBounds joint value (- joint_limit_margin parameters_) =
    negb ((value <? min_position limits + joint_limit_margin parameters_) ||
          (max_position limits - joint_limit_margin parameters_ <? value)).

End ServoCalcs.

(** The elements of [l] at the places [keep] marks, in their order. *)
Fixpoint select {A : Type} (keep : list bool) (l : list A) : list A :=
  match keep, l with
  | k :: keep, a :: l => if k then a :: select keep l else select keep l
  | _, _ => []
  end.

(** The number of places [keep] marks. *)
Definition count_kept (keep : list bool) : nat := List.length (filter (fun k => k) keep).

End Servo.


(** * Concrete inputs *)

(** The state a run ends in; [s] when it does not end. *)
Definition end_of {St : Type} (r : exec St) (s : St) : St :=
  match r with
  | Val s' => s'
  | _ => s
  end.

Module RuckigExamples.

Import RuckigSmoothing.

(** A group of one revolute joint without velocity or acceleration bounds. *)
Definition one_joint : JointModelGroup :=
  {| getVariableCount := 1;
     getVariableIndexList := [0%nat];
     getVariableBounds :=
       [ {| velocity_bounded_ := false; max_velocity_ := 0;
            acceleration_bounded_ := false; max_acceleration_ := 0 |} ] |}.

(** A state of that robot: position and velocity of the joint. *)
Definition waypoint (p v : double) : RobotState :=
  {| position := [p]; velocity := [v]; acceleration := [0] |}.

(** The distance of two states of the one-joint robot. *)
Definition distance1 (a b : RobotState) : double :=
  abs (nth 0 (position a) 0 - nth 0 (position b) 0).

(** No joint crosses a wrap-around: unwinding changes nothing. *)
Definition unwind_id (t : RobotTrajectory) : RobotTrajectory := t.

Fixpoint nat_to_double (n : nat) : double :=
  match n with
  | O => 0
  | S k => nat_to_double k + 1
  end.

Definition average_duration (t : RobotTrajectory) : double :=
  match waypoints t with
  | [] => 0
  | _ :: _ =>
      fold_left (fun acc '(_, d) => acc + d) (waypoints t) 0
      / nat_to_double (List.length (waypoints t))
  end.

(** A generator without memory that, in one step, covers half of the remaining way in
    position and in velocity. *)
Definition halfway (a b : list double) : list double :=
  map (fun '(p, q) => (p + q) / 2) (combine a b).

Definition update_halfway (_ : unit) (inp : InputParameter) (_ : OutputParameter)
  : unit * Result * OutputParameter :=
  (tt, Working,
   {| new_position := halfway (current_position inp) (target_position inp);
      new_velocity := halfway (current_velocity inp) (target_velocity inp);
      new_acceleration := current_acceleration inp |}).

(** Three waypoints, the first two at the same position: 0, 0, 1 rad, one second apart. *)
Definition repeated_start : RobotTrajectory :=
  {| getGroup := Some one_joint;
     waypoints := [(waypoint 0 0, 0); (waypoint 0 0, 1); (waypoint 1 0, 1)] |}.

(** The generator at rest at 0 rad, driven to the waypoint 1 rad with 1 rad/s. *)
Definition at_rest : InputParameter :=
  {| current_position := [0]; current_velocity := [0]; current_acceleration := [0];
     target_position := [1]; target_velocity := [1]; target_acceleration := [0];
     max_velocity := [5]; max_acceleration := [10]; max_jerk := [20] |}.

Definition lagging_start : LoopVars (Ruckig := unit) :=
  {| ruckig := tt; ruckig_input := at_rest;
     ruckig_output := OutputParameter_new 1;
     velocity_magnitude := DBL_MAX; backward_motion_detected := true;
     ruckig_result := Working;
     output_trajectory := {| getGroup := Some one_joint; waypoints := [(waypoint 0 0, 0)] |} |}.

(** A generator that reaches its target in one step. *)
Definition update_arrive (_ : unit) (inp : InputParameter) (_ : OutputParameter)
  : unit * Result * OutputParameter :=
  (tt, Finished,
   {| new_position := target_position inp;
      new_velocity := target_velocity inp;
      new_acceleration := target_acceleration inp |}).

(** From 0 rad to 1 rad in a second, passing the goal at 1 rad/s. *)
Definition two_points : RobotTrajectory :=
  {| getGroup := Some one_joint;
     waypoints := [(waypoint 0 0, 0); (waypoint 1 1, 1)] |}.

(** Two waypoints 1.5 ms and 0.4 ms after their predecessors: 0.95 ms on average. *)
Definition brisk_start : RobotTrajectory :=
  {| getGroup := Some one_joint;
     waypoints := [(waypoint 0 0, 0.0015); (waypoint 1 1, 0.0004)] |}.

(** A trajectory of one waypoint. *)
Definition single : RobotTrajectory :=
  {| getGroup := Some one_joint; waypoints := [(waypoint 0 0, 0)] |}.

(** One radian in a tenth of a millisecond. *)
Definition too_quick : RobotTrajectory :=
  {| getGroup := Some one_joint;
     waypoints := [(waypoint 0 0, 0); (waypoint 1 0, 0.0001)] |}.

End RuckigExamples.

Module ServoExamples.

Import Servo.
Import RecordSetters.TriangleBracketNotations.

(** *** A six-axis machine with a constant, diagonal Jacobian *)

(** A first-order low-pass filter as the smoothing plugin: its state is its last
    output, and it answers with the mean of that and the new positions. *)
Definition lowpass_doSmoothing (last : list double) (positions : list double)
  : list double * list double :=
  let filtered := map (fun '(l, p) => (l + p) / 2) (combine last positions) in
  (filtered, filtered).

Definition lowpass_reset (_ : list double) (positions : list double) : list double :=
  positions.

(** A plugin that does not filter at all. *)
Definition passthrough_doSmoothing (u : unit) (positions : list double)
  : unit * list double := (u, positions).

Definition passthrough_reset (u : unit) (_ : list double) : unit := u.

(** The monitored robot state: the positions and the velocities of the joints. *)
Definition Robot : Type := list double * list double.
Definition robot_positions (r : Robot) : list double := fst r.
Definition robot_velocities (r : Robot) : list double := snd r.
Definition robot_set_positions (r : Robot) (p : list double) : Robot := (p, snd r).

Definition diagonal (d : list double) : Matrix :=
  map (fun i => map (fun j => if Nat.eqb i j then nth i d 0 else 0)
                    (seq 0 (List.length d)))
      (seq 0 (List.length d)).

(** The Jacobian is diag(100, 50, 40, 30, 20, 1) in every configuration. *)
Definition gantry_jacobian (_ : Robot) : Matrix := diagonal [100; 50; 40; 30; 20; 1].

(** The decomposition of a diagonal matrix with positive, descending entries. *)
Definition diagonal_svd (m : Matrix) : JacobiSVD :=
  let n := List.length m in
  {| matrixU := diagonal (repeat 1 n);
     singularValues := map (fun i => nth i (nth i m []) 0) (seq 0 n);
     matrixV := diagonal (repeat 1 n) |}.

Definition diagonal_pseudo_inverse (svd : JacobiSVD) : Matrix :=
  diagonal (map (fun sigma => 1 / sigma) (singularValues svd)).

(** All frames are aligned with the planning frame. *)
Definition aligned (_ : Robot) (_ _ : string) : Matrix := diagonal [1; 1; 1].

Definition no_velocity_limits (_ : double) (delta_theta : list double) : list double :=
  delta_theta.

(** A timeout of one second, on whole seconds. *)
Definition one_second (now stamp : Time.t) (_ : double) : bool :=
  Z.leb (Time.sec stamp + 1) (Time.sec now).

Definition parameters : ServoParameters :=
  {| publish_period := 0.01;
     incoming_command_timeout := 1;
     num_outgoing_halt_msgs_to_publish := 4;
     command_in_type := "unitless";
     command_out_type := "trajectory_msgs/JointTrajectory";
     linear_scale := 0.5;
     rotational_scale := 0.5;
     joint_scale := 0.5;
     lower_singularity_threshold := 30;
     hard_stop_singularity_threshold := 100;
     joint_limit_margin := 0.1;
     halt_all_joints_in_joint_mode := false;
     halt_all_joints_in_cartesian_mode := false;
     publish_joint_positions := true;
     publish_joint_velocities := true;
     publish_joint_accelerations := false;
     use_gazebo := false;
     planning_frame := "base";
     ee_frame_name := "tool" |}.

(** The same node, asked not to publish velocities. *)
Definition positions_only : ServoParameters :=
  {| publish_period := 0.01;
     incoming_command_timeout := 1;
     num_outgoing_halt_msgs_to_publish := 4;
     command_in_type := "unitless";
     command_out_type := "trajectory_msgs/JointTrajectory";
     linear_scale := 0.5;
     rotational_scale := 0.5;
     joint_scale := 0.5;
     lower_singularity_threshold := 30;
     hard_stop_singularity_threshold := 100;
     joint_limit_margin := 0.1;
     halt_all_joints_in_joint_mode := false;
     halt_all_joints_in_cartesian_mode := false;
     publish_joint_positions := true;
     publish_joint_velocities := false;
     publish_joint_accelerations := false;
     use_gazebo := false;
     planning_frame := "base";
     ee_frame_name := "tool" |}.

(** A joint with the position bounds [lo, hi], checked as a bounded revolute or
    prismatic joint is. *)
Definition bounded_joint (n : string) (lo hi : double) : JointModel :=
  {| getName := n;
     satisfiesPositionBounds :=
       fun value margin => negb ((value <? lo - margin) || (hi + margin <? value));
     getVariableBoundsMsg := [ {| min_position := lo; max_position := hi |} ] |}.

Definition joint_names : list string :=
  ["joint_1"; "joint_2"; "joint_3"; "joint_4"; "joint_5"; "joint_6"]%string.

Definition six_joints : list JointModel := map (fun n => bounded_joint n (-3) 3) joint_names.

Definition joint_state (positions velocities : list double) : JointState.t :=
  {| JointState.name := joint_names;
     JointState.position := positions;
     JointState.velocity := velocities |}.

(** The node between two cycles: the plugin in the state [smoother], the joints last
    read at [positions], and [internal] as the joint state under calculation.  It waits
    for commands; nothing was received and nothing published. *)
Definition node {Smoother : Type} (smoother : Smoother) (positions : list double)
  (internal : JointState.t)
  : ServoCalcs (Smoother := Smoother) (RobotState := Robot) (Isometry3d := Matrix) :=
  {| status_ := NO_WARNING;
     current_state_ := (positions, zeros 6);
     original_joint_state_ := joint_state positions (zeros 6);
     internal_joint_state_ := internal;
     num_joints_ := 6;
     joint_state_name_map_ := combine joint_names (seq 0 6);
     smoother_ := smoother;
     updated_filters_ := false;
     delta_theta_ := [];
     collision_velocity_scale_ := 1;
     drift_dimensions_ := [false; false; false; false; false; false];
     control_dimensions_ := [true; true; true; true; true; true];
     tf_moveit_to_ee_frame_ := diagonal [1; 1; 1];
     tf_moveit_to_robot_cmd_frame_ := diagonal [1; 1; 1];
     robot_link_command_frame_ := "base";
     latest_twist_stamped_ := None;
     latest_joint_cmd_ := None;
     latest_twist_command_stamp_ := Time.zero;
     latest_joint_command_stamp_ := Time.zero;
     latest_twist_cmd_is_nonzero_ := false;
     latest_joint_cmd_is_nonzero_ := false;
     new_input_cmd_ := false;
     twist_stamped_cmd_ := TwistStamped.default;
     joint_servo_cmd_ := JointJog.default;
     twist_command_is_stale_ := false;
     joint_command_is_stale_ := false;
     have_nonzero_twist_stamped_ := false;
     have_nonzero_joint_command_ := false;
     have_nonzero_command_ := false;
     wait_for_servo_commands_ := true;
     paused_ := false;
     done_stopping_ := false;
     ok_to_publish_ := false;
     zero_velocity_count_ := 0;
     last_sent_command_ :=
       {| JointTrajectory.header :=
            {| Header.stamp := Time.zero; Header.frame_id := "base" |};
          JointTrajectory.joint_names := joint_names;
          JointTrajectory.points :=
            [ {| JointTrajectoryPoint.positions := positions;
                 JointTrajectoryPoint.velocities := zeros 6;
                 JointTrajectoryPoint.accelerations := [];
                 JointTrajectoryPoint.time_from_start := 0.01 |} ] |};
     gazebo_redundant_message_count_ := 30;
     published := [] |}.

(** The node after [start()]. *)
Definition started {Smoother : Type} (smoother : Smoother) (positions : list double)
  : ServoCalcs (Smoother := Smoother) (RobotState := Robot) (Isometry3d := Matrix) :=
  node smoother positions (joint_state positions (zeros 6)).

Definition at_time (seconds : Z) : Time.t := {| Time.sec := seconds; Time.nanosec := 0 |}.

Definition twist_command (stamp : Time.t) (lx ly lz ax ay az : double) : TwistStamped.t :=
  {| TwistStamped.header := {| Header.stamp := stamp; Header.frame_id := "base" |};
     TwistStamped.twist :=
       {| Twist.linear := {| Vector3.x := lx; Vector3.y := ly; Vector3.z := lz |};
          Twist.angular := {| Vector3.x := ax; Vector3.y := ay; Vector3.z := az |} |} |}.

Definition jog_command (stamp : Time.t) (joints : list string) (velocities : list double)
  : JointJog.t :=
  {| JointJog.header := {| Header.stamp := stamp; Header.frame_id := "base" |};
     JointJog.joint_names := joints;
     JointJog.displacements := [];
     JointJog.velocities := velocities;
     JointJog.duration := 0 |}.

(** The memory past the end of a vector holds a quarter, wherever it is read. *)
Definition stray (_ : list double) (_ : nat) : double := 0.25.

(** The six-axis machine with the plugin that does not filter. *)
Definition gantry_run :=
  run passthrough_doSmoothing passthrough_reset robot_positions robot_velocities
    robot_set_positions gantry_jacobian (fun m : Matrix => m) aligned diagonal_svd
    diagonal_pseudo_inverse no_velocity_limits one_second parameters six_joints stray.

(** One cycle of that machine. *)
Definition gantry_cycle :=
  calculateSingleIteration passthrough_doSmoothing passthrough_reset robot_positions
    robot_velocities robot_set_positions gantry_jacobian (fun m : Matrix => m) aligned
    diagonal_svd diagonal_pseudo_inverse no_velocity_limits one_second parameters
    six_joints stray.

Definition gantry_svd : JacobiSVD := diagonal_svd (gantry_jacobian (zeros 6, zeros 6)).

Definition home : Robot := (zeros 6, zeros 6).

(** The position delta of the command "turn about z at full speed backwards":
    rotational_scale * publish_period * (-1). *)
Definition turn_back : list double := [0; 0; 0; 0; 0; 0.5 * 0.01 * (-1)].



(** Commands have gone stale while joint_2, at 1 rad, is still ahead of the low-pass
    plugin's last output 0. *)
Definition stale_moving
  : ServoCalcs (Smoother := list double) (RobotState := Robot) (Isometry3d := Matrix) :=
  started [0; 0; 0; 0; 0; 0] [0; 1; 0; 0; 0; 0].

(** Commands have gone stale and the plugin's output has reached the joints. *)
Definition stale_settled
  : ServoCalcs (Smoother := list double) (RobotState := Robot) (Isometry3d := Matrix) :=
  started [0; 1; 0; 0; 0; 0] [0; 1; 0; 0; 0; 0].

(** After the position update joint_1 is 0.05 rad above its lower bound and moves down
    with 1 rad/s, joint_2 is 0.05 rad below its upper bound and moves down as well. *)
Definition near_limits
  : ServoCalcs (Smoother := unit) (RobotState := Robot) (Isometry3d := Matrix) :=
  node tt [-2.94; 2.96; 0; 0; 0; 0]
    (joint_state [-2.95; 2.95; 0; 0; 0; 0] [-1; -1; 0; 0; 0; 0]).

(** Drift is allowed along x and about z. *)
Definition drifting
  : ServoCalcs (Smoother := unit) (RobotState := Robot) (Isometry3d := Matrix) :=
  changeDriftDimensions [true; false; false; false; false; true] (started tt (zeros 6)).

(** The node after its first command, a jog of joint_2 stamped at 5 s, and the cycle
    that notices it: it waits no longer. *)
Definition jogging
  : ServoCalcs (Smoother := unit) (RobotState := Robot) (Isometry3d := Matrix) :=
  end_of (gantry_run [JointCommand (jog_command (at_time 5) ["joint_2"%string] [1]);
                      Cycle (at_time 5) home] (started tt (zeros 6)))
         (started tt (zeros 6)).

(** Positions and accelerations are published, velocities are not. *)
Definition without_velocities : ServoParameters :=
  positions_only<|publish_joint_accelerations := true|>.

(** In Cartesian mode every joint is halted when one reaches its limit. *)
Definition halting_all : ServoParameters :=
  parameters<|halt_all_joints_in_cartesian_mode := true|>.

(** A jog that names two joints and has one velocity. *)
Definition short_jog : JointJog.t :=
  jog_command (at_time 5) ["joint_1"%string; "joint_2"%string] [1].

(** A twist with a component out of the range of unitless commands. *)
Definition too_fast : TwistStamped.t := twist_command (at_time 5) 2 0 0 0 0 0.

End ServoExamples.

Module RuckigCases.

Import RuckigSmoothing.

(** Two joints: the second target velocity is zero, the second joint moves backwards. *)
Definition two_joints (targets : list double) : InputParameter :=
  with_target_velocity (InputParameter_new 2) targets.

Definition stepped (velocities : list double) : OutputParameter :=
  {| new_position := zeros 2; new_velocity := velocities; new_acceleration := zeros 2 |}.

End RuckigCases.

(** * Facts about binary64 arithmetic *)

Module DoubleFacts.

Lemma SFcompare_antisym (x y : spec_float) :
  SFcompare y x = option_map CompOpp (SFcompare x y).
Proof.
  destruct x as [sx|sx| |sx mx ex], y as [sy|sy| |sy my ey]; simpl; try reflexivity;
    try (destruct sx; reflexivity); try (destruct sy; reflexivity);
    try (destruct sx, sy; reflexivity).
  destruct sx, sy; simpl; try reflexivity.
  - rewrite (Z.compare_antisym ey ex).
    destruct (ey ?= ex)%Z; simpl; try reflexivity.
    rewrite (Pos.compare_cont_antisym mx my Eq). reflexivity.
  - rewrite (Z.compare_antisym ey ex).
    destruct (ey ?= ex)%Z; simpl; try reflexivity.
    rewrite (Pos.compare_cont_antisym mx my Eq). simpl.
    destruct (Pos.compare_cont Eq mx my); reflexivity.
Qed.

Lemma ltb_antisym (x y : double) : (x <? y) = true -> (y <? x) = false.
Proof.
  rewrite !FloatAxioms.ltb_spec. unfold SFltb. rewrite (SFcompare_antisym (Prim2SF x) (Prim2SF y)).
  destruct (SFcompare (Prim2SF x) (Prim2SF y)) as [[| |]|]; simpl; congruence.
Qed.

Lemma eqb_not_ltb (x y : double) :
  (x =? y) = true -> (x <? y) = false /\ (y <? x) = false.
Proof.
  rewrite FloatAxioms.eqb_spec, !FloatAxioms.ltb_spec. unfold SFeqb, SFltb.
  rewrite (SFcompare_antisym (Prim2SF x) (Prim2SF y)).
  destruct (SFcompare (Prim2SF x) (Prim2SF y)) as [[| |]|]; simpl; intuition congruence.
Qed.

Lemma leb_not_gtb (x y : double) : (x <=? y) = true -> (y <? x) = false.
Proof.
  rewrite FloatAxioms.leb_spec, FloatAxioms.ltb_spec. unfold SFleb, SFltb.
  rewrite (SFcompare_antisym (Prim2SF x) (Prim2SF y)).
  destruct (SFcompare (Prim2SF x) (Prim2SF y)) as [[| |]|]; simpl; congruence.
Qed.

Lemma eqb_zero_inv (x : double) :
  (x =? 0) = true -> exists s, Prim2SF x = S754_zero s.
Proof.
  rewrite FloatAxioms.eqb_spec. unfold SFeqb.
  replace (Prim2SF 0) with (S754_zero false) by (vm_compute; reflexivity).
  destruct (Prim2SF x) as [s|s| |s m e]; simpl; try discriminate.
  - eauto.
  - destruct s; discriminate.
  - destruct s; discriminate.
Qed.

Lemma is_nan_spec (x : double) : is_nan x = true <-> Prim2SF x = S754_nan.
Proof.
  unfold is_nan. rewrite FloatAxioms.eqb_spec. unfold SFeqb.
  destruct (Prim2SF x) as [s|s| |s m e]; simpl.
  - split; discriminate.
  - destruct s; split; discriminate.
  - split; reflexivity.
  - destruct s; rewrite Z.compare_refl, Pos.compare_cont_refl; simpl; split; discriminate.
Qed.

Lemma is_infinity_spec (x : double) :
  is_infinity x = true <-> exists s, Prim2SF x = S754_infinity s.
Proof.
  unfold is_infinity. rewrite FloatAxioms.eqb_spec, FloatAxioms.abs_spec. unfold SFeqb.
  replace (Prim2SF infinity) with (S754_infinity false) by (vm_compute; reflexivity).
  destruct (Prim2SF x) as [s|s| |s m e]; simpl.
  - split; [discriminate | intros [? ?]; discriminate].
  - split; eauto.
  - split; [discriminate | intros [? ?]; discriminate].
  - split; [discriminate | intros [? ?]; discriminate].
Qed.

(** Dividing by a zero gives NaN (0/0, NaN/0) or an infinity. *)
Lemma div_by_zero (n t : double) :
  (t =? 0) = true -> is_nan (n / t) || is_infinity (n / t) = true.
Proof.
  intros H. destruct (eqb_zero_inv _ H) as [s Hs].
  apply orb_true_iff.
  pose proof (FloatAxioms.div_spec n t) as D. rewrite Hs in D. unfold SF64div in D.
  destruct (Prim2SF n) as [sn|sn| |sn mn en]; simpl in D.
  - left. apply is_nan_spec. exact D.
  - right. apply is_infinity_spec. eauto.
  - left. apply is_nan_spec. exact D.
  - right. apply is_infinity_spec. eauto.
Qed.

(** A quotient by a zero is below 1 exactly when it is minus infinity. *)
Lemma div_by_zero_ltb (n t : double) :
  (t =? 0) = true -> (n / t <? 1) = (n / t =? neg_infinity).
Proof.
  intros H. destruct (eqb_zero_inv _ H) as [s Hs].
  rewrite FloatAxioms.ltb_spec, FloatAxioms.eqb_spec.
  pose proof (FloatAxioms.div_spec n t) as D. rewrite Hs in D. unfold SF64div in D.
  replace (Prim2SF 1) with (S754_finite false 4503599627370496 (-52))
    by (vm_compute; reflexivity).
  replace (Prim2SF neg_infinity) with (S754_infinity true) by (vm_compute; reflexivity).
  destruct (Prim2SF n) as [sn|sn| |sn mn en]; simpl in D; rewrite D;
    try reflexivity; destruct (xorb _ _); reflexivity.
Qed.









End DoubleFacts.

(** * Facts about [exec], [.at] and the loops *)

Module ExecFacts.

Lemma at_Val {A : Type} (v : list A) (i : nat) (a : A) :
  at_ v i = Val a <-> nth_error v i = Some a.
Proof.
  unfold at_. destruct (nth_error v i); split; intros H; inversion H; reflexivity.
Qed.

Lemma at_in_range {A : Type} (v : list A) (i : nat) :
  (i < List.length v)%nat -> exists a, at_ v i = Val a /\ nth_error v i = Some a.
Proof.
  intros H. unfold at_. destruct (nth_error v i) as [a|] eqn:E.
  - eauto.
  - apply nth_error_None in E. lia.
Qed.

Lemma set_at_Val {A : Type} (v : list A) (i : nat) (a : A) (v' : list A) :
  set_at v i a = Val v' <-> (i < List.length v)%nat /\ v' = replace_nth v i a.
Proof.
  unfold set_at. destruct (Nat.ltb_spec i (List.length v)); split.
  - intros H'; inversion H'; auto.
  - intros [_ ->]; reflexivity.
  - discriminate.
  - intros [? _]; lia.
Qed.

Lemma replace_nth_length {A : Type} (v : list A) :
  forall i a, List.length (replace_nth v i a) = List.length v.
Proof.
  induction v as [|h t IH]; intros [|i] a; simpl; try reflexivity.
  rewrite IH. reflexivity.
Qed.

Lemma nth_error_replace_nth_same {A : Type} (v : list A) :
  forall i a, (i < List.length v)%nat -> nth_error (replace_nth v i a) i = Some a.
Proof.
  induction v as [|h t IH]; intros [|i] a H; simpl in *; try lia; try reflexivity.
  apply IH. lia.
Qed.

Lemma nth_error_replace_nth_other {A : Type} (v : list A) :
  forall i k a, k <> i -> nth_error (replace_nth v i a) k = nth_error v k.
Proof.
  induction v as [|h t IH]; intros [|i] [|k] a H; simpl; try reflexivity; try congruence.
  apply IH. congruence.
Qed.

Lemma bind_Val {A B : Type} (m : exec A) (k : A -> exec B) (b : B) :
  bind m k = Val b -> exists a, m = Val a /\ k a = Val b.
Proof.
  destruct m; simpl; intros H; try discriminate. eauto.
Qed.

(** A loop whose body keeps [P] below its index and establishes it at its index
    establishes [P] for every index it has passed. *)
Lemma for_loop_invariant {St : Type} (body : nat -> St -> exec St)
  (P : nat -> St -> Prop)
  (Hkeep : forall i s s' k, body i s = Val s' -> (k < i)%nat -> P k s -> P k s')
  (Hat : forall i s s', body i s = Val s' -> P i s') :
  forall n i s s',
    for_loop n i body s = Val s' ->
    forall k, (i <= k < i + n)%nat -> P k s'.
Proof.
  assert (Hpres : forall n i s s', for_loop n i body s = Val s' ->
                    forall k, (k < i)%nat -> P k s -> P k s').
  { induction n as [|n IH]; intros i s s' H k Hk Pk; simpl in H.
    - inversion H; subst; exact Pk.
    - apply bind_Val in H. destruct H as (s1 & H1 & H2).
      apply (IH (S i) s1 s' H2 k); [lia|]. apply (Hkeep i s s1 k H1 Hk Pk). }
  induction n as [|n IH]; intros i s s' H k Hk; simpl in H.
  - lia.
  - apply bind_Val in H. destruct H as (s1 & H1 & H2).
    destruct (Nat.eq_dec k i) as [->|Hne].
    + apply (Hpres n (S i) s1 s' H2 i); [lia|]. apply (Hat i s s1 H1).
    + apply (IH (S i) s1 s' H2 k). lia.
Qed.

(** A step relation that holds of every pass of the body holds of the whole loop. *)
Lemma for_loop_rel {St : Type} (body : nat -> St -> exec St) (R : St -> St -> Prop)
  (Hrefl : forall s, R s s)
  (Htrans : forall a b c, R a b -> R b c -> R a c)
  (Hstep : forall i s s', body i s = Val s' -> R s s') :
  forall n i s s', for_loop n i body s = Val s' -> R s s'.
Proof.
  induction n as [|n IH]; intros i s s' H; simpl in H.
  - inversion H; subst. apply Hrefl.
  - apply bind_Val in H. destruct H as (s1 & H1 & H2).
    apply (Htrans s s1 s'); [apply (Hstep i s s1 H1) | apply (IH (S i) s1 s' H2)].
Qed.

(** A loop whose body returns wherever [Inv] holds, and keeps it, returns. *)
Lemma for_loop_returns {St : Type} (body : nat -> St -> exec St) (Inv : St -> Prop)
  (bound : nat)
  (Hbody : forall i s, (i < bound)%nat -> Inv s -> exists s', body i s = Val s' /\ Inv s') :
  forall n i s, (i + n <= bound)%nat -> Inv s ->
    exists s', for_loop n i body s = Val s' /\ Inv s'.
Proof.
  induction n as [|n IH]; intros i s Hb Hs; simpl.
  - eauto.
  - destruct (Hbody i s) as (s1 & E & H1); [lia | exact Hs |].
    rewrite E. simpl. apply IH; [lia | exact H1].
Qed.

(** Splits a hypothesis [x <- m ;; ... = Val r] into the results of its steps. *)
Ltac exec_inv H :=
  repeat (apply bind_Val in H;
          let a := fresh "a" in
          let E := fresh "E" in
          destruct H as (a & E & H); cbv beta in H).

End ExecFacts.

(** * The jerk-limited smoother *)

Module RuckigFacts.

Import RuckigSmoothing DoubleFacts ExecFacts.

Lemma checkForLaggingMotion_from_spec (n : nat) :
  forall joint inp out,
    (joint + n <= List.length (new_velocity out))%nat ->
    (joint + n <= List.length (target_velocity inp))%nat ->
    exists b,
      checkForLaggingMotion_from n joint inp out = Val b /\
      (b = true <->
       exists k nv tv,
         (joint <= k < joint + n)%nat /\
         nth_error (new_velocity out) k = Some nv /\
         nth_error (target_velocity inp) k = Some tv /\
         (nv / tv <? 1) = true).
Proof.
  induction n as [|n IH]; intros joint inp out Hn Ht; simpl.
  - exists false. split; [reflexivity|].
    split; [discriminate | intros (k & _ & _ & Hk & _); lia].
  - destruct (at_in_range (new_velocity out) joint) as (nv & Hnv & Env); [lia|].
    destruct (at_in_range (target_velocity inp) joint) as (tv & Htv & Etv); [lia|].
    rewrite Hnv, Htv. simpl.
    destruct (nv / tv <? 1) eqn:R.
    + exists true. split; [reflexivity|]. split; [intros _ | reflexivity].
      exists joint, nv, tv. repeat split; try assumption; lia.
    + destruct (IH (S joint) inp out) as (b & Hb & Hiff); [lia | lia |].
      exists b. split; [exact Hb|]. rewrite Hiff. split.
      * intros (k & a & c & Hk & Ha & Hc & Hr). exists k, a, c.
        repeat split; try assumption; lia.
      * intros (k & a & c & Hk & Ha & Hc & Hr).
        assert (k <> joint) as Hne.
        { intros ->. rewrite Env in Ha. rewrite Etv in Hc.
          inversion Ha; inversion Hc; subst. congruence. }
        exists k, a, c. repeat split; try assumption; lia.
Qed.

(** C10.  [checkForLaggingMotion] divides each joint's new velocity by its target
    velocity without a guard, in binary64.  Given a new and a target velocity for each of
    the [num_dof] joints it returns, whatever the target velocities are, and it returns
    [true] exactly when some joint's quotient new_velocity / target_velocity is below 1.
    A joint whose target velocity is exactly zero is tested like the others: its quotient
    is NaN or an infinity, it is below 1 exactly when it is minus infinity, and then the
    function returns [true]. *)
Theorem checkForLaggingMotion_unguarded_division
  (num_dof : nat) (inp : InputParameter) (out : OutputParameter)
  (Hout : (num_dof <= List.length (new_velocity out))%nat)
  (Hinp : (num_dof <= List.length (target_velocity inp))%nat) :
  exists b,
    checkForLaggingMotion num_dof inp out = Val b /\
    (b = true <->
     exists joint nv tv,
       (joint < num_dof)%nat /\
       nth_error (new_velocity out) joint = Some nv /\
       nth_error (target_velocity inp) joint = Some tv /\
       (nv / tv <? 1) = true) /\
    forall joint nv tv,
      (joint < num_dof)%nat ->
      nth_error (new_velocity out) joint = Some nv ->
      nth_error (target_velocity inp) joint = Some tv ->
      (tv =? 0) = true ->
      is_nan (nv / tv) || is_infinity (nv / tv) = true /\
      (nv / tv <? 1) = (nv / tv =? neg_infinity) /\
      ((nv / tv =? neg_infinity) = true -> b = true).
Proof.
  unfold checkForLaggingMotion.
  destruct (checkForLaggingMotion_from_spec num_dof 0 inp out) as (b & Hb & Hiff);
    [simpl; lia | simpl; lia |].
  assert (b = true <->
          exists joint nv tv,
            (joint < num_dof)%nat /\
            nth_error (new_velocity out) joint = Some nv /\
            nth_error (target_velocity inp) joint = Some tv /\
            (nv / tv <? 1) = true) as Hiff'.
  { rewrite Hiff. split; intros (k & a & c & Hk & H); exists k, a, c;
      (split; [lia | exact H]). }
  exists b. split; [exact Hb|]. split; [exact Hiff'|].
  intros joint nv tv Hj Hnv Htv Hz.
  split; [apply div_by_zero; exact Hz|].
  split; [apply div_by_zero_ltb; exact Hz|].
  intros Hm. apply Hiff'. exists joint, nv, tv.
  rewrite (div_by_zero_ltb _ _ Hz). auto.
Qed.

(** The loop that decreases the target velocity, from the joint [joint] on. *)
Lemma decreaseTargetVelocity_from (out : OutputParameter) (n : nat) :
  forall joint inp,
    (joint + n <= List.length (target_velocity inp))%nat ->
    (joint + n <= List.length (target_acceleration inp))%nat ->
    (joint + n <= List.length (new_velocity out))%nat ->
    exists inp',
      for_loop n joint
        (fun joint inp =>
           tv <- at_ (target_velocity inp) joint ;;
           tvs <- set_at (target_velocity inp) joint (tv * 0.9) ;;
           let inp := with_target_velocity inp tvs in
           tv <- at_ (target_velocity inp) joint ;;
           nv <- at_ (new_velocity out) joint ;;
           tas <- set_at (target_acceleration inp) joint
                    ((tv - nv) / DEFAULT_RUCKIG_TIMESTEP) ;;
           Val (with_target_acceleration inp tas))
        inp = Val inp' /\
      target_position inp' = target_position inp /\
      List.length (target_velocity inp') = List.length (target_velocity inp) /\
      List.length (target_acceleration inp') = List.length (target_acceleration inp) /\
      (forall k tv nv,
         (joint <= k < joint + n)%nat ->
         nth_error (target_velocity inp) k = Some tv ->
         nth_error (new_velocity out) k = Some nv ->
         nth_error (target_velocity inp') k = Some (tv * 0.9) /\
         nth_error (target_acceleration inp') k
         = Some ((tv * 0.9 - nv) / DEFAULT_RUCKIG_TIMESTEP)) /\
      (forall k,
         ~ (joint <= k < joint + n)%nat ->
         nth_error (target_velocity inp') k = nth_error (target_velocity inp) k /\
         nth_error (target_acceleration inp') k = nth_error (target_acceleration inp) k).
Proof.
  induction n as [|n IH]; intros joint inp Hv Ha Hn.
  - exists inp. cbn [for_loop].
    split; [reflexivity|]. split; [reflexivity|]. split; [reflexivity|].
    split; [reflexivity|]. split; [intros k tv nv Hk; lia | intros k _; split; reflexivity].
  - cbn [for_loop].
    destruct (at_in_range (target_velocity inp) joint) as (tv0 & Etv & Ntv); [lia|].
    destruct (at_in_range (new_velocity out) joint) as (nv0 & Env & Nnv); [lia|].
    rewrite Etv. cbn [bind]. unfold set_at.
    replace (Nat.ltb joint (List.length (target_velocity inp))) with true
      by (symmetry; apply Nat.ltb_lt; lia).
    cbn [bind with_target_velocity target_velocity target_acceleration].
    unfold at_ at 1. rewrite nth_error_replace_nth_same by lia. cbn [bind].
    rewrite Env. cbn [bind].
    replace (Nat.ltb joint (List.length (target_acceleration inp))) with true
      by (symmetry; apply Nat.ltb_lt; lia).
    cbn [bind].
    match goal with
    | |- context [for_loop n (S joint) _ ?inp1] =>
        destruct (IH (S joint) inp1) as (inp' & E & Hp & Lv & La & Hin & Hout)
    end.
    + cbn. rewrite replace_nth_length. lia.
    + cbn. rewrite replace_nth_length. lia.
    + lia.
    + exists inp'. split; [exact E|].
      cbn in Hp, Lv, La, Hin, Hout. rewrite replace_nth_length in Lv, La.
      split; [exact Hp|]. split; [exact Lv|]. split; [exact La|]. split.
      * intros k tv nv Hk Ek En.
        destruct (Nat.eq_dec k joint) as [->|Hne].
        -- destruct (Hout joint) as [Hv1 Ha1]; [lia|].
           rewrite Hv1, Ha1, !nth_error_replace_nth_same by lia.
           rewrite Ntv in Ek. rewrite Nnv in En.
           inversion Ek; inversion En; subst. split; reflexivity.
        -- apply Hin; [lia | | exact En].
           rewrite nth_error_replace_nth_other by exact Hne. exact Ek.
      * intros k Hk. destruct (Hout k) as [Hv1 Ha1]; [lia|].
        rewrite Hv1, Ha1, !nth_error_replace_nth_other by lia. split; reflexivity.
Qed.

(** When backward motion is detected, every joint's target velocity is multiplied by
    0.9 and its target acceleration becomes (target velocity - new velocity) / timestep;
    the target position is not changed. *)
Lemma decreaseTargetVelocity_spec (num_dof : nat) (inp : InputParameter)
  (out : OutputParameter) :
  List.length (target_velocity inp) = num_dof ->
  List.length (target_acceleration inp) = num_dof ->
  List.length (new_velocity out) = num_dof ->
  exists inp',
    decreaseTargetVelocity num_dof inp out = Val inp' /\
    target_position inp' = target_position inp /\
    forall joint tv nv,
      nth_error (target_velocity inp) joint = Some tv ->
      nth_error (new_velocity out) joint = Some nv ->
      nth_error (target_velocity inp') joint = Some (tv * 0.9) /\
      nth_error (target_acceleration inp') joint
      = Some ((tv * 0.9 - nv) / DEFAULT_RUCKIG_TIMESTEP).
Proof.
  intros Hv Ha Hn. unfold decreaseTargetVelocity.
  destruct (decreaseTargetVelocity_from out num_dof 0 inp) as
    (inp' & E & Hp & _ & _ & Hin & _); [simpl; lia | simpl; lia | simpl; lia |].
  exists inp'. split; [exact E|]. split; [exact Hp|].
  intros joint tv nv Ek En. apply Hin; [|exact Ek | exact En].
  assert (joint < List.length (target_velocity inp))%nat
    by (apply nth_error_Some; congruence).
  lia.
Qed.

(** [getNextRuckigInput] overwrites the target of every joint with the target waypoint's
    velocity and acceleration. *)
Lemma getNextRuckigInput_targets out target num_dof idx inp inp' :
  getNextRuckigInput out target num_dof idx inp = Val inp' ->
  forall joint, (joint < num_dof)%nat ->
    exists i v a,
      nth_error idx joint = Some i /\
      nth_error (velocity target) i = Some v /\
      nth_error (acceleration target) i = Some a /\
      nth_error (target_velocity inp') joint = Some v /\
      nth_error (target_acceleration inp') joint = Some a.
Proof.
  unfold getNextRuckigInput. intros H joint Hj.
  refine (for_loop_invariant _
            (fun k s => exists i v a,
               nth_error idx k = Some i /\
               nth_error (velocity target) i = Some v /\
               nth_error (acceleration target) i = Some a /\
               nth_error (target_velocity s) k = Some v /\
               nth_error (target_acceleration s) k = Some a)
            _ _ num_dof 0%nat inp inp' H joint _); [| | lia].
  - intros i s s' k Hb Hk (j & v & a & Hi & Hv & Ha & Htv & Hta).
    unfold getVariablePosition, getVariableVelocity, getVariableAcceleration in Hb.
    exec_inv Hb. inversion Hb; subst s'; clear Hb. simpl.
    apply set_at_Val in E9. destruct E9 as [_ ->].
    apply set_at_Val in E11. destruct E11 as [_ ->].
    exists j, v, a. repeat split; try assumption.
    + rewrite nth_error_replace_nth_other by lia. exact Htv.
    + rewrite nth_error_replace_nth_other by lia. exact Hta.
  - intros i s s' Hb.
    unfold getVariablePosition, getVariableVelocity, getVariableAcceleration in Hb.
    exec_inv Hb. inversion Hb; subst s'; clear Hb. simpl.
    apply set_at_Val in E9. destruct E9 as [L9 ->].
    apply set_at_Val in E11. destruct E11 as [L11 ->].
    apply at_Val in E5, E8, E10.
    exists a5, a8, a10. repeat split; try assumption.
    + apply nth_error_replace_nth_same. exact L9.
    + apply nth_error_replace_nth_same. exact L11.
Qed.

(** Whatever the generator does, the input of the next pass aims at the target
    waypoint's own velocity and acceleration. *)
Lemma while_body_next_targets {Ruckig : Type}
  (update : Ruckig -> InputParameter -> OutputParameter -> Ruckig * Result * OutputParameter)
  (target : RobotState) (num_dof : nat) (idx : list nat) (s s' : LoopVars) :
  while_body update target num_dof idx s = Val (Next s') ->
  forall joint, (joint < num_dof)%nat ->
    exists i v a,
      nth_error idx joint = Some i /\
      nth_error (velocity target) i = Some v /\
      nth_error (acceleration target) i = Some a /\
      nth_error (target_velocity (ruckig_input s')) joint = Some v /\
      nth_error (target_acceleration (ruckig_input s')) joint = Some a.
Proof.
  unfold while_body. intros H.
  destruct (update (ruckig s) (ruckig_input s) (ruckig_output s)) as [[rk result] out].
  apply bind_Val in H. destruct H as (backward & _ & H).
  apply bind_Val in H. destruct H as ([inp magnitude] & _ & H).
  destruct (magnitude <? MINIMUM_VELOCITY_SEARCH_MAGNITUDE); [discriminate|].
  apply bind_Val in H. destruct H as (otraj & _ & H).
  apply bind_Val in H. destruct H as (inp' & Hnext & H).
  inversion H; subst s'; clear H. simpl.
  exact (getNextRuckigInput_targets _ _ _ _ _ _ Hnext).
Qed.

(** The loop that is to remove repeated waypoints only ever appends to the trajectory. *)
Lemma removeRepeatedWaypoints_appends (distance : RobotState -> RobotState -> double)
  (num_waypoints : nat) (trajectory trajectory' : RobotTrajectory) :
  removeRepeatedWaypoints distance num_waypoints trajectory = Val trajectory' ->
  exists appended, waypoints trajectory' = waypoints trajectory ++ appended.
Proof.
  unfold removeRepeatedWaypoints.
  apply (for_loop_rel _ (fun a b => exists l, waypoints b = waypoints a ++ l)).
  - intros s. exists []. rewrite app_nil_r. reflexivity.
  - intros a b c [l1 H1] [l2 H2]. exists (l1 ++ l2). rewrite H2, H1, app_assoc. reflexivity.
  - intros i s s' H. exec_inv H.
    destruct (checkForIdenticalWaypoints distance a a0); inversion H; subst.
    + exists []. rewrite app_nil_r. reflexivity.
    + simpl. eauto.
Qed.

(** A trajectory of fewer than two waypoints is refused, and left as it is. *)
Lemma applySmoothing_too_few_waypoints {Ruckig : Type} (Ruckig_new : nat -> double -> Ruckig)
  (update : Ruckig -> InputParameter -> OutputParameter -> Ruckig * Result * OutputParameter)
  (distance : RobotState -> RobotState -> double)
  (unwind : RobotTrajectory -> RobotTrajectory)
  (getAverageSegmentDuration : RobotTrajectory -> double)
  (fuel : nat) (trajectory : RobotTrajectory) (vsf asf : double) :
  (getWayPointCount trajectory < 2)%nat ->
  applySmoothing Ruckig_new update distance unwind getAverageSegmentDuration
    fuel trajectory vsf asf = Val (false, trajectory).
Proof.
  intros H. unfold applySmoothing, applySmoothing_prepare.
  destruct (getGroup trajectory); [|reflexivity].
  apply Nat.ltb_lt in H. rewrite H. reflexivity.
Qed.

(** The loop over the waypoints returns on every trajectory that has the waypoints it
    was counted to have, and only appends to it. *)
Lemma removeRepeatedWaypoints_returns (distance : RobotState -> RobotState -> double)
  (num_waypoints : nat) (trajectory : RobotTrajectory) :
  (num_waypoints <= getWayPointCount trajectory)%nat ->
  exists trajectory' appended,
    removeRepeatedWaypoints distance num_waypoints trajectory = Val trajectory' /\
    waypoints trajectory' = waypoints trajectory ++ appended.
Proof.
  intros Hn. unfold removeRepeatedWaypoints.
  destruct (for_loop_returns
              (fun waypoint_idx t =>
                 a <- getWayPoint t waypoint_idx ;;
                 b <- getWayPoint t (waypoint_idx + 1) ;;
                 if checkForIdenticalWaypoints distance a b then Val t
                 else Val (addSuffixWayPoint t a
                             (getWayPointDurationFromPrevious t waypoint_idx)))
              (fun t => exists l, waypoints t = waypoints trajectory ++ l)
              (num_waypoints - 1))
    with (n := (num_waypoints - 1)%nat) (i := 0%nat) (s := trajectory)
    as (t' & E & l & Hl).
  - intros i t Hi [l Hl]. unfold getWayPoint, getWayPointCount in *.
    assert (i + 1 < List.length (waypoints t))%nat as Hlen
      by (rewrite Hl, length_app; lia).
    destruct (at_in_range (waypoints t) i) as ([a da] & Ea & _); [lia|].
    destruct (at_in_range (waypoints t) (i + 1)) as ([b db] & Eb & _); [lia|].
    rewrite Ea. cbn [bind]. rewrite Eb. cbn [bind].
    destruct (checkForIdenticalWaypoints distance a b).
    + eexists. split; [reflexivity|]. exists l. exact Hl.
    + eexists. split; [reflexivity|]. cbn [addSuffixWayPoint waypoints].
      rewrite Hl, <- app_assoc. eexists. reflexivity.
  - lia.
  - exists []. rewrite app_nil_r. reflexivity.
  - exists t', l. split; [exact E | exact Hl].
Qed.

(** A trajectory whose average segment duration, once unwound and run through the loop
    over the waypoints, is below the timestep of 0.001 s is refused. *)
Lemma applySmoothing_timestep_not_short_enough {Ruckig : Type}
  (Ruckig_new : nat -> double -> Ruckig)
  (update : Ruckig -> InputParameter -> OutputParameter -> Ruckig * Result * OutputParameter)
  (distance : RobotState -> RobotState -> double)
  (unwind : RobotTrajectory -> RobotTrajectory)
  (getAverageSegmentDuration : RobotTrajectory -> double)
  (fuel : nat) (trajectory : RobotTrajectory) (vsf asf : double) (group : JointModelGroup) :
  getGroup trajectory = Some group ->
  (2 <= getWayPointCount trajectory)%nat ->
  getWayPointCount (unwind trajectory) = getWayPointCount trajectory ->
  exists trajectory',
    removeRepeatedWaypoints distance (getWayPointCount trajectory) (unwind trajectory)
    = Val trajectory' /\
    ((getAverageSegmentDuration trajectory' <? DEFAULT_RUCKIG_TIMESTEP) = true ->
     applySmoothing Ruckig_new update distance unwind getAverageSegmentDuration
       fuel trajectory vsf asf = Val (false, trajectory')).
Proof.
  intros Hg Hn Hu.
  destruct (removeRepeatedWaypoints_returns distance (getWayPointCount trajectory)
              (unwind trajectory)) as (t' & l & E & Hl); [lia|].
  exists t'. split; [exact E|]. intros Hshort.
  unfold applySmoothing, applySmoothing_prepare. rewrite Hg.
  replace (Nat.ltb (getWayPointCount trajectory) 2) with false
    by (symmetry; apply Nat.ltb_ge; exact Hn).
  rewrite E. cbn [bind].
  assert (2 <= getWayPointCount t')%nat as Hn'.
  { unfold getWayPointCount in *. rewrite Hl, length_app. lia. }
  unfold getWayPoint.
  destruct (at_in_range (waypoints t') 0) as ([first d] & Ef & _);
    [unfold getWayPointCount in Hn'; lia|].
  rewrite Ef. cbn [bind].
  replace (Nat.ltb (getWayPointCount t') 2) with false
    by (symmetry; apply Nat.ltb_ge; exact Hn').
  rewrite Hshort. reflexivity.
Qed.

(** The kinematic limits of a Ruckig input. *)
Lemma decreaseTargetVelocity_limits (num_dof : nat) (inp inp' : InputParameter)
  (out : OutputParameter) :
  decreaseTargetVelocity num_dof inp out = Val inp' ->
  max_velocity inp' = max_velocity inp /\
  max_acceleration inp' = max_acceleration inp /\
  max_jerk inp' = max_jerk inp.
Proof.
  unfold decreaseTargetVelocity.
  apply (for_loop_rel _ (fun a b => max_velocity b = max_velocity a /\
                                    max_acceleration b = max_acceleration a /\
                                    max_jerk b = max_jerk a)).
  - intros s. repeat split; reflexivity.
  - intros a b c (H1 & H2 & H3) (H4 & H5 & H6).
    rewrite H4, H5, H6. repeat split; assumption.
  - intros i s s' H. exec_inv H. inversion H; subst. repeat split; reflexivity.
Qed.

Lemma getNextRuckigInput_limits out target num_dof idx inp inp' :
  getNextRuckigInput out target num_dof idx inp = Val inp' ->
  max_velocity inp' = max_velocity inp /\
  max_acceleration inp' = max_acceleration inp /\
  max_jerk inp' = max_jerk inp.
Proof.
  unfold getNextRuckigInput.
  apply (for_loop_rel _ (fun a b => max_velocity b = max_velocity a /\
                                    max_acceleration b = max_acceleration a /\
                                    max_jerk b = max_jerk a)).
  - intros s. repeat split; reflexivity.
  - intros a b c (H1 & H2 & H3) (H4 & H5 & H6).
    rewrite H4, H5, H6. repeat split; assumption.
  - intros i s s' H. exec_inv H. inversion H; subst. repeat split; reflexivity.
Qed.

(** What one pass of the loop body keeps and appends. *)
Lemma while_body_step {Ruckig : Type}
  (update : Ruckig -> InputParameter -> OutputParameter -> Ruckig * Result * OutputParameter)
  (target : RobotState) (num_dof : nat) (idx : list nat) (s s' : LoopVars) :
  while_body update target num_dof idx s = Val (Next s') ->
  (max_velocity (ruckig_input s') = max_velocity (ruckig_input s) /\
   max_acceleration (ruckig_input s') = max_acceleration (ruckig_input s) /\
   max_jerk (ruckig_input s') = max_jerk (ruckig_input s)) /\
  getGroup (output_trajectory s') = getGroup (output_trajectory s) /\
  (waypoints (output_trajectory s') = waypoints (output_trajectory s) \/
   exists new_waypoint,
     waypoints (output_trajectory s') =
     waypoints (output_trajectory s) ++ [(new_waypoint, DEFAULT_RUCKIG_TIMESTEP)] /\
     backward_motion_detected s' = false).
Proof.
  unfold while_body. intros H.
  destruct (update (ruckig s) (ruckig_input s) (ruckig_output s)) as [[rk result] out].
  apply bind_Val in H. destruct H as (backward & _ & H).
  apply bind_Val in H. destruct H as ([inp magnitude] & Einp & H).
  destruct (magnitude <? MINIMUM_VELOCITY_SEARCH_MAGNITUDE); [discriminate|].
  apply bind_Val in H. destruct H as (otraj & Eo & H).
  apply bind_Val in H. destruct H as (inp' & Hnext & H).
  inversion H; subst s'; clear H. cbn [ruckig_input output_trajectory backward_motion_detected].
  apply getNextRuckigInput_limits in Hnext. destruct Hnext as (L1 & L2 & L3).
  assert (max_velocity inp = max_velocity (ruckig_input s) /\
          max_acceleration inp = max_acceleration (ruckig_input s) /\
          max_jerk inp = max_jerk (ruckig_input s)) as (M1 & M2 & M3).
  { destruct backward.
    - apply bind_Val in Einp. destruct Einp as (inp1 & Ed & Einp).
      apply bind_Val in Einp. destruct Einp as (m & _ & Einp).
      inversion Einp; subst. exact (decreaseTargetVelocity_limits _ _ _ _ Ed).
    - inversion Einp; subst. repeat split; reflexivity. }
  split; [rewrite L1, L2, L3, M1, M2, M3; repeat split; reflexivity|].
  destruct (negb backward && _) eqn:C.
  - apply bind_Val in Eo. destruct Eo as (w & _ & Eo). inversion Eo; subst.
    split; [reflexivity|]. right. exists w. split; [reflexivity|].
    destruct backward; [discriminate C | reflexivity].
  - inversion Eo; subst. split; [reflexivity | left; reflexivity].
Qed.

(** How the [while] loop is left, other than by [return false]. *)
Lemma while_loop_exit {Ruckig : Type}
  (update : Ruckig -> InputParameter -> OutputParameter -> Ruckig * Result * OutputParameter)
  (target : RobotState) (num_dof : nat) (idx : list nat) (fuel : nat) :
  forall s s' : LoopVars,
    while_loop update fuel target num_dof idx s = Val (Next s') ->
    backward_motion_detected s' = false /\
    ruckig_result s' = Finished /\
    max_velocity (ruckig_input s') = max_velocity (ruckig_input s) /\
    max_acceleration (ruckig_input s') = max_acceleration (ruckig_input s) /\
    max_jerk (ruckig_input s') = max_jerk (ruckig_input s) /\
    getGroup (output_trajectory s') = getGroup (output_trajectory s) /\
    exists added,
      waypoints (output_trajectory s') = waypoints (output_trajectory s) ++ added /\
      Forall (fun w => snd w = DEFAULT_RUCKIG_TIMESTEP) added.
Proof.
  induction fuel as [|fuel IH]; intros s s' H; cbn [while_loop] in H.
  - destruct (backward_motion_detected s) eqn:B; [discriminate H|].
    destruct (Result_eqb (ruckig_result s) Finished) eqn:R; [|discriminate H].
    inversion H; subst s'. cbn in *.
    split; [exact B|]. split; [destruct (ruckig_result s); first [reflexivity | discriminate R]|].
    repeat (split; [reflexivity|]). exists []. rewrite app_nil_r. split; constructor.
  - destruct (backward_motion_detected s || negb (Result_eqb (ruckig_result s) Finished)) eqn:C.
    + apply bind_Val in H. destruct H as ([s1|] & E1 & H); [|discriminate H].
      apply while_body_step in E1. destruct E1 as ((L1 & L2 & L3) & G & W).
      apply IH in H. destruct H as (B & R & M1 & M2 & M3 & G' & added & Wa & Fa).
      split; [exact B|]. split; [exact R|].
      rewrite M1, M2, M3, L1, L2, L3, G', G. repeat (split; [reflexivity|]).
      destruct W as [W | (w & W & _)]; rewrite Wa, W.
      * exists added. split; [reflexivity | exact Fa].
      * exists ((w, DEFAULT_RUCKIG_TIMESTEP) :: added).
        rewrite <- app_assoc. split; [reflexivity|]. constructor; [reflexivity | exact Fa].
    + inversion H; subst s'.
      apply orb_false_iff in C. destruct C as [B R].
      apply negb_false_iff in R.
      split; [exact B|]. split; [destruct (ruckig_result s); first [reflexivity | discriminate R]|].
      repeat (split; [reflexivity|]). exists []. rewrite app_nil_r. split; constructor.
Qed.

(** The [while] loop is left, other than by [return false], with no lagging motion in
    its last pass and Ruckig's result [Finished], and the kinematic limits of the Ruckig
    input are those it was entered with. *)
Theorem while_loop_finished {Ruckig : Type}
  (update : Ruckig -> InputParameter -> OutputParameter -> Ruckig * Result * OutputParameter)
  (target : RobotState) (num_dof : nat) (idx : list nat) (fuel : nat) (s s' : LoopVars) :
  while_loop update fuel target num_dof idx s = Val (Next s') ->
  backward_motion_detected s' = false /\
  ruckig_result s' = Finished /\
  max_velocity (ruckig_input s') = max_velocity (ruckig_input s) /\
  max_acceleration (ruckig_input s') = max_acceleration (ruckig_input s) /\
  max_jerk (ruckig_input s') = max_jerk (ruckig_input s).
Proof.
  intros H. apply while_loop_exit in H.
  destruct H as (B & R & M1 & M2 & M3 & _). repeat split; assumption.
Qed.

Lemma waypoint_loop_appends {Ruckig : Type}
  (update : Ruckig -> InputParameter -> OutputParameter -> Ruckig * Result * OutputParameter)
  (fuel : nat) (trajectory : RobotTrajectory) (num_dof : nat) (idx : list nat) (n : nat) :
  forall waypoint_idx rk inp out otraj result,
    waypoint_loop update fuel n waypoint_idx trajectory num_dof idx rk inp out otraj
    = Val (Next result) ->
    getGroup result = getGroup otraj /\
    exists added,
      waypoints result = waypoints otraj ++ added /\
      Forall (fun w => snd w = DEFAULT_RUCKIG_TIMESTEP) added.
Proof.
  induction n as [|n IH]; intros waypoint_idx rk inp out otraj result H;
    cbn [waypoint_loop] in H.
  - inversion H; subst. split; [reflexivity|]. exists []. rewrite app_nil_r.
    split; constructor.
  - apply bind_Val in H. destruct H as (target & _ & H).
    apply bind_Val in H. destruct H as ([s|] & E & H); [|discriminate H].
    apply while_loop_exit in E. cbn [output_trajectory] in E.
    destruct E as (_ & _ & _ & _ & _ & G & added & W & F).
    apply IH in H. destruct H as (G' & added' & W' & F').
    split; [rewrite G', G; reflexivity|].
    exists (added ++ added'). rewrite W', W, app_assoc. split; [reflexivity|].
    apply Forall_app. split; assumption.
Qed.

Lemma removeRepeatedWaypoints_group (distance : RobotState -> RobotState -> double)
  (num_waypoints : nat) (trajectory trajectory' : RobotTrajectory) :
  removeRepeatedWaypoints distance num_waypoints trajectory = Val trajectory' ->
  getGroup trajectory' = getGroup trajectory /\
  exists appended, waypoints trajectory' = waypoints trajectory ++ appended.
Proof.
  unfold removeRepeatedWaypoints.
  apply (for_loop_rel _ (fun a b => getGroup b = getGroup a /\
                                    exists l, waypoints b = waypoints a ++ l)).
  - intros s. split; [reflexivity|]. exists []. rewrite app_nil_r. reflexivity.
  - intros a b c [G1 [l1 H1]] [G2 [l2 H2]]. split; [rewrite G2; exact G1|].
    exists (l1 ++ l2). rewrite H2, H1, app_assoc. reflexivity.
  - intros i s s' H. exec_inv H.
    destruct (checkForIdenticalWaypoints distance a a0); inversion H; subst.
    + split; [reflexivity|]. exists []. rewrite app_nil_r. reflexivity.
    + split; [reflexivity|]. cbn. eauto.
Qed.

(** A smoothing that succeeds replaces the trajectory: the result begins with the first
    waypoint of the unwound input, at duration 0, and every waypoint after it is one
    timestep of 0.001 s after its predecessor; the group is the input's. *)
Theorem applySmoothing_success {Ruckig : Type} (Ruckig_new : nat -> double -> Ruckig)
  (update : Ruckig -> InputParameter -> OutputParameter -> Ruckig * Result * OutputParameter)
  (distance : RobotState -> RobotState -> double)
  (unwind : RobotTrajectory -> RobotTrajectory)
  (getAverageSegmentDuration : RobotTrajectory -> double)
  (fuel : nat) (trajectory result : RobotTrajectory) (vsf asf : double) :
  applySmoothing Ruckig_new update distance unwind getAverageSegmentDuration
    fuel trajectory vsf asf = Val (true, result) ->
  exists first duration others added,
    waypoints (unwind trajectory) = (first, duration) :: others /\
    waypoints result = (first, 0) :: added /\
    Forall (fun w => snd w = DEFAULT_RUCKIG_TIMESTEP) added /\
    getGroup result = getGroup (unwind trajectory) /\
    getGroup trajectory <> None /\
    (2 <= getWayPointCount trajectory)%nat.
Proof.
  unfold applySmoothing. intros H.
  apply bind_Val in H. destruct H as ([t [p|]] & Ep & H); [|discriminate H].
  apply bind_Val in H. destruct H as ([out|] & El & H); [|discriminate H].
  inversion H; subst out; clear H.
  unfold applySmoothing_prepare in Ep.
  destruct (getGroup trajectory) as [group|] eqn:G; [|discriminate Ep].
  destruct (Nat.ltb_spec (getWayPointCount trajectory) 2) as [|Hn]; [discriminate Ep|].
  apply bind_Val in Ep. destruct Ep as (t1 & Er & Ep).
  apply bind_Val in Ep. destruct Ep as (first & Ef & Ep).
  destruct (Nat.ltb (getWayPointCount t1) 2); [discriminate Ep|].
  destruct (getAverageSegmentDuration t1 <? DEFAULT_RUCKIG_TIMESTEP); [discriminate Ep|].
  apply bind_Val in Ep. destruct Ep as ([inp0 out0] & _ & Ep).
  apply bind_Val in Ep. destruct Ep as (inp1 & _ & Ep).
  inversion Ep; subst t p; clear Ep.
  cbn [p_num_waypoints p_trajectory p_num_dof p_idx p_ruckig p_input p_output
       p_output_trajectory] in El.
  apply waypoint_loop_appends in El. cbn [getGroup waypoints addPrefixWayPoint clear] in El.
  destruct El as (Gr & added & W & F).
  destruct (removeRepeatedWaypoints_group _ _ _ _ Er) as [Gt [appended Wt]].
  unfold getWayPoint in Ef. apply bind_Val in Ef. destruct Ef as ([f d] & Ea & Ef).
  inversion Ef; subst f; clear Ef. apply at_Val in Ea.
  destruct (waypoints (unwind trajectory)) as [|[f0 d0] others] eqn:Wu.
  - (* the loop would have read waypoint 0 of an empty trajectory *)
    exfalso. unfold removeRepeatedWaypoints in Er.
    destruct (getWayPointCount trajectory - 1)%nat as [|k] eqn:K; [lia|].
    cbn [for_loop] in Er. unfold getWayPoint at 1, at_ at 1 in Er. rewrite Wu in Er.
    discriminate Er.
  - rewrite Wt in Ea. cbn in Ea. inversion Ea; subst f0 d0.
    exists first, d, others, added.
    split; [reflexivity|]. split; [exact W|]. split; [exact F|].
    split; [rewrite Gr, Gt; reflexivity|]. split; [discriminate | exact Hn].
Qed.

(** After a pass of the loop body that goes on, the state Ruckig starts its next step
    from is the state it has just put out. *)
Theorem while_body_feeds_output_back {Ruckig : Type}
  (update : Ruckig -> InputParameter -> OutputParameter -> Ruckig * Result * OutputParameter)
  (target : RobotState) (num_dof : nat) (idx : list nat) (s s' : LoopVars) :
  while_body update target num_dof idx s = Val (Next s') ->
  ruckig_output s' = snd (update (ruckig s) (ruckig_input s) (ruckig_output s)) /\
  forall joint, (joint < num_dof)%nat ->
    exists p v a,
      nth_error (new_position (ruckig_output s')) joint = Some p /\
      nth_error (new_velocity (ruckig_output s')) joint = Some v /\
      nth_error (new_acceleration (ruckig_output s')) joint = Some a /\
      nth_error (current_position (ruckig_input s')) joint = Some p /\
      nth_error (current_velocity (ruckig_input s')) joint = Some v /\
      nth_error (current_acceleration (ruckig_input s')) joint = Some a.
Proof.
  unfold while_body. intros H.
  destruct (update (ruckig s) (ruckig_input s) (ruckig_output s)) as [[rk result] out].
  apply bind_Val in H. destruct H as (backward & _ & H).
  apply bind_Val in H. destruct H as ([inp magnitude] & _ & H).
  destruct (magnitude <? MINIMUM_VELOCITY_SEARCH_MAGNITUDE); [discriminate|].
  apply bind_Val in H. destruct H as (otraj & _ & H).
  apply bind_Val in H. destruct H as (inp' & Hnext & H).
  inversion H; subst s'; clear H. cbn [ruckig_output ruckig_input snd].
  split; [reflexivity|]. intros joint Hj.
  unfold getNextRuckigInput in Hnext.
  refine (for_loop_invariant _
            (fun k i => exists p v a,
               nth_error (new_position out) k = Some p /\
               nth_error (new_velocity out) k = Some v /\
               nth_error (new_acceleration out) k = Some a /\
               nth_error (current_position i) k = Some p /\
               nth_error (current_velocity i) k = Some v /\
               nth_error (current_acceleration i) k = Some a)
            _ _ num_dof 0%nat inp inp' Hnext joint _); [| | lia].
  - intros i a b k Hb Hk (p & v & c & Hp & Hv & Hc & Cp & Cv & Cc).
    unfold getVariablePosition, getVariableVelocity, getVariableAcceleration in Hb.
    exec_inv Hb. inversion Hb; subst b; clear Hb. cbn.
    apply set_at_Val in E0, E2, E4. destruct E0 as [_ ->], E2 as [_ ->], E4 as [_ ->].
    exists p, v, c. rewrite !nth_error_replace_nth_other by lia. repeat split; assumption.
  - intros i a b Hb.
    unfold getVariablePosition, getVariableVelocity, getVariableAcceleration in Hb.
    exec_inv Hb. inversion Hb; subst b; clear Hb. cbn.
    apply set_at_Val in E0, E2, E4.
    destruct E0 as [L0 ->], E2 as [L2 ->], E4 as [L4 ->].
    apply at_Val in E, E1, E3.
    exists a0, a2, a4. rewrite !nth_error_replace_nth_same by assumption.
    repeat split; assumption.
Qed.

(** The kinematic limits handed to Ruckig: the jerk limit is the default for every
    joint, the velocity and acceleration limits are the joint's own bounds, or the
    defaults where it has none, times the scaling factors.  The current and the target
    state of the input are not touched. *)
Theorem setKinematicLimits_spec (group : JointModelGroup) (num_dof : nat)
  (vsf asf : double) (inp : InputParameter) :
  (num_dof <= List.length (getVariableBounds group))%nat ->
  (num_dof <= List.length (max_velocity inp))%nat ->
  (num_dof <= List.length (max_acceleration inp))%nat ->
  (num_dof <= List.length (max_jerk inp))%nat ->
  exists inp',
    setKinematicLimits group num_dof vsf asf inp = Val inp' /\
    current_position inp' = current_position inp /\
    current_velocity inp' = current_velocity inp /\
    current_acceleration inp' = current_acceleration inp /\
    target_position inp' = target_position inp /\
    target_velocity inp' = target_velocity inp /\
    target_acceleration inp' = target_acceleration inp /\
    forall i bounds,
      (i < num_dof)%nat ->
      nth_error (getVariableBounds group) i = Some bounds ->
      nth_error (max_jerk inp') i = Some DEFAULT_MAX_JERK /\
      nth_error (max_velocity inp') i =
        Some (vsf * (if velocity_bounded_ bounds
                     then max_velocity_ bounds else DEFAULT_MAX_VELOCITY)) /\
      nth_error (max_acceleration inp') i =
        Some (asf * (if acceleration_bounded_ bounds
                     then max_acceleration_ bounds else DEFAULT_MAX_ACCELERATION)).
Proof.
  intros Hb Hv Ha Hj. unfold setKinematicLimits.
  match goal with
  | |- context [for_loop num_dof 0 ?body inp] => set (body_ := body)
  end.
  destruct (for_loop_returns body_
              (fun s => (num_dof <= List.length (max_velocity s))%nat /\
                        (num_dof <= List.length (max_acceleration s))%nat /\
                        (num_dof <= List.length (max_jerk s))%nat)
              num_dof) with (n := num_dof) (i := 0%nat) (s := inp)
    as (inp' & E & _).
  - intros i s Hi (Lv & La & Lj). unfold body_, set_at.
    replace (Nat.ltb i (List.length (max_jerk s))) with true
      by (symmetry; apply Nat.ltb_lt; lia).
    cbn [bind].
    destruct (at_in_range (getVariableBounds group) i) as (b & Eb & _); [lia|].
    rewrite Eb. cbn [bind].
    replace (Nat.ltb i (List.length (max_velocity s))) with true
      by (symmetry; apply Nat.ltb_lt; lia).
    cbn [bind].
    replace (Nat.ltb i (List.length (max_acceleration s))) with true
      by (symmetry; apply Nat.ltb_lt; lia).
    cbn [bind]. eexists. split; [reflexivity|]. cbn.
    rewrite !replace_nth_length. repeat split; assumption.
  - lia.
  - repeat split; assumption.
  - exists inp'. split; [exact E|].
    assert (current_position inp' = current_position inp /\
            current_velocity inp' = current_velocity inp /\
            current_acceleration inp' = current_acceleration inp /\
            target_position inp' = target_position inp /\
            target_velocity inp' = target_velocity inp /\
            target_acceleration inp' = target_acceleration inp) as F.
    { revert E.
      apply (for_loop_rel body_
               (fun a b => current_position b = current_position a /\
                           current_velocity b = current_velocity a /\
                           current_acceleration b = current_acceleration a /\
                           target_position b = target_position a /\
                           target_velocity b = target_velocity a /\
                           target_acceleration b = target_acceleration a)).
      - intros s. repeat split; reflexivity.
      - intros a b c (A1 & A2 & A3 & A4 & A5 & A6) (B1 & B2 & B3 & B4 & B5 & B6).
        rewrite B1, B2, B3, B4, B5, B6. repeat split; assumption.
      - intros i s s' H. unfold body_ in H. exec_inv H. inversion H; subst.
        repeat split; reflexivity. }
    destruct F as (F1 & F2 & F3 & F4 & F5 & F6).
    repeat (split; [assumption|]).
    intros i bounds Hi Hbounds.
    refine (for_loop_invariant body_
              (fun k s => forall b, nth_error (getVariableBounds group) k = Some b ->
                 nth_error (max_jerk s) k = Some DEFAULT_MAX_JERK /\
                 nth_error (max_velocity s) k =
                   Some (vsf * (if velocity_bounded_ b
                                then max_velocity_ b else DEFAULT_MAX_VELOCITY)) /\
                 nth_error (max_acceleration s) k =
                   Some (asf * (if acceleration_bounded_ b
                                then max_acceleration_ b else DEFAULT_MAX_ACCELERATION)))
              _ _ num_dof 0%nat inp inp' E i _ bounds Hbounds); [| | lia].
    + intros k s s' j H Hk P b Hbj. specialize (P b Hbj). destruct P as (P1 & P2 & P3).
      unfold body_ in H. exec_inv H. inversion H; subst s'; clear H. cbn.
      apply set_at_Val in E0, E2, E3. destruct E0 as [_ ->], E2 as [_ ->], E3 as [_ ->].
      rewrite !nth_error_replace_nth_other by lia. repeat split; assumption.
    + intros k s s' H b Hbk.
      unfold body_ in H. exec_inv H. inversion H; subst s'; clear H. cbn.
      apply set_at_Val in E0, E2, E3.
      destruct E0 as [L0 ->], E2 as [L2 ->], E3 as [L3 ->].
      apply at_Val in E1. rewrite Hbk in E1. inversion E1; subst a0.
      rewrite !nth_error_replace_nth_same by assumption.
      destruct (velocity_bounded_ b), (acceleration_bounded_ b); repeat split; reflexivity.
Qed.



(** C4.  The generator at rest, aimed at a waypoint with 1 rad/s, makes half of the way
    in its first step: the step lags and the target velocity is decreased to 0.9, which is
    what the magnitude 0.9 is computed from.  The pass does not fail and the loop
    goes on, but the input of the retried step aims at 1 rad/s and at the waypoint's
    acceleration 0 again: the decreased velocity and the recomputed acceleration
    (0.9 - 0.5) / 0.001 are gone. *)
Theorem applySmoothing_retry_forgets_decreased_target :
  exists s',
    while_body RuckigExamples.update_halfway (RuckigExamples.waypoint 1 1) 1 [0%nat]
      RuckigExamples.lagging_start = Val (Next s') /\
    checkForLaggingMotion 1 RuckigExamples.at_rest (ruckig_output s') = Val true /\
    backward_motion_detected s' = true /\
    velocity_magnitude s' = sqrt (1 * 0.9 * (1 * 0.9)) /\
    target_velocity (ruckig_input s') = [1] /\
    target_acceleration (ruckig_input s') = [0] /\
    (1 =? 1 * 0.9) = false /\
    (0 =? (1 * 0.9 - 0.5) / DEFAULT_RUCKIG_TIMESTEP) = false.
Proof.
  eexists. split; [vm_compute; reflexivity|].
  repeat split; vm_compute; reflexivity.
Qed.

(** C5.  Of the waypoints 0, 0, 1 rad the first two are at distance 0 <= 1e-3, yet the
    trajectory the waypoint loop is run on is 0, 0, 1, 0: the repeated waypoint is still
    there, next to its twin, and a copy of the second waypoint has been appended. *)
Theorem applySmoothing_repeated_waypoints_not_removed :
  exists t p,
    applySmoothing_prepare (fun _ _ => tt) RuckigExamples.distance1
      RuckigExamples.unwind_id RuckigExamples.average_duration
      RuckigExamples.repeated_start 1 1 = Val (t, Next p) /\
    map fst (waypoints (p_trajectory p)) =
      [RuckigExamples.waypoint 0 0; RuckigExamples.waypoint 0 0;
       RuckigExamples.waypoint 1 0; RuckigExamples.waypoint 0 0] /\
    p_num_waypoints p = 4%nat /\
    checkForIdenticalWaypoints RuckigExamples.distance1
      (RuckigExamples.waypoint 0 0) (RuckigExamples.waypoint 0 0) = true.
Proof.
  eexists. eexists. split; [vm_compute; reflexivity|].
  repeat split; vm_compute; reflexivity.
Qed.

End RuckigFacts.


(** * The servo calculations *)

Module ServoFacts.

Import Servo DoubleFacts ExecFacts.
Import RecordSetters.TriangleBracketNotations.

Section Singularity.

Context {Smoother RobotState Isometry3d : Type}.
Variable copyJointGroupPositions : RobotState -> list double.
Variable setJointGroupPositions : RobotState -> list double -> RobotState.
Variable getJacobian : RobotState -> Matrix.
Variable jacobiSVD : Matrix -> JacobiSVD.
Variable parameters_ : ServoParameters.

Variable commanded_velocity : list double.
Variable svd : JacobiSVD.
Variable pseudo_inverse : Matrix.
Variable s : ServoCalcs (Smoother := Smoother) (RobotState := RobotState)
                        (Isometry3d := Isometry3d).

(** The direction toward the singularity, the condition number and the state after the
    look-ahead. *)
Variable toward : list double.
Variable kappa : double.
Variable s1 : ServoCalcs (Smoother := Smoother) (RobotState := RobotState)
                         (Isometry3d := Isometry3d).
Hypothesis look_ahead :
  vectorTowardSingularity copyJointGroupPositions setJointGroupPositions getJacobian
    jacobiSVD commanded_velocity svd pseudo_inverse s = (toward, kappa, s1).

Let scaling :=
  velocityScalingFactorForSingularity copyJointGroupPositions setJointGroupPositions
    getJacobian jacobiSVD parameters_ commanded_velocity svd pseudo_inverse s.

(** Moving away from the singularity: no deceleration. *)
Lemma velocity_scale_moving_away :
  (0 <? dot toward commanded_velocity) = false -> scaling = (1, s1).
Proof.
  intros H. unfold scaling, velocityScalingFactorForSingularity.
  rewrite look_ahead, H. reflexivity.
Qed.

(** Moving toward it with a condition number at or below the lower threshold, the
    thresholds being in order: no deceleration. *)
Lemma velocity_scale_below_lower :
  (0 <? dot toward commanded_velocity) = true ->
  (kappa <=? lower_singularity_threshold parameters_) = true ->
  (kappa <=? hard_stop_singularity_threshold parameters_) = true ->
  scaling = (1, s1).
Proof.
  intros Hd Hl Hh. unfold scaling, velocityScalingFactorForSingularity.
  rewrite look_ahead, Hd, (leb_not_gtb _ _ Hl), (leb_not_gtb _ _ Hh). reflexivity.
Qed.

(** Between the thresholds: the linear ramp, and DECELERATE_FOR_SINGULARITY. *)
Lemma velocity_scale_ramp :
  (0 <? dot toward commanded_velocity) = true ->
  (lower_singularity_threshold parameters_ <? kappa) = true ->
  (kappa <? hard_stop_singularity_threshold parameters_) = true ->
  scaling =
    (1 - (kappa - lower_singularity_threshold parameters_) /
         (hard_stop_singularity_threshold parameters_ -
          lower_singularity_threshold parameters_),
     s1<|status_ := DECELERATE_FOR_SINGULARITY|>).
Proof.
  intros Hd Hl Hh. unfold scaling, velocityScalingFactorForSingularity.
  rewrite look_ahead, Hd, Hl, Hh. reflexivity.
Qed.

(** Above the hard-stop threshold: halt, and HALT_FOR_SINGULARITY. *)
Lemma velocity_scale_above_hard_stop :
  (0 <? dot toward commanded_velocity) = true ->
  (hard_stop_singularity_threshold parameters_ <? kappa) = true ->
  scaling = (0, s1<|status_ := HALT_FOR_SINGULARITY|>).
Proof.
  intros Hd Hh. unfold scaling, velocityScalingFactorForSingularity.
  rewrite look_ahead, Hd, (ltb_antisym _ _ Hh), Hh, andb_false_r. reflexivity.
Qed.

(** Exactly at the hard-stop threshold neither comparison holds: the scale stays 1 and
    the status is not touched. *)
Lemma velocity_scale_at_hard_stop :
  (0 <? dot toward commanded_velocity) = true ->
  (kappa =? hard_stop_singularity_threshold parameters_) = true ->
  scaling = (1, s1).
Proof.
  intros Hd Hh. unfold scaling, velocityScalingFactorForSingularity.
  destruct (eqb_not_ltb _ _ Hh) as [H1 H2].
  rewrite look_ahead, Hd, H1, H2, andb_false_r. reflexivity.
Qed.

End Singularity.

(** C1.  On the six-axis machine the condition number is 100, the hard-stop threshold,
    and the command turns toward the singularity (the dot product is 0.005 > 0).  The
    scale returned is 1 and the status stays NO_WARNING, where the ramp has reached 0
    and every greater condition number halts. *)
Theorem velocityScalingFactorForSingularity_at_hard_stop_threshold :
  let s := ServoExamples.started tt (zeros 6) in
  let pseudo_inverse := ServoExamples.diagonal_pseudo_inverse ServoExamples.gantry_svd in
  exists toward s1 s',
    vectorTowardSingularity ServoExamples.robot_positions ServoExamples.robot_set_positions
      ServoExamples.gantry_jacobian ServoExamples.diagonal_svd
      ServoExamples.turn_back ServoExamples.gantry_svd pseudo_inverse s
    = (toward, 100, s1) /\
    (0 <? dot toward ServoExamples.turn_back) = true /\
    hard_stop_singularity_threshold ServoExamples.parameters = 100 /\
    velocityScalingFactorForSingularity ServoExamples.robot_positions
      ServoExamples.robot_set_positions ServoExamples.gantry_jacobian
      ServoExamples.diagonal_svd ServoExamples.parameters
      ServoExamples.turn_back ServoExamples.gantry_svd pseudo_inverse s
    = (1, s') /\
    status_ s' = NO_WARNING.
Proof.
  cbv zeta. eexists. eexists. eexists.
  split; [vm_compute; reflexivity|].
  repeat split; vm_compute; reflexivity.
Qed.

Lemma Time_eqb_eq (a b : Time.t) : Time.eqb a b = true <-> a = b.
Proof.
  unfold Time.eqb. destruct a as [sa na], b as [sb nb]. simpl.
  rewrite andb_true_iff, !Z.eqb_eq. split.
  - intros [-> ->]. reflexivity.
  - intros H. inversion H. auto.
Qed.

(** C8.  For a Jacobian of six rows, a 6-vector and a drift mask, [removeDriftDimensions]
    returns the rows and the entries at the places [keep], in their order.  Row i is
    removed exactly when [drift_dimensions_[i]] is set and the matrix has more than one
    row when the loop, coming down from row 5, reaches i: by then it has the rows 0..i
    and the survivors above i.  At least one row is left. *)
Theorem removeDriftDimensions_removes_marked_rows {Smoother RobotState Isometry3d : Type}
  (past_the_end : list double -> nat -> double)
  (s : ServoCalcs (Smoother := Smoother) (RobotState := RobotState)
                  (Isometry3d := Isometry3d))
  (jacobian : Matrix) (delta_x : list double) :
  List.length jacobian = 6%nat ->
  List.length delta_x = 6%nat ->
  List.length (drift_dimensions_ s) = 6%nat ->
  exists keep : list bool,
    List.length keep = 6%nat /\
    removeDriftDimensions past_the_end jacobian delta_x s
    = Val (select keep jacobian, select keep delta_x) /\
    (forall i, (i < 6)%nat ->
       nth i keep true = false <->
       nth i (drift_dimensions_ s) false = true /\
       (1 < i + 1 + count_kept (skipn (i + 1) keep))%nat) /\
    (1 <= List.length (select keep jacobian))%nat /\
    List.length (select keep delta_x) = List.length (select keep jacobian).
Proof.
  intros HJ Hx Hd. unfold removeDriftDimensions.
  remember (drift_dimensions_ s) as drift eqn:Edrift. clear Edrift.
  destruct jacobian as [|r0 [|r1 [|r2 [|r3 [|r4 [|r5 [|]]]]]]]; try discriminate HJ.
  destruct delta_x as [|x0 [|x1 [|x2 [|x3 [|x4 [|x5 [|]]]]]]]; try discriminate Hx.
  destruct drift as [|d0 [|d1 [|d2 [|d3 [|d4 [|d5 [|]]]]]]]; try discriminate Hd.
  clear HJ Hx Hd.
  exists [negb d0 || (d1 && d2 && d3 && d4 && d5); negb d1; negb d2; negb d3; negb d4; negb d5].
  split; [reflexivity|].
  split; [destruct d0, d1, d2, d3, d4, d5; reflexivity|].
  split.
  - intros i Hi.
    do 6 (destruct i as [|i];
          [destruct d0, d1, d2, d3, d4, d5; cbn;
           (split; [intros H; first [discriminate H | split; [reflexivity | lia]]
                   | intros [H1 H2]; first [discriminate H1 | reflexivity | lia]]) |]).
    lia.
  - destruct d0, d1, d2, d3, d4, d5; cbn; (split; [lia | reflexivity]).
Qed.

(** The twist check fails exactly on a NaN component or, for unitless commands, on a
    component of absolute value above 1. *)
Lemma checkValidCommand_TwistStamped_spec (parameters_ : ServoParameters)
  (cmd : TwistStamped.t) :
  let components :=
    [ Vector3.x (Twist.linear (TwistStamped.twist cmd));
      Vector3.y (Twist.linear (TwistStamped.twist cmd));
      Vector3.z (Twist.linear (TwistStamped.twist cmd));
      Vector3.x (Twist.angular (TwistStamped.twist cmd));
      Vector3.y (Twist.angular (TwistStamped.twist cmd));
      Vector3.z (Twist.angular (TwistStamped.twist cmd)) ] in
  checkValidCommand_TwistStamped parameters_ cmd = false <->
  existsb is_nan components = true \/
  (command_in_type parameters_ = "unitless"%string /\
   existsb (fun c => 1 <? abs c) components = true).
Proof.
  cbv zeta. unfold checkValidCommand_TwistStamped. simpl existsb.
  rewrite !orb_false_r.
  set (n := is_nan _ || _ || _ || _ || _ || _).
  set (n' := is_nan _ || (_ || (_ || (_ || (_ || _))))).
  assert (n = n') as -> by (unfold n, n'; rewrite !orb_assoc; reflexivity).
  set (r := (1 <? abs _) || _ || _ || _ || _ || _).
  set (r' := (1 <? abs _) || (_ || (_ || (_ || (_ || _))))).
  assert (r = r') as -> by (unfold r, r'; rewrite !orb_assoc; reflexivity).
  destruct n'; [intuition|].
  destruct (String.eqb_spec (command_in_type parameters_) "unitless").
  - destruct r'; intuition congruence.
  - intuition congruence.
Qed.

(** The jog check fails exactly on a NaN velocity. *)
Lemma checkValidCommand_JointJog_spec (cmd : JointJog.t) :
  checkValidCommand_JointJog cmd = false <->
  existsb is_nan (JointJog.velocities cmd) = true.
Proof.
  unfold checkValidCommand_JointJog. destruct (existsb is_nan _); simpl; intuition.
Qed.

(** C7.  The node takes unitless commands.  A jog of joint_2 with the velocity 2, of
    absolute value above 1, passes [checkValidCommand], and the cycle that follows
    publishes a trajectory that moves joint_2 by joint_scale * 2 = 1 rad/s.  The twist
    with the same component is refused and nothing but the status is published. *)
Theorem checkValidCommand_JointJog_accepts_out_of_range :
  let jog := ServoExamples.jog_command (ServoExamples.at_time 5) ["joint_2"%string] [2] in
  let twist := ServoExamples.twist_command (ServoExamples.at_time 5) 2 0 0 0 0 0 in
  let cycle := Cycle (ServoExamples.at_time 5) ServoExamples.home in
  let s := ServoExamples.started tt (zeros 6) in
  command_in_type ServoExamples.parameters = "unitless"%string /\
  existsb (fun v => 1 <? abs v) (JointJog.velocities jog) = true /\
  checkValidCommand_JointJog jog = true /\
  checkValidCommand_TwistStamped ServoExamples.parameters twist = false /\
  (exists s' msg,
     ServoExamples.gantry_run [JointCommand jog; cycle; cycle] s = Val s' /\
     published s' = [StatusMsg NO_WARNING; StatusMsg NO_WARNING; TrajectoryMsg msg] /\
     map JointTrajectoryPoint.velocities (JointTrajectory.points msg) =
       [[0; 0.5 * 2; 0; 0; 0; 0]]) /\
  (exists s',
     ServoExamples.gantry_run [TwistCommand twist; cycle; cycle] s = Val s' /\
     published s' = [StatusMsg NO_WARNING; StatusMsg NO_WARNING]).
Proof.
  cbv zeta. repeat split; try (vm_compute; reflexivity).
  - eexists. eexists. split; [vm_compute; reflexivity|].
    split; vm_compute; reflexivity.
  - eexists. split; vm_compute; reflexivity.
Qed.

Section Waiting.

Context {Smoother RobotState Isometry3d : Type}.
Variable doSmoothing : Smoother -> list double -> Smoother * list double.
Variable reset : Smoother -> list double -> Smoother.
Variable copyJointGroupPositions : RobotState -> list double.
Variable copyJointGroupVelocities : RobotState -> list double.
Variable setJointGroupPositions : RobotState -> list double -> RobotState.
Variable getJacobian : RobotState -> Matrix.
Variable linear : Isometry3d -> Matrix.
Variable frameTransform : RobotState -> string -> string -> Isometry3d.
Variable jacobiSVD : Matrix -> JacobiSVD.
Variable pseudoInverse : JacobiSVD -> Matrix.
Variable enforceVelocityLimits : double -> list double -> list double.
Variable timedOut : Time.t -> Time.t -> double -> bool.
Variable parameters_ : ServoParameters.
Variable joint_model_group_ : list JointModel.
Variable past_the_end : list double -> nat -> double.

Local Notation State :=
  (ServoCalcs (Smoother := Smoother) (RobotState := RobotState) (Isometry3d := Isometry3d)).

(** A cycle of a node that waits and has seen no stamp takes the early exit and goes on
    waiting. *)
Lemma waiting_cycle (now : Time.t) (monitor : RobotState) (s : State) :
  waiting_unstamped s ->
  exists s',
    calculateSingleIteration doSmoothing reset copyJointGroupPositions
      copyJointGroupVelocities setJointGroupPositions getJacobian linear frameTransform
      jacobiSVD pseudoInverse enforceVelocityLimits timedOut parameters_
      joint_model_group_ past_the_end now monitor s = Val s' /\
    waiting_unstamped s' /\
    latest_twist_command_stamp_ s' = latest_twist_command_stamp_ s /\
    latest_joint_command_stamp_ s' = latest_joint_command_stamp_ s /\
    published s' = published s ++ [StatusMsg (status_ s)].
Proof.
  unfold waiting_unstamped. destruct s. simpl.
  intros (Hw & Ht & Hj & Hlt & Hlj). subst.
  destruct twist_stamped_cmd_0 as [[tstamp tframe] ttwist].
  destruct joint_servo_cmd_0 as [[jstamp jframe] jn jd jv jdur].
  simpl in Ht, Hj. subst tstamp jstamp.
  destruct latest_twist_stamped_0 as [[[tstamp' tframe'] ttwist']|];
    [pose proof (Hlt _ eq_refl) as Et; simpl in Et; subst tstamp'|];
    (destruct latest_joint_cmd_0 as [[[jstamp' jframe'] jn' jd' jv' jdur']|];
     [pose proof (Hlj _ eq_refl) as Ej; simpl in Ej; subst jstamp'|]);
    (eexists; split; [lazy; reflexivity|]); simpl; repeat split; auto.
Qed.

Lemma unstamped_twist (msg : TwistStamped.t) (s : State) :
  Header.stamp (TwistStamped.header msg) = Time.zero ->
  latest_twist_stamped_ (twistStampedCB msg s) = Some msg /\
  latest_twist_cmd_is_nonzero_ (twistStampedCB msg s) = isNonZero_TwistStamped msg /\
  latest_twist_command_stamp_ (twistStampedCB msg s) = latest_twist_command_stamp_ s /\
  latest_joint_command_stamp_ (twistStampedCB msg s) = latest_joint_command_stamp_ s /\
  published (twistStampedCB msg s) = published s /\
  (waiting_unstamped s -> waiting_unstamped (twistStampedCB msg s)).
Proof.
  intros H. unfold waiting_unstamped. destruct s. unfold twistStampedCB. rewrite H. simpl.
  split; [reflexivity|]. split; [reflexivity|]. split; [reflexivity|].
  split; [reflexivity|]. split; [reflexivity|].
  intros (Hw & Ht & Hj & Hlt & Hlj).
  split; [exact Hw|]. split; [exact Ht|]. split; [exact Hj|].
  split; [|]; intros m Hm; first [inversion Hm; subst; exact H | auto].
Qed.

Lemma unstamped_jog (msg : JointJog.t) (s : State) :
  Header.stamp (JointJog.header msg) = Time.zero ->
  latest_joint_cmd_ (jointCmdCB msg s) = Some msg /\
  latest_joint_cmd_is_nonzero_ (jointCmdCB msg s) = isNonZero_JointJog msg /\
  latest_joint_command_stamp_ (jointCmdCB msg s) = latest_joint_command_stamp_ s /\
  latest_twist_command_stamp_ (jointCmdCB msg s) = latest_twist_command_stamp_ s /\
  published (jointCmdCB msg s) = published s /\
  (waiting_unstamped s -> waiting_unstamped (jointCmdCB msg s)).
Proof.
  intros H. unfold waiting_unstamped. destruct s. unfold jointCmdCB. rewrite H. simpl.
  split; [reflexivity|]. split; [reflexivity|]. split; [reflexivity|].
  split; [reflexivity|]. split; [reflexivity|].
  intros (Hw & Ht & Hj & Hlt & Hlj).
  split; [exact Hw|]. split; [exact Ht|]. split; [exact Hj|].
  split; [|]; intros m Hm; first [inversion Hm; subst; exact H | auto].
Qed.

(** C9.  A TwistStamped or JointJog command whose header stamp is 0 is stored and sets
    the nonzero flag, and leaves [latest_twist_command_stamp_] and
    [latest_joint_command_stamp_] as they were.  A node that waits for its first command
    and receives only such commands, in whatever order between its cycles, goes through
    every cycle and waits after each of them. *)
Theorem unstamped_commands_never_end_waiting (s : State) :
  (forall msg, Header.stamp (TwistStamped.header msg) = Time.zero ->
     latest_twist_stamped_ (twistStampedCB msg s) = Some msg /\
     latest_twist_cmd_is_nonzero_ (twistStampedCB msg s) = isNonZero_TwistStamped msg /\
     latest_twist_command_stamp_ (twistStampedCB msg s) = latest_twist_command_stamp_ s) /\
  (forall msg, Header.stamp (JointJog.header msg) = Time.zero ->
     latest_joint_cmd_ (jointCmdCB msg s) = Some msg /\
     latest_joint_cmd_is_nonzero_ (jointCmdCB msg s) = isNonZero_JointJog msg /\
     latest_joint_command_stamp_ (jointCmdCB msg s) = latest_joint_command_stamp_ s) /\
  (forall events,
     waiting_unstamped s ->
     forallb unstamped events = true ->
     exists s',
       run doSmoothing reset copyJointGroupPositions copyJointGroupVelocities
         setJointGroupPositions getJacobian linear frameTransform jacobiSVD pseudoInverse
         enforceVelocityLimits timedOut parameters_ joint_model_group_ past_the_end events s
       = Val s' /\
       wait_for_servo_commands_ s' = true /\
       latest_twist_command_stamp_ s' = latest_twist_command_stamp_ s /\
       latest_joint_command_stamp_ s' = latest_joint_command_stamp_ s /\
       existsb is_command (published s') = existsb is_command (published s)).
Proof.
  split; [|split].
  - intros msg H. destruct (unstamped_twist msg s H) as (A & B & C & _). auto.
  - intros msg H. destruct (unstamped_jog msg s H) as (A & B & C & _). auto.
  - intros events. revert s.
    induction events as [|e rest IH]; intros s Hw Hall.
    + exists s. split; [reflexivity|]. split; [apply Hw|]. auto.
    + simpl in Hall. apply andb_true_iff in Hall. destruct Hall as [He Hrest].
      destruct e as [msg|msg|now monitor]; simpl.
      * apply Time_eqb_eq in He.
        destruct (unstamped_twist msg s He) as (_ & _ & Ht & Hj & Hp & Hkeep).
        destruct (IH _ (Hkeep Hw) Hrest) as (s' & Hrun & A & B & C & D).
        exists s'. rewrite Hrun, B, C, D, Ht, Hj, Hp. auto.
      * apply Time_eqb_eq in He.
        destruct (unstamped_jog msg s He) as (_ & _ & Hj & Ht & Hp & Hkeep).
        destruct (IH _ (Hkeep Hw) Hrest) as (s' & Hrun & A & B & C & D).
        exists s'. rewrite Hrun, B, C, D, Ht, Hj, Hp. auto.
      * destruct (waiting_cycle now monitor s Hw) as (s1 & Hc & Hw1 & Ht & Hj & Hp).
        destruct (IH _ Hw1 Hrest) as (s' & Hrun & A & B & C & D).
        exists s'. rewrite Hc. simpl. rewrite Hrun, B, C, D, Ht, Hj, Hp.
        rewrite existsb_app. simpl. rewrite orb_false_r. auto.
Qed.

End Waiting.

Lemma at_nth {A : Type} (v : list A) (i : nat) (d : A) :
  (i < List.length v)%nat -> at_ v i = Val (nth i v d).
Proof.
  intros H. unfold at_. rewrite (nth_error_nth' v d H). reflexivity.
Qed.

Lemma find_index_in (names : list string) (n : string) :
  In n names -> (find_index names n < List.length names)%nat.
Proof.
  induction names as [|h t IH]; simpl; [tauto|].
  intros H. destruct (String.eqb_spec h n); [lia|].
  destruct H as [H|H]; [congruence|]. apply IH in H. lia.
Qed.

Lemma find_index_nth_error (names : list string) (n : string) (i : nat) :
  NoDup names -> nth_error names i = Some n -> find_index names n = i.
Proof.
  intros ND. revert i. induction ND as [|h t Hnot ND IH]; intros [|i] H; simpl in *;
    try discriminate.
  - inversion H; subst. rewrite String.eqb_refl. reflexivity.
  - destruct (String.eqb_spec h n) as [->|_].
    + apply nth_error_In in H. contradiction.
    + f_equal. apply IH. exact H.
Qed.

Lemma find_index_out (names : list string) (n : string) :
  ~ In n names -> find_index names n = List.length names.
Proof.
  induction names as [|h t IH]; simpl; [reflexivity|].
  intros H. destruct (String.eqb_spec h n) as [->|_]; [tauto|].
  f_equal. apply IH. tauto.
Qed.

Lemma find_index_found (names : list string) (n : string) :
  (find_index names n < List.length names)%nat ->
  nth_error names (find_index names n) = Some n.
Proof.
  induction names as [|h t IH]; simpl; [lia|].
  destruct (String.eqb_spec h n) as [->|_]; [reflexivity|].
  intros H. apply IH. lia.
Qed.

Section Limits.

Context {Smoother RobotState Isometry3d : Type}.
Variable parameters_ : ServoParameters.
Variable joint_model_group_ : list JointModel.

Local Notation State :=
  (ServoCalcs (Smoother := Smoother) (RobotState := RobotState) (Isometry3d := Isometry3d)).

Lemma enforcePositionLimits_joint_spec (joint_state : JointState.t) (joint : JointModel)
  (angle : double) (acc : list JointModel) :
  List.length (JointState.position joint_state) = List.length (JointState.name joint_state) ->
  List.length (JointState.velocity joint_state) = List.length (JointState.name joint_state) ->
  In (getName joint) (JointState.name joint_state) ->
  enforcePositionLimits_joint parameters_ joint_state joint (angle, acc) =
  Val (joint_angle_of joint_state joint,
       if halt_candidate parameters_ joint_state joint then acc ++ [joint] else acc).
Proof.
  intros Hp Hv Hin. apply find_index_in in Hin.
  unfold enforcePositionLimits_joint, halt_candidate, joint_angle_of, joint_velocity_of,
    leaving_bounds.
  apply Nat.ltb_lt in Hin. rewrite Hin. apply Nat.ltb_lt in Hin.
  rewrite (at_nth _ _ 0) by lia. simpl.
  destruct (satisfiesPositionBounds joint _ _); simpl; [reflexivity|].
  destruct (getVariableBoundsMsg joint) as [|limits0 rest]; [reflexivity|].
  rewrite (at_nth _ _ 0) by lia. simpl.
  destruct (_ || _); reflexivity.
Qed.

Lemma enforcePositionLimits_loop_spec (joint_state : JointState.t) :
  List.length (JointState.position joint_state) = List.length (JointState.name joint_state) ->
  List.length (JointState.velocity joint_state) = List.length (JointState.name joint_state) ->
  forall joints angle acc,
    (forall joint, In joint joints -> In (getName joint) (JointState.name joint_state)) ->
    exists angle',
      enforcePositionLimits_loop parameters_ joint_state joints (angle, acc) =
      Val (angle', acc ++ filter (halt_candidate parameters_ joint_state) joints).
Proof.
  intros Hp Hv. induction joints as [|joint rest IH]; intros angle acc Hin;
    cbn [enforcePositionLimits_loop filter].
  - exists angle. rewrite app_nil_r. reflexivity.
  - rewrite enforcePositionLimits_joint_spec by (auto; apply Hin; left; reflexivity).
    cbn [bind].
    destruct (IH (joint_angle_of joint_state joint)
                 (if halt_candidate parameters_ joint_state joint
                  then acc ++ [joint] else acc)) as (angle' & E).
    { intros j Hj. apply Hin. right. exact Hj. }
    exists angle'. rewrite E.
    destruct (halt_candidate parameters_ joint_state joint); [|reflexivity].
    rewrite <- app_assoc. reflexivity.
Qed.

Lemma enforcePositionLimits_spec (joint_state : JointState.t) :
  names_the_group joint_model_group_ joint_state ->
  enforcePositionLimits parameters_ joint_model_group_ joint_state =
  Val (filter (halt_candidate parameters_ joint_state) joint_model_group_).
Proof.
  intros (ND & Hp & Hv & Hin). unfold enforcePositionLimits.
  destruct (enforcePositionLimits_loop_spec joint_state Hp Hv joint_model_group_ 0 [] Hin)
    as (angle' & E).
  rewrite E. reflexivity.
Qed.

Lemma halt_candidate_leaving (joint_state : JointState.t) (joint : JointModel)
  (limits : JointLimits) :
  checks_its_limits parameters_ joint limits ->
  halt_candidate parameters_ joint_state joint =
  leaving_bounds parameters_ limits (joint_angle_of joint_state joint)
    (joint_velocity_of joint_state joint).
Proof.
  intros [Hmsg Hcheck]. unfold halt_candidate. rewrite Hmsg, Hcheck.
  unfold leaving_bounds.
  destruct (joint_velocity_of joint_state joint <? 0),
           (0 <? joint_velocity_of joint_state joint),
           (joint_angle_of joint_state joint <? _),
           (_ <? joint_angle_of joint_state joint); reflexivity.
Qed.

Lemma suddenHalt_spec (s : State) (halted : list JointModel) :
  forall joint_state,
    NoDup (JointState.name joint_state) ->
    List.length (JointState.position joint_state) = List.length (JointState.name joint_state) ->
    List.length (JointState.velocity joint_state) = List.length (JointState.name joint_state) ->
    List.length (JointState.position (original_joint_state_ s)) =
      List.length (JointState.name joint_state) ->
    exists joint_state',
      suddenHalt s joint_state halted = Val joint_state' /\
      JointState.name joint_state' = JointState.name joint_state /\
      forall i n,
        nth_error (JointState.name joint_state) i = Some n ->
        if existsb (fun j => String.eqb (getName j) n) halted
        then nth_error (JointState.position joint_state') i =
               nth_error (JointState.position (original_joint_state_ s)) i /\
             nth_error (JointState.velocity joint_state') i = Some 0
        else nth_error (JointState.position joint_state') i =
               nth_error (JointState.position joint_state) i /\
             nth_error (JointState.velocity joint_state') i =
               nth_error (JointState.velocity joint_state) i.
Proof.
  induction halted as [|j rest IH]; intros js ND Hp Hv Ho; cbn [suddenHalt existsb].
  - exists js. repeat split; auto.
  - set (k := find_index (JointState.name js) (getName j)).
    destruct (Nat.ltb_spec k (List.length (JointState.name js))) as [Hk|Hk].
    + rewrite (at_nth _ _ 0) by lia. cbn [bind]. unfold set_at.
      replace (Nat.ltb k (List.length (JointState.position js))) with true
        by (symmetry; apply Nat.ltb_lt; lia).
      replace (Nat.ltb k (List.length (JointState.velocity js))) with true
        by (symmetry; apply Nat.ltb_lt; lia).
      cbn [bind].
      match goal with
      | |- context [suddenHalt s ?x rest] =>
          destruct (IH x) as (js' & E & Hn & Hall); cbn; rewrite ?replace_nth_length; auto
      end.
      exists js'. split; [exact E|]. split; [exact Hn|].
      intros i n Hi. specialize (Hall i n Hi). cbn in Hall.
      destruct (existsb (fun j0 => String.eqb (getName j0) n) rest).
      * rewrite orb_true_r. exact Hall.
      * rewrite orb_false_r. destruct (String.eqb_spec (getName j) n) as [En|En].
        -- assert (k = i) as <-.
           { unfold k. rewrite En. apply find_index_nth_error; assumption. }
           destruct Hall as [Hpos Hvel]. rewrite Hpos, Hvel.
           rewrite !nth_error_replace_nth_same by lia.
           split; [|reflexivity].
           symmetry. apply nth_error_nth'. lia.
        -- assert (i <> k) as Hne.
           { intros ->. pose proof (find_index_found _ _ Hk) as F. fold k in F.
             rewrite F in Hi. inversion Hi. contradiction. }
           destruct Hall as [Hpos Hvel]. rewrite Hpos, Hvel.
           rewrite !nth_error_replace_nth_other by exact Hne. auto.
    + cbn [bind].
      destruct (IH js ND Hp Hv Ho) as (js' & E & Hn & Hall).
      exists js'. split; [exact E|]. split; [exact Hn|].
      intros i n Hi. specialize (Hall i n Hi).
      destruct (String.eqb_spec (getName j) n) as [En|En].
      * exfalso. apply nth_error_In in Hi. rewrite <- En in Hi.
        apply find_index_in in Hi. fold k in Hi. lia.
      * cbn [orb]. exact Hall.
Qed.

(** C6.  On a joint state that names the active joints, as [internal_joint_state_] does
    after the position update: a joint is selected for halting exactly when it is an
    active joint that [enforcePositionLimits] finds outside its narrowed bounds and
    leaving; for a joint whose bounds check is that of its limits this is: velocity < 0
    with the position below min_position + joint_limit_margin, or velocity > 0 with the
    position above max_position - joint_limit_margin.  With nothing selected the state is
    left alone.  Otherwise the status is JOINT_BOUND and the joints halted are the selected
    ones when the mode's flag is off ([halt_all_joints_in_joint_mode] in joint space,
    [halt_all_joints_in_cartesian_mode] in Cartesian space), all active joints when it is
    on; a halted joint has the position of [original_joint_state_] and the velocity 0,
    every other joint keeps its position and velocity. *)
Theorem position_limits_select_and_halt (servo_type : ServoType) (s : State) :
  let joint_state := internal_joint_state_ s in
  let halt_all :=
    match servo_type with
    | JOINT_SPACE => halt_all_joints_in_joint_mode parameters_
    | CARTESIAN_SPACE => halt_all_joints_in_cartesian_mode parameters_
    end in
  names_the_group joint_model_group_ joint_state ->
  List.length (JointState.position (original_joint_state_ s)) =
    List.length (JointState.name joint_state) ->
  exists joints_to_halt s',
    enforcePositionLimits parameters_ joint_model_group_ joint_state = Val joints_to_halt /\
    (forall joint,
       In joint joints_to_halt <->
       In joint joint_model_group_ /\ halt_candidate parameters_ joint_state joint = true) /\
    (forall joint limits,
       In joint joint_model_group_ ->
       checks_its_limits parameters_ joint limits ->
       (In joint joints_to_halt <->
        leaving_bounds parameters_ limits (joint_angle_of joint_state joint)
          (joint_velocity_of joint_state joint) = true)) /\
    haltAtPositionLimits parameters_ joint_model_group_ servo_type s = Val s' /\
    (joints_to_halt = [] -> s' = s) /\
    (joints_to_halt <> [] ->
     status_ s' = JOINT_BOUND /\
     JointState.name (internal_joint_state_ s') = JointState.name joint_state /\
     forall i n,
       nth_error (JointState.name joint_state) i = Some n ->
       if existsb (fun j => String.eqb (getName j) n)
            (if halt_all then joint_model_group_ else joints_to_halt)
       then nth_error (JointState.position (internal_joint_state_ s')) i =
              nth_error (JointState.position (original_joint_state_ s)) i /\
            nth_error (JointState.velocity (internal_joint_state_ s')) i = Some 0
       else nth_error (JointState.position (internal_joint_state_ s')) i =
              nth_error (JointState.position joint_state) i /\
            nth_error (JointState.velocity (internal_joint_state_ s')) i =
              nth_error (JointState.velocity joint_state) i).
Proof.
  intros joint_state halt_all WF Ho. subst joint_state.
  assert (Hall_flag : halt_selected_only parameters_ servo_type = negb halt_all)
    by (unfold halt_selected_only, halt_all; destruct servo_type; reflexivity).
  pose proof (enforcePositionLimits_spec _ WF) as Esel.
  destruct WF as (ND & Hp & Hv & Hin).
  set (selected := filter (halt_candidate parameters_ (internal_joint_state_ s))
                     joint_model_group_) in *.
  assert (Hsel : forall joint,
             In joint selected <->
             In joint joint_model_group_ /\
             halt_candidate parameters_ (internal_joint_state_ s) joint = true)
    by (intros joint; apply filter_In).
  unfold haltAtPositionLimits. rewrite Esel. cbn [bind].
  destruct selected as [|j0 rest] eqn:Eselected.
  - exists [], s. split; [reflexivity|]. split; [exact Hsel|].
    split.
    { intros joint limits Hj Hc. rewrite Hsel.
      rewrite (halt_candidate_leaving _ _ _ Hc). tauto. }
    split; [reflexivity|]. split; [reflexivity|]. intros H. contradiction H. reflexivity.
  - set (halted := if halt_selected_only parameters_ servo_type
                   then j0 :: rest else joint_model_group_).
    match goal with
    | |- context [suddenHalt ?s1 ?js (j0 :: rest)] =>
        assert (Hcall : (if halt_selected_only parameters_ servo_type
                         then suddenHalt s1 js (j0 :: rest)
                         else suddenHalt s1 js joint_model_group_)
                        = suddenHalt s1 (internal_joint_state_ s) halted)
          by (unfold halted; destruct (halt_selected_only parameters_ servo_type);
              reflexivity);
        destruct (suddenHalt_spec s1 halted (internal_joint_state_ s) ND Hp Hv Ho)
          as (js' & E & Hn & Hall)
    end.
    exists (j0 :: rest). eexists.
    split; [reflexivity|]. split; [exact Hsel|].
    split.
    { intros joint limits Hj Hc. rewrite Hsel.
      rewrite (halt_candidate_leaving _ _ _ Hc). tauto. }
    split; [rewrite Hcall, E; cbn [bind]; reflexivity|].
    split; [discriminate|].
    intros _. split; [reflexivity|]. split; [exact Hn|].
    replace (if halt_all then joint_model_group_ else j0 :: rest) with halted
      by (unfold halted; rewrite Hall_flag; destruct halt_all; reflexivity).
    exact Hall.
Qed.

End Limits.

Lemma firstn_replace_nth {A : Type} (v : list A) :
  forall i a, (i < List.length v)%nat ->
    firstn (S i) (replace_nth v i a) = firstn i v ++ [a].
Proof.
  induction v as [|h t IH]; intros [|i] a H; simpl in *; try lia; try reflexivity.
  f_equal. apply IH. lia.
Qed.

Lemma firstn_replace_nth_below {A : Type} (v : list A) :
  forall i k a, (k <= i)%nat -> firstn k (replace_nth v i a) = firstn k v.
Proof.
  induction v as [|h t IH]; intros [|i] [|k] a H; simpl in *; try lia; try reflexivity.
  f_equal. apply IH. lia.
Qed.

Lemma map_const {A B : Type} (c : B) (l : list A) :
  map (fun _ => c) l = repeat c (List.length l).
Proof.
  induction l as [|h t IH]; simpl; [reflexivity | f_equal; exact IH].
Qed.

(** With a count of two or more the message is filled up to [count] points: copies of
    its first point, the i-th of them (i >= 1) due at (i + 1) * publish_period.  With
    a smaller count it is left as it is. *)
Lemma insertRedundantPointsIntoTrajectory_spec (parameters_ : ServoParameters)
  (joint_trajectory : JointTrajectory.t) (count : Z)
  (first : JointTrajectoryPoint.t) (rest : list JointTrajectoryPoint.t) :
  JointTrajectory.points joint_trajectory = first :: rest ->
  let outgoing := insertRedundantPointsIntoTrajectory parameters_ joint_trajectory count in
  ((count < 2)%Z -> outgoing = joint_trajectory) /\
  ((2 <= count)%Z ->
   List.length (JointTrajectory.points outgoing) = Z.to_nat count /\
   nth_error (JointTrajectory.points outgoing) 0 = Some first /\
   forall i, (1 <= i < Z.to_nat count)%nat ->
     nth_error (JointTrajectory.points outgoing) i =
     Some (first<|JointTrajectoryPoint.time_from_start :=
                    int_to_double (Z.of_nat i + 1) * publish_period parameters_|>)).
Proof.
  intros Hpts. cbv zeta. unfold insertRedundantPointsIntoTrajectory. split.
  - intros Hc. apply Z.ltb_lt in Hc. rewrite Hc. reflexivity.
  - intros Hc. replace (Z.ltb count 2) with false by (symmetry; apply Z.ltb_ge; exact Hc).
    rewrite Hpts. cbn [JointTrajectory.points].
    destruct (Z.to_nat count) as [|n] eqn:En; [lia|].
    destruct n as [|n]; [lia|].
    unfold resize_points. cbn [firstn app nth Nat.sub].
    split; [|split].
    + cbv beta iota delta [RecordSetters.apply_update RecordSetters.constant JointTrajectory.points].
      cbn [List.length]. rewrite length_map, length_seq. reflexivity.
    + reflexivity.
    + intros i Hi. destruct i as [|i]; [lia|].
      cbv beta iota delta [RecordSetters.apply_update RecordSetters.constant JointTrajectory.points]. cbn [nth_error].
      rewrite nth_error_map, nth_error_seq.
      replace (Nat.ltb i (S n)) with true by (symmetry; apply Nat.ltb_lt; lia).
      reflexivity.
Qed.

Section FilteredHalt.

Context {Smoother RobotState Isometry3d : Type}.
Variable doSmoothing : Smoother -> list double -> Smoother * list double.
Variable parameters_ : ServoParameters.

Local Notation State :=
  (ServoCalcs (Smoother := Smoother) (RobotState := RobotState) (Isometry3d := Isometry3d)).

(** The velocity loop of [filteredHalt]. *)
Lemma filteredHalt_velocities (positions original : list double) (n : nat) :
  List.length positions = n ->
  List.length original = n ->
  forall k i velocities done_stopping,
    (i + k = n)%nat ->
    List.length velocities = n ->
    for_loop k i
      (fun i '(velocities, done_stopping) =>
         p <- at_ positions i ;;
         o <- at_ original i ;;
         velocities <- set_at velocities i ((p - o) / publish_period parameters_) ;;
         v <- at_ velocities i ;;
         Val (velocities, if STOPPED_VELOCITY_EPS <? v then false else done_stopping))
      (velocities, done_stopping)
    = Val (firstn i velocities ++ map (velocity_from parameters_ positions original) (seq i k),
           done_stopping &&
           forallb (fun j => negb (STOPPED_VELOCITY_EPS <?
                                   velocity_from parameters_ positions original j))
                   (seq i k)).
Proof.
  intros Hp Ho. induction k as [|k IH]; intros i velocities done_stopping Hik Hv;
    cbn [for_loop seq map forallb].
  - rewrite app_nil_r, andb_true_r, firstn_all2 by lia. reflexivity.
  - rewrite (at_nth positions i 0) by lia. cbn [bind].
    rewrite (at_nth original i 0) by lia. cbn [bind].
    unfold set_at. replace (Nat.ltb i (List.length velocities)) with true
      by (symmetry; apply Nat.ltb_lt; lia).
    cbn [bind].
    rewrite (at_nth _ i 0) by (rewrite replace_nth_length; lia). cbn [bind].
    rewrite (nth_error_nth _ _ 0 (nth_error_replace_nth_same velocities i _ ltac:(lia))).
    rewrite IH by (rewrite ?replace_nth_length; lia).
    rewrite firstn_replace_nth by lia. rewrite <- app_assoc. cbn [app].
    fold (velocity_from parameters_ positions original i).
    destruct (STOPPED_VELOCITY_EPS <? velocity_from parameters_ positions original i);
      cbn [negb andb]; rewrite ?andb_false_r; reflexivity.
Qed.

(** The acceleration loop of [filteredHalt]. *)
Lemma filteredHalt_accelerations (velocities original : list double) (n : nat) :
  List.length velocities = n ->
  List.length original = n ->
  exists accelerations,
    for_loop n 0
      (fun i accelerations =>
         v <- at_ velocities i ;;
         ov <- at_ original i ;;
         set_at accelerations i ((v - ov) / publish_period parameters_))
      (zeros n)
    = Val accelerations.
Proof.
  intros Hv Ho.
  destruct (for_loop_returns
              (fun i accelerations =>
                 v <- at_ velocities i ;;
                 ov <- at_ original i ;;
                 set_at accelerations i ((v - ov) / publish_period parameters_))
              (fun accelerations => List.length accelerations = n) n) with
    (n := n) (i := 0%nat) (s := zeros n) as (acc & E & _).
  - intros i a Hi Ha. rewrite (at_nth _ i 0) by lia. cbn [bind].
    rewrite (at_nth _ i 0) by lia. cbn [bind]. unfold set_at.
    replace (Nat.ltb i (List.length a)) with true by (symmetry; apply Nat.ltb_lt; lia).
    eexists. split; [reflexivity|]. rewrite replace_nth_length. exact Ha.
  - apply Nat.le_refl.
  - unfold zeros. apply repeat_length.
  - exists acc. exact E.
Qed.

(** What [filteredHalt] returns, with the comparison the loop makes: [done_stopping_] is
    kept exactly when no velocity, with its sign, exceeds STOPPED_VELOCITY_EPS. *)
Lemma filteredHalt_returns (joint_trajectory : JointTrajectory.t) (s : State)
  (smoother' : Smoother) (smoothed : list double) :
  let original := JointState.position (original_joint_state_ s) in
  let n := num_joints_ s in
  let v := velocity_from parameters_ smoothed original in
  let slow := forallb (fun j => negb (STOPPED_VELOCITY_EPS <? v j)) (seq 0 n) in
  doSmoothing (smoother_ s) original = (smoother', smoothed) ->
  List.length original = n ->
  List.length smoothed = n ->
  (publish_joint_accelerations parameters_ = true ->
   publish_joint_velocities parameters_ = true /\
   List.length (JointState.velocity (original_joint_state_ s)) = n) ->
  exists joint_trajectory' s' point,
    filteredHalt doSmoothing parameters_ joint_trajectory s = Val (joint_trajectory', s') /\
    JointTrajectory.points joint_trajectory' = [point] /\
    JointTrajectoryPoint.positions point = smoothed /\
    (publish_joint_velocities parameters_ = true ->
     JointTrajectoryPoint.velocities point = (if slow then zeros n else map v (seq 0 n)) /\
     done_stopping_ s' = slow) /\
    (publish_joint_velocities parameters_ = false ->
     JointTrajectoryPoint.velocities point = [] /\ done_stopping_ s' = true).
Proof.
  intros original n v slow Hsm Ho Hs Hacc. subst original n v slow.
  unfold filteredHalt. rewrite Hsm.
  set (n := num_joints_ s) in *.
  set (original := JointState.position (original_joint_state_ s)) in *.
  set (v := velocity_from parameters_ smoothed original).
  set (slow := forallb (fun j => negb (STOPPED_VELOCITY_EPS <? v j)) (seq 0 n)).
  assert (Hzeros : map (fun _ : double => 0) (map v (seq 0 n)) = zeros n)
    by (rewrite map_map, map_const, length_seq; reflexivity).
  destruct (publish_joint_velocities parameters_) eqn:Pv.
  - replace (num_joints_ _) with n by reflexivity.
    replace (done_stopping_ _) with true by reflexivity.
    rewrite (filteredHalt_velocities smoothed original n Hs Ho n 0
               (zeros n) true) by (unfold zeros; rewrite ?repeat_length; lia).
    cbn [firstn app andb bind]. fold v. fold slow.
    assert (Hlen : List.length (if slow then map (fun _ => 0) (map v (seq 0 n))
                                else map v (seq 0 n)) = n)
      by (destruct slow; rewrite ?length_map, length_seq; reflexivity).
    destruct (publish_joint_accelerations parameters_) eqn:Pa.
    + destruct (Hacc eq_refl) as [_ Hov].
      destruct (filteredHalt_accelerations _ _ n Hlen Hov) as (acc & Eacc).
      repeat match goal with
             | |- context [num_joints_ ?x] =>
                 lazymatch x with s => fail | _ => change (num_joints_ x) with n end
             end.
      rewrite Eacc. cbn [bind].
      eexists. eexists. eexists. split; [reflexivity|].
      split; [reflexivity|]. split; [reflexivity|].
      split; [|discriminate].
      intros _. cbn. rewrite Hzeros. split; reflexivity.
    + cbn [bind].
      eexists. eexists. eexists. split; [reflexivity|].
      split; [reflexivity|]. split; [reflexivity|].
      split; [|discriminate].
      intros _. cbn. rewrite Hzeros. split; reflexivity.
  - cbn [bind].
    destruct (publish_joint_accelerations parameters_) eqn:Pa.
    + destruct (Hacc eq_refl) as [? _]. discriminate.
    + cbn [bind]. eexists. eexists. eexists. split; [reflexivity|].
      split; [reflexivity|]. split; [reflexivity|].
      split; [discriminate|]. intros _. split; reflexivity.
Qed.


(** The comparison with STOPPED_VELOCITY_EPS is that of the signed velocity.  For an
    original joint state with [num_joints_] positions that the smoother returns with as
    many (and with [num_joints_] velocities, if accelerations are published): when
    velocities are published and no joint velocity is above 1e-4, however fast a joint
    moves in the negative direction, all velocities of the point are 0 and
    [done_stopping_] is true. *)
Theorem filteredHalt_signed_comparison (joint_trajectory : JointTrajectory.t) (s : State)
  (smoother' : Smoother) (smoothed : list double) :
  let original := JointState.position (original_joint_state_ s) in
  let n := num_joints_ s in
  let v := velocity_from parameters_ smoothed original in
  doSmoothing (smoother_ s) original = (smoother', smoothed) ->
  List.length original = n ->
  List.length smoothed = n ->
  publish_joint_velocities parameters_ = true ->
  (publish_joint_accelerations parameters_ = true ->
   List.length (JointState.velocity (original_joint_state_ s)) = n) ->
  (forall i, (i < n)%nat -> (STOPPED_VELOCITY_EPS <? v i) = false) ->
  exists joint_trajectory' s' point,
    filteredHalt doSmoothing parameters_ joint_trajectory s = Val (joint_trajectory', s') /\
    JointTrajectory.points joint_trajectory' = [point] /\
    JointTrajectoryPoint.velocities point = zeros n /\
    done_stopping_ s' = true.
Proof.
  intros original n v Hsm Ho Hs Pv Hacc Hle.
  pose proof (filteredHalt_returns joint_trajectory s smoother' smoothed) as R.
  cbv zeta in R. subst original n v.
  destruct (R Hsm Ho Hs)
    as (joint_trajectory' & s' & point & E & Hpts & _ & Hvel & _).
  { intros Pa. split; [exact Pv | exact (Hacc Pa)]. }
  clear R.
  set (n := num_joints_ s) in *.
  set (v := velocity_from parameters_ smoothed
              (JointState.position (original_joint_state_ s))) in *.
  exists joint_trajectory', s', point.
  split; [exact E|]. split; [exact Hpts|].
  destruct (Hvel Pv) as [Hv Hd].
  assert (forallb (fun j => negb (STOPPED_VELOCITY_EPS <? v j)) (seq 0 n) = true) as Hslow.
  { apply forallb_forall. intros j Hj. apply in_seq in Hj.
    rewrite (Hle j ltac:(lia)). reflexivity. }
  rewrite Hslow in Hv, Hd. split; assumption.
Qed.

(** With accelerations published and velocities not, [filteredHalt] reads velocities the
    point does not have: for a node with at least one joint, [velocities.at(0)] throws
    and no point is composed. *)
Theorem filteredHalt_accelerations_without_velocities
  (joint_trajectory : JointTrajectory.t) (s : State) :
  publish_joint_velocities parameters_ = false ->
  publish_joint_accelerations parameters_ = true ->
  (0 < num_joints_ s)%nat ->
  filteredHalt doSmoothing parameters_ joint_trajectory s = OutOfRange.
Proof.
  intros Pv Pa Hn. unfold filteredHalt.
  destruct (doSmoothing _ _) as [sm positions]. rewrite Pv, Pa. cbn [bind].
  match goal with
  | |- context [for_loop ?n _ _ _] => destruct n as [|k] eqn:En
  end.
  - exfalso. revert En Hn. destruct s. cbn. intros ->. apply Nat.lt_irrefl.
  - reflexivity.
Qed.

End FilteredHalt.

Section Collision.

Context {Smoother RobotState Isometry3d : Type}.
Variable doSmoothing : Smoother -> list double -> Smoother * list double.
Variable enforceVelocityLimits : double -> list double -> list double.
Variable parameters_ : ServoParameters.
Variable joint_model_group_ : list JointModel.

Local Notation State :=
  (ServoCalcs (Smoother := Smoother) (RobotState := RobotState) (Isometry3d := Isometry3d)).








Lemma vec_scale_length (v : list double) (c : double) :
  List.length (vec_scale v c) = List.length v.
Proof.
  unfold vec_scale. apply length_map.
Qed.





End Collision.

(** A loop whose body leaves the state as it is leaves it as it is. *)
Lemma for_loop_unchanged {St : Type} (body : nat -> St -> exec St) (s : St) :
  forall n i,
    (forall k, (i <= k < i + n)%nat -> body k s = Val s) ->
    for_loop n i body s = Val s.
Proof.
  induction n as [|n IH]; intros i H; cbn [for_loop]; [reflexivity|].
  rewrite H by lia. cbn [bind]. apply IH. intros k Hk. apply H. lia.
Qed.

Section Commands.

Context {Smoother RobotState Isometry3d : Type}.
Variable doSmoothing : Smoother -> list double -> Smoother * list double.
Variable enforceVelocityLimits : double -> list double -> list double.
Variable parameters_ : ServoParameters.
Variable joint_model_group_ : list JointModel.
Variable past_the_end : list double -> nat -> double.

Local Notation State :=
  (ServoCalcs (Smoother := Smoother) (RobotState := RobotState) (Isometry3d := Isometry3d)).

(** When the sizes of the joint state and of the increments do not match,
    [internalServoUpdate] returns false: the message is the one passed in, the smoothing
    plugin has not been run and nothing has been published. *)
Theorem internalServoUpdate_size_mismatch (delta_theta : list double)
  (joint_trajectory : JointTrajectory.t) (servo_type : ServoType) (s : State) :
  List.length (JointState.position (original_joint_state_ s)) <> List.length delta_theta \/
  List.length (JointState.velocity (original_joint_state_ s)) <>
  List.length (JointState.position (original_joint_state_ s)) ->
  exists s',
    internalServoUpdate doSmoothing enforceVelocityLimits parameters_ joint_model_group_
      delta_theta joint_trajectory servo_type s = Val (false, joint_trajectory, s') /\
    smoother_ s' = smoother_ s /\
    published s' = published s /\
    internal_joint_state_ s' = original_joint_state_ s /\
    delta_theta_ s' = vec_scale delta_theta (collision_velocity_scale_ s).
Proof.
  intros H. unfold internalServoUpdate, applyJointUpdate. cbv zeta.
  assert (negb (Nat.eqb (List.length (JointState.position (original_joint_state_ s)))
                        (List.length (vec_scale delta_theta (collision_velocity_scale_ s)))) ||
          negb (Nat.eqb (List.length (JointState.velocity (original_joint_state_ s)))
                        (List.length (JointState.position (original_joint_state_ s))))
          = true) as C.
  { rewrite vec_scale_length. apply orb_true_iff.
    destruct H as [H|H]; [left | right]; apply negb_true_iff, Nat.eqb_neq; exact H. }
  destruct s.
  cbn -[vec_scale Nat.eqb PrimFloat.ltb PrimFloat.eqb] in C |- *.
  destruct ((0 <? collision_velocity_scale_0) && (collision_velocity_scale_0 <? 1));
    [|destruct (collision_velocity_scale_0 =? 0)];
    cbn -[vec_scale Nat.eqb]; rewrite C; cbn -[vec_scale];
    eexists; (split; [reflexivity|]); cbn; repeat split; reflexivity.
Qed.

(** A jog that names no joint of the node's map moves nothing, and neither does any jog
    when [command_in_type] is neither of the two known types: the increments are all
    zero. *)
Theorem scaleJointCommand_ignored (command : JointJog.t) (s : State) :
  (forall name, In name (JointJog.joint_names command) ->
                name_map_at (joint_state_name_map_ s) name = None) \/
  (command_in_type parameters_ <> "unitless"%string /\
   command_in_type parameters_ <> "speed_units"%string) ->
  scaleJointCommand parameters_ past_the_end command s = Val (zeros (num_joints_ s)).
Proof.
  intros H. unfold scaleJointCommand. apply for_loop_unchanged. intros m Hm.
  destruct H as [H | [H1 H2]].
  - rewrite H; [reflexivity|]. apply nth_In. lia.
  - destruct (name_map_at _ _); [|reflexivity].
    apply String.eqb_neq in H1, H2. rewrite H1, H2. reflexivity.
Qed.


(** [enforceControlDimensions] zeroes the components that are not controlled and keeps
    the others; applying it twice is applying it once, and with all six dimensions
    controlled the command is left as it is. *)
Theorem enforceControlDimensions_idempotent (command : TwistStamped.t) (s : State) :
  enforceControlDimensions (enforceControlDimensions command s) s
  = enforceControlDimensions command s /\
  (control_dimensions_ s = [true; true; true; true; true; true] ->
   enforceControlDimensions command s = command).
Proof.
  unfold enforceControlDimensions. split.
  - cbn.
    destruct (nth 0 (control_dimensions_ s) false), (nth 1 (control_dimensions_ s) false),
      (nth 2 (control_dimensions_ s) false), (nth 3 (control_dimensions_ s) false),
      (nth 4 (control_dimensions_ s) false), (nth 5 (control_dimensions_ s) false);
      reflexivity.
  - intros ->. destruct command as [h [[lx ly lz] [ax ay az]]]. reflexivity.
Qed.

(** Joints that the joint state does not name are not halted: [suddenHalt] returns the
    joint state as it is. *)
Theorem suddenHalt_unknown_joints (s : State) (joint_state : JointState.t)
  (joints_to_halt : list JointModel) :
  Forall (fun joint => ~ In (getName joint) (JointState.name joint_state)) joints_to_halt ->
  suddenHalt s joint_state joints_to_halt = Val joint_state.
Proof.
  induction 1 as [|joint rest Hjoint _ IH]; cbn [suddenHalt]; [reflexivity|].
  rewrite (find_index_out _ _ Hjoint), Nat.ltb_irrefl. cbn [bind]. exact IH.
Qed.

End Commands.



End ServoFacts.

(** * The servo cycle *)

Module CycleFacts.

Import Servo DoubleFacts ExecFacts ServoFacts.
Import RecordSetters.TriangleBracketNotations.

Section Cycle.
Context {Smoother RobotState Isometry3d : Type}.
Variable doSmoothing : Smoother -> list double -> Smoother * list double.
Variable reset : Smoother -> list double -> Smoother.
Variable copyJointGroupPositions : RobotState -> list double.
Variable copyJointGroupVelocities : RobotState -> list double.
Variable setJointGroupPositions : RobotState -> list double -> RobotState.
Variable getJacobian : RobotState -> Matrix.
Variable linear : Isometry3d -> Matrix.
Variable frameTransform : RobotState -> string -> string -> Isometry3d.
Variable jacobiSVD : Matrix -> JacobiSVD.
Variable pseudoInverse : JacobiSVD -> Matrix.
Variable enforceVelocityLimits : double -> list double -> list double.
Variable timedOut : Time.t -> Time.t -> double -> bool.
Variable parameters_ : ServoParameters.
Variable joint_model_group_ : list JointModel.
Variable past_the_end : list double -> nat -> double.

Local Notation State :=
  (ServoCalcs (Smoother := Smoother) (RobotState := RobotState) (Isometry3d := Isometry3d)).
Local Notation cycle :=
  (calculateSingleIteration doSmoothing reset copyJointGroupPositions
     copyJointGroupVelocities setJointGroupPositions getJacobian linear frameTransform
     jacobiSVD pseudoInverse enforceVelocityLimits timedOut parameters_ joint_model_group_
     past_the_end).
Local Notation begin_cycle :=
  (beginIteration copyJointGroupPositions copyJointGroupVelocities frameTransform timedOut
     parameters_).
Local Notation keep_waiting := (keepWaiting reset).
Local Notation command_cycle :=
  (commandIteration doSmoothing copyJointGroupPositions setJointGroupPositions getJacobian
     linear frameTransform jacobiSVD pseudoInverse enforceVelocityLimits parameters_
     joint_model_group_ past_the_end).
Local Notation halt_if_stale := (haltIfStale doSmoothing parameters_).
Local Notation end_cycle := (endIteration reset parameters_).

(** [calculateSingleIteration] is the sequence of its phases. *)
Lemma calculateSingleIteration_phases (now : Time.t) (monitor : RobotState) (s : State) :
  cycle now monitor s =
  let s := begin_cycle now monitor s in
  if wait_for_servo_commands_ s || paused_ s then Val (keep_waiting s)
  else
    '(ok, joint_trajectory, s) <- command_cycle s ;;
    if negb ok then Val (resetLowPassFilters reset (original_joint_state_ s) s)
    else
      '(joint_trajectory, s) <- halt_if_stale joint_trajectory s ;;
      end_cycle joint_trajectory s.
Proof.
  destruct s. destruct latest_twist_stamped_0, latest_joint_cmd_0;
    lazy beta iota zeta delta -[cartesianServoCalcs jointServoCalcs filteredHalt publishCommand
                                resetLowPassFilters bind
                                Time.eqb orb andb negb Z.ltb Z.eqb Z.add app map];
    reflexivity.
Qed.

(** *** What the calculations leave of the state *)

Lemma applyJointUpdate_frame (delta_theta : list double) (joint_state joint_state' : JointState.t)
  (s s' : State) (updated : bool) :
  applyJointUpdate doSmoothing parameters_ delta_theta joint_state s
  = Val (updated, joint_state', s') ->
  exists smoother', s' = s<|smoother_ := smoother'|>.
Proof.
  unfold applyJointUpdate.
  destruct (negb _ || negb _).
  - intros H. inversion H; subst. exists (smoother_ s'). destruct s'. reflexivity.
  - destruct (doSmoothing _ _) as [sm position]. intros H.
    apply bind_Val in H. destruct H as (velocity & _ & H).
    inversion H; subst. exists sm. reflexivity.
Qed.

Lemma haltAtPositionLimits_frame (servo_type : ServoType) (s s' : State) :
  haltAtPositionLimits parameters_ joint_model_group_ servo_type s = Val s' ->
  exists status joint_state,
    s' = s<|status_ := status|><|internal_joint_state_ := joint_state|>.
Proof.
  unfold haltAtPositionLimits. intros H.
  apply bind_Val in H. destruct H as (joints_to_halt & _ & H).
  destruct joints_to_halt as [|j rest].
  - inversion H; subst. exists (status_ s'), (internal_joint_state_ s').
    destruct s'. reflexivity.
  - apply bind_Val in H. destruct H as (joint_state & _ & H).
    inversion H; subst. exists JOINT_BOUND, joint_state. reflexivity.
Qed.

Lemma internalServoUpdate_frame (delta_theta : list double)
  (joint_trajectory joint_trajectory' : JointTrajectory.t) (servo_type : ServoType)
  (s s' : State) (ok : bool) :
  internalServoUpdate doSmoothing enforceVelocityLimits parameters_ joint_model_group_
    delta_theta joint_trajectory servo_type s = Val (ok, joint_trajectory', s') ->
  exists status joint_state smoother' updated delta,
    s' = s<|status_ := status|><|internal_joint_state_ := joint_state|>
          <|smoother_ := smoother'|><|updated_filters_ := updated|>
          <|delta_theta_ := delta|>.
Proof.
  unfold internalServoUpdate. intros H.
  apply bind_Val in H. destruct H as ([[updated joint_state] s1] & E1 & H).
  apply applyJointUpdate_frame in E1. destruct E1 as [sm E1].
  destruct updated; cbn [negb] in H.
  - apply bind_Val in H. destruct H as (s2 & E2 & H).
    apply haltAtPositionLimits_frame in E2. destruct E2 as (st & js & E2).
    injection H as _ _ Hs. rewrite <- Hs, E2, E1. clear.
    destruct s. cbn.
    destruct ((0 <? collision_velocity_scale_0) && (collision_velocity_scale_0 <? 1));
      [|destruct (collision_velocity_scale_0 =? 0)];
      do 5 eexists; reflexivity.
  - injection H as _ _ Hs. rewrite <- Hs, E1. clear.
    destruct s. cbn.
    destruct ((0 <? collision_velocity_scale_0) && (collision_velocity_scale_0 <? 1));
      [|destruct (collision_velocity_scale_0 =? 0)];
      do 5 eexists; reflexivity.
Qed.


Lemma velocityScalingFactorForSingularity_frame (commanded_velocity : list double)
  (svd : JacobiSVD) (pseudo_inverse : Matrix) (s : State) :
  exists current status,
    snd (velocityScalingFactorForSingularity copyJointGroupPositions setJointGroupPositions
           getJacobian jacobiSVD parameters_ commanded_velocity svd pseudo_inverse s)
    = s<|published :=
           published s ++ [ConditionMsg (condition_number (singularValues svd))]|>
       <|current_state_ := current|><|status_ := status|>.
Proof.
  unfold velocityScalingFactorForSingularity, vectorTowardSingularity. cbv zeta.
  destruct s. cbn -[dot condition_number vec_div vec_add mat_vec col vec_scale].
  repeat match goal with
         | |- context [if ?c then _ else _] => destruct c
         end; cbn [snd]; do 2 eexists; reflexivity.
Qed.

Lemma cartesianServoCalcs_frame (cmd cmd' : TwistStamped.t)
  (joint_trajectory joint_trajectory' : JointTrajectory.t) (s s' : State) (ok : bool) :
  cartesianServoCalcs doSmoothing copyJointGroupPositions setJointGroupPositions getJacobian
    linear frameTransform jacobiSVD pseudoInverse enforceVelocityLimits parameters_
    joint_model_group_ past_the_end cmd joint_trajectory s
  = Val (ok, cmd', joint_trajectory', s') ->
  (ok = false /\ s' = s /\ joint_trajectory' = joint_trajectory /\
   checkValidCommand_TwistStamped parameters_ cmd = false) \/
  (checkValidCommand_TwistStamped parameters_ cmd = true /\
   exists condition current status joint_state smoother' updated delta,
     s' = s<|published := published s ++ [ConditionMsg condition]|>
           <|current_state_ := current|><|status_ := status|>
           <|internal_joint_state_ := joint_state|><|smoother_ := smoother'|>
           <|updated_filters_ := updated|><|delta_theta_ := delta|>).
Proof.
  unfold cartesianServoCalcs.
  destruct (checkValidCommand_TwistStamped parameters_ cmd); cbn [negb].
  - intros H. right. split; [reflexivity|].
    apply bind_Val in H. destruct H as ([jacobian delta_x] & _ & H).
    match type of H with
    | context [velocityScalingFactorForSingularity _ _ _ _ _ ?cv ?svd ?pinv s] =>
        destruct (velocityScalingFactorForSingularity_frame cv svd pinv s)
          as (current & status & E);
        destruct (velocityScalingFactorForSingularity copyJointGroupPositions
                    setJointGroupPositions getJacobian jacobiSVD parameters_ cv svd pinv s)
          as [scale s1]
    end.
    cbn [snd] in E.
    apply bind_Val in H. destruct H as ([[ok1 jt1] s2] & E2 & H).
    apply internalServoUpdate_frame in E2.
    destruct E2 as (st & js & sm & uf & dt & E2).
    injection H as _ _ _ Hs. rewrite <- Hs, E2, E. clear.
    destruct s. cbn. do 7 eexists. reflexivity.
  - intros H. left. inversion H; subst. repeat split; reflexivity.
Qed.

Lemma jointServoCalcs_frame (cmd : JointJog.t)
  (joint_trajectory joint_trajectory' : JointTrajectory.t) (s s' : State) (ok : bool) :
  jointServoCalcs doSmoothing enforceVelocityLimits parameters_ joint_model_group_
    past_the_end cmd joint_trajectory s = Val (ok, joint_trajectory', s') ->
  (ok = false /\ s' = s /\ joint_trajectory' = joint_trajectory /\
   checkValidCommand_JointJog cmd = false) \/
  (checkValidCommand_JointJog cmd = true /\
   exists status joint_state smoother' updated delta,
     s' = s<|status_ := status|><|internal_joint_state_ := joint_state|>
           <|smoother_ := smoother'|><|updated_filters_ := updated|>
           <|delta_theta_ := delta|>).
Proof.
  unfold jointServoCalcs.
  destruct (checkValidCommand_JointJog cmd); cbn [negb].
  - intros H. right. split; [reflexivity|].
    apply bind_Val in H. destruct H as (delta_theta & _ & H).
    exact (internalServoUpdate_frame _ _ _ _ _ _ _ H).
  - intros H. left. inversion H; subst. repeat split; reflexivity.
Qed.


Lemma filteredHalt_frame (joint_trajectory joint_trajectory' : JointTrajectory.t)
  (s s' : State) :
  filteredHalt doSmoothing parameters_ joint_trajectory s = Val (joint_trajectory', s') ->
  exists smoother' done_stopping,
    s' = s<|smoother_ := smoother'|><|done_stopping_ := done_stopping|>.
Proof.
  unfold filteredHalt.
  destruct (doSmoothing _ _) as [sm positions]. intros H.
  apply bind_Val in H. destruct H as ([velocities s1] & E1 & H).
  apply bind_Val in H. destruct H as (accelerations & _ & H).
  injection H as _ Hs. rewrite <- Hs. clear Hs.
  destruct (publish_joint_velocities parameters_).
  - apply bind_Val in E1. destruct E1 as ([v d] & _ & E1).
    injection E1 as _ Hs. rewrite <- Hs. clear.
    destruct s. do 2 eexists. reflexivity.
  - injection E1 as _ Hs. rewrite <- Hs. clear.
    destruct s. do 2 eexists. reflexivity.
Qed.

Lemma haltIfStale_frame (joint_trajectory joint_trajectory' : JointTrajectory.t)
  (s s' : State) :
  halt_if_stale joint_trajectory s = Val (joint_trajectory', s') ->
  exists smoother' done_stopping,
    s' = s<|smoother_ := smoother'|><|done_stopping_ := done_stopping|> /\
    (twist_command_is_stale_ s && joint_command_is_stale_ s = false ->
     done_stopping = false /\ joint_trajectory' = joint_trajectory).
Proof.
  unfold haltIfStale.
  destruct (twist_command_is_stale_ s && joint_command_is_stale_ s).
  - intros H. apply filteredHalt_frame in H. destruct H as (sm & d & ->).
    exists sm, d. split; [reflexivity | discriminate].
  - intros H. injection H as Hj Hs. rewrite <- Hs. clear Hs.
    exists (smoother_ s), false. split; [destruct s; reflexivity|].
    intros _. split; [reflexivity | symmetry; exact Hj].
Qed.

(** The publication hands at most one message to a publisher, a command. *)
Lemma publishCommand_frame (joint_trajectory : JointTrajectory.t) (s s' : State) :
  publishCommand parameters_ joint_trajectory s = Val s' ->
  exists last commands,
    s' = s<|last_sent_command_ := last|><|published := published s ++ commands|> /\
    (List.length commands <= 1)%nat /\ forallb is_command commands = true.
Proof.
  unfold publishCommand. cbv zeta. intros H.
  apply bind_Val in H. destruct H as (jt1 & _ & H).
  apply bind_Val in H. destruct H as (jt2 & _ & H).
  apply bind_Val in H. destruct H as (jt3 & _ & H).
  destruct (String.eqb (command_out_type parameters_) "trajectory_msgs/JointTrajectory");
    [|destruct (String.eqb (command_out_type parameters_) "std_msgs/Float64MultiArray")];
    injection H as Hs; rewrite <- Hs; clear Hs.
  - do 2 eexists. split; [destruct s; reflexivity|]. split; [cbn; lia | reflexivity].
  - do 2 eexists. split; [destruct s; reflexivity|]. split; [cbn; lia | reflexivity].
  - exists (last_sent_command_ s), [].
    split; [destruct s; cbn; rewrite app_nil_r; reflexivity|].
    split; [cbn; lia | reflexivity].
Qed.


(** The last phase, with its decisions as values: [ok_to_publish_] and the count of
    cycles without command. *)
Lemma endIteration_eq (joint_trajectory : JointTrajectory.t) (s : State) :
  let stale := twist_command_is_stale_ s && joint_command_is_stale_ s in
  let halted := negb (have_nonzero_command_ s) && done_stopping_ s in
  let enough :=
    halted && negb (Z.eqb (num_outgoing_halt_msgs_to_publish parameters_) 0) &&
    Z.ltb (num_outgoing_halt_msgs_to_publish parameters_) (zero_velocity_count_ s) in
  let ok := negb enough && negb stale in
  let count :=
    if halted
    then if Z.ltb (zero_velocity_count_ s) INT_MAX
         then (zero_velocity_count_ s + 1)%Z else zero_velocity_count_ s
    else 0%Z in
  let s1 := s<|ok_to_publish_ := ok|><|zero_velocity_count_ := count|> in
  end_cycle joint_trajectory s =
  (s2 <- (if ok && negb (paused_ s)
          then publishCommand parameters_ joint_trajectory s1 else Val s1) ;;
   if negb (updated_filters_ s2)
   then Val (resetLowPassFilters reset (original_joint_state_ s2) s2)
   else Val s2).
Proof.
  cbv zeta. unfold endIteration. destruct s.
  cbn -[publishCommand resetLowPassFilters Z.ltb Z.eqb Z.add INT_MAX].
  destruct have_nonzero_command_0, done_stopping_0, twist_command_is_stale_0,
    joint_command_is_stale_0;
    destruct (Z.eqb (num_outgoing_halt_msgs_to_publish parameters_) 0);
    destruct (Z.ltb (num_outgoing_halt_msgs_to_publish parameters_) zero_velocity_count_0);
    cbn -[publishCommand resetLowPassFilters Z.ltb Z.eqb Z.add INT_MAX];
    try reflexivity;
    destruct (Z.ltb zero_velocity_count_0 INT_MAX); reflexivity.
Qed.

(** The last phase: at most one command goes out, and none when both commands are stale
    or the node is paused; the count of cycles without command stays within [int]. *)
Lemma endIteration_frame (joint_trajectory : JointTrajectory.t) (s s' : State) :
  end_cycle joint_trajectory s = Val s' ->
  exists ok count last commands smoother' updated,
    s' = s<|ok_to_publish_ := ok|><|zero_velocity_count_ := count|>
          <|last_sent_command_ := last|><|published := published s ++ commands|>
          <|smoother_ := smoother'|><|updated_filters_ := updated|> /\
    (List.length commands <= 1)%nat /\ forallb is_command commands = true /\
    (twist_command_is_stale_ s && joint_command_is_stale_ s = true \/ paused_ s = true ->
     commands = [] /\ last = last_sent_command_ s) /\
    ((0 <= zero_velocity_count_ s <= INT_MAX)%Z -> (0 <= count <= INT_MAX)%Z) /\
    (twist_command_is_stale_ s && joint_command_is_stale_ s = true -> ok = false).
Proof.
  rewrite endIteration_eq. cbv zeta.
  set (stale := twist_command_is_stale_ s && joint_command_is_stale_ s).
  set (halted := negb (have_nonzero_command_ s) && done_stopping_ s).
  set (enough := halted && _ && _).
  set (count := if halted then _ else 0%Z).
  assert (Hcount : (0 <= zero_velocity_count_ s <= INT_MAX)%Z -> (0 <= count <= INT_MAX)%Z).
  { intros Hc. unfold count.
    destruct halted; [destruct (Z.ltb_spec (zero_velocity_count_ s) INT_MAX)|];
      unfold INT_MAX in *; lia. }
  clearbody count enough.
  intros H. apply bind_Val in H. destruct H as (s2 & E2 & H).
  assert (exists last commands,
             s2 = s<|ok_to_publish_ := negb enough && negb stale|>
                   <|zero_velocity_count_ := count|>
                   <|last_sent_command_ := last|><|published := published s ++ commands|> /\
             (List.length commands <= 1)%nat /\ forallb is_command commands = true /\
             (stale = true \/ paused_ s = true ->
              commands = [] /\ last = last_sent_command_ s)) as (last & commands & -> & L & F & N).
  { destruct (negb enough && negb stale && negb (paused_ s)) eqn:C.
    - apply publishCommand_frame in E2. destruct E2 as (last & commands & E2 & L & F).
      exists last, commands. split; [exact E2|]. split; [exact L|]. split; [exact F|].
      intros [X|X]; rewrite X in C; rewrite ?andb_false_r in C; discriminate C.
    - injection E2 as <-. exists (last_sent_command_ s), [].
      split; [destruct s; cbn; rewrite app_nil_r; reflexivity|].
      split; [cbn; lia|]. split; [reflexivity|]. intros _. split; reflexivity. }
  exists (negb enough && negb stale), count, last, commands.
  destruct (negb (updated_filters_ _)); injection H as <-.
  - exists (reset (smoother_ s) (JointState.position (original_joint_state_ s))), true.
    split; [destruct s; reflexivity|].
    split; [exact L|]. split; [exact F|]. split; [exact N|]. split; [exact Hcount|].
    intros ->. apply andb_false_r.
  - exists (smoother_ s), (updated_filters_ s).
    split; [destruct s; reflexivity|].
    split; [exact L|]. split; [exact F|]. split; [exact N|]. split; [exact Hcount|].
    intros ->. apply andb_false_r.
Qed.

(** What the first phase leaves of the state it starts from. *)
Lemma beginIteration_fields (now : Time.t) (monitor : RobotState) (s : State) :
  let s' := begin_cycle now monitor s in
  published s' = published s ++ [StatusMsg (status_ s)] /\
  status_ s' = NO_WARNING /\
  paused_ s' = paused_ s /\
  wait_for_servo_commands_ s' = wait_for_servo_commands_ s /\
  twist_command_is_stale_ s' =
    timedOut now (latest_twist_command_stamp_ s) (incoming_command_timeout parameters_) /\
  joint_command_is_stale_ s' =
    timedOut now (latest_joint_command_stamp_ s) (incoming_command_timeout parameters_) /\
  have_nonzero_twist_stamped_ s' = latest_twist_cmd_is_nonzero_ s /\
  have_nonzero_joint_command_ s' = latest_joint_cmd_is_nonzero_ s /\
  have_nonzero_command_ s' = latest_twist_cmd_is_nonzero_ s || latest_joint_cmd_is_nonzero_ s /\
  updated_filters_ s' = false /\
  zero_velocity_count_ s' = zero_velocity_count_ s /\
  latest_twist_command_stamp_ s' = latest_twist_command_stamp_ s /\
  latest_joint_command_stamp_ s' = latest_joint_command_stamp_ s /\
  latest_twist_stamped_ s' = latest_twist_stamped_ s /\
  latest_joint_cmd_ s' = latest_joint_cmd_ s /\
  latest_twist_cmd_is_nonzero_ s' = latest_twist_cmd_is_nonzero_ s /\
  latest_joint_cmd_is_nonzero_ s' = latest_joint_cmd_is_nonzero_ s /\
  twist_stamped_cmd_ s' =
    match latest_twist_stamped_ s with Some m => m | None => twist_stamped_cmd_ s end /\
  joint_servo_cmd_ s' =
    match latest_joint_cmd_ s with Some m => m | None => joint_servo_cmd_ s end /\
  last_sent_command_ s' = last_sent_command_ s /\
  smoother_ s' = smoother_ s /\
  JointState.position (original_joint_state_ s') = copyJointGroupPositions monitor.
Proof.
  destruct s. destruct latest_twist_stamped_0, latest_joint_cmd_0;
    lazy; repeat split; reflexivity.
Qed.


Lemma keepWaiting_fields (s : State) :
  published (keep_waiting s) = published s /\
  paused_ (keep_waiting s) = paused_ s /\
  last_sent_command_ (keep_waiting s) = last_sent_command_ s /\
  zero_velocity_count_ (keep_waiting s) = zero_velocity_count_ s /\
  smoother_ (keep_waiting s) =
    reset (smoother_ s) (JointState.position (original_joint_state_ s)) /\
  wait_for_servo_commands_ (keep_waiting s) =
    Time.eqb (Header.stamp (TwistStamped.header (twist_stamped_cmd_ s))) Time.zero &&
    Time.eqb (Header.stamp (JointJog.header (joint_servo_cmd_ s))) Time.zero /\
  twist_stamped_cmd_ (keep_waiting s) = twist_stamped_cmd_ s /\
  joint_servo_cmd_ (keep_waiting s) = joint_servo_cmd_ s /\
  latest_twist_command_stamp_ (keep_waiting s) = latest_twist_command_stamp_ s /\
  latest_joint_command_stamp_ (keep_waiting s) = latest_joint_command_stamp_ s.
Proof.
  unfold keepWaiting, resetLowPassFilters. destruct s. cbn. repeat split; reflexivity.
Qed.

Lemma resetLowPassFilters_fields (joint_state : JointState.t) (s : State) :
  let s' := resetLowPassFilters reset joint_state s in
  published s' = published s /\
  last_sent_command_ s' = last_sent_command_ s /\
  zero_velocity_count_ s' = zero_velocity_count_ s /\
  smoother_ s' = reset (smoother_ s) (JointState.position joint_state).
Proof.
  unfold resetLowPassFilters. destruct s. cbn. repeat split; reflexivity.
Qed.

Lemma commandIteration_frame (joint_trajectory : JointTrajectory.t) (s s' : State)
  (ok : bool) :
  command_cycle s = Val (ok, joint_trajectory, s') ->
  exists conditions current status joint_state smoother' updated delta cmd,
    s' = s<|published := published s ++ conditions|>
          <|current_state_ := current|><|status_ := status|>
          <|internal_joint_state_ := joint_state|><|smoother_ := smoother'|>
          <|updated_filters_ := updated|><|delta_theta_ := delta|>
          <|twist_stamped_cmd_ := cmd|> /\
    (conditions = [] \/ exists condition, conditions = [ConditionMsg condition]).
Proof.
  unfold commandIteration. cbv zeta.
  destruct (have_nonzero_twist_stamped_ s && negb (twist_command_is_stale_ s));
    [|destruct (have_nonzero_joint_command_ s && negb (joint_command_is_stale_ s))];
    intros H.
  - apply bind_Val in H. destruct H as ([[[ok1 cmd1] jt1] s1] & E1 & H).
    injection H as _ _ Hs. rewrite <- Hs. clear Hs.
    apply cartesianServoCalcs_frame in E1.
    destruct E1 as [(_ & -> & _) | (_ & c & cs & st & js & sm & uf & dt & ->)].
    + exists [], (current_state_ s), (status_ s), (internal_joint_state_ s), (smoother_ s),
        (updated_filters_ s), (delta_theta_ s), cmd1.
      split; [destruct s; cbn; rewrite app_nil_r; reflexivity | left; reflexivity].
    + exists [ConditionMsg c], cs, st, js, sm, uf, dt, cmd1.
      split; [destruct s; reflexivity | right; eexists; reflexivity].
  - apply jointServoCalcs_frame in H.
    destruct H as [(_ & -> & _) | (_ & st & js & sm & uf & dt & ->)].
    + exists [], (current_state_ s), (status_ s), (internal_joint_state_ s), (smoother_ s),
        (updated_filters_ s), (delta_theta_ s), (twist_stamped_cmd_ s).
      split; [destruct s; cbn; rewrite app_nil_r; reflexivity | left; reflexivity].
    + exists [], (current_state_ s), st, js, sm, uf, dt, (twist_stamped_cmd_ s).
      split; [destruct s; cbn; rewrite app_nil_r; reflexivity | left; reflexivity].
  - injection H as _ _ <-.
    exists [], (current_state_ s), (status_ s), (internal_joint_state_ s), (smoother_ s),
      (updated_filters_ s), (delta_theta_ s), (twist_stamped_cmd_ s).
    split; [destruct s; cbn; rewrite app_nil_r; reflexivity | left; reflexivity].
Qed.


(** *** Cycles *)

(** A cycle that completes has published the status the node had when the cycle began,
    then at most one condition number, then at most one command. *)
Theorem cycle_publishes_status_then_one_command (now : Time.t) (monitor : RobotState)
  (s s' : State) :
  cycle now monitor s = Val s' ->
  exists conditions commands,
    published s' = published s ++ StatusMsg (status_ s) :: conditions ++ commands /\
    (conditions = [] \/ exists condition, conditions = [ConditionMsg condition]) /\
    (List.length commands <= 1)%nat /\ forallb is_command commands = true.
Proof.
  rewrite calculateSingleIteration_phases. cbv zeta.
  destruct (beginIteration_fields now monitor s) as (Hpub & _).
  remember (begin_cycle now monitor s) as b eqn:Hb. clear Hb.
  destruct (wait_for_servo_commands_ b || paused_ b).
  - intros H. injection H as <-. exists [], [].
    destruct (keepWaiting_fields b) as (-> & _). rewrite Hpub.
    split; [reflexivity|]. split; [left; reflexivity|]. split; [cbn; lia | reflexivity].
  - intros H. apply bind_Val in H. destruct H as ([[ok jt] s1] & E1 & H).
    apply commandIteration_frame in E1.
    destruct E1 as (conditions & cs & st & js & sm & uf & dt & cmd & E1 & Hc).
    assert (published s1 = published b ++ conditions) as P1 by (rewrite E1; reflexivity).
    destruct ok; cbn [negb] in H.
    + apply bind_Val in H. destruct H as ([jt2 s2] & E2 & H).
      apply haltIfStale_frame in E2. destruct E2 as (sm2 & d2 & E2 & _).
      assert (published s2 = published s1) as P2 by (rewrite E2; reflexivity).
      apply endIteration_frame in H.
      destruct H as (ok & count & last & commands & sm3 & uf3 & E3 & L & F & _ & _ & _).
      exists conditions, commands.
      assert (published s' = published s2 ++ commands) as P3 by (rewrite E3; reflexivity).
      rewrite P3, P2, P1, Hpub, <- !app_assoc.
      split; [reflexivity|]. split; [exact Hc|]. split; [exact L | exact F].
    + injection H as <-. exists conditions, [].
      change (published (resetLowPassFilters reset (original_joint_state_ s1) s1))
        with (published s1).
      rewrite P1, Hpub, <- !app_assoc, app_nil_r.
      split; [reflexivity|]. split; [exact Hc|]. split; [cbn; lia | reflexivity].
Qed.


Ltac begin_fields now monitor s :=
  destruct (beginIteration_fields now monitor s)
    as (Hpub & Hstatus & Hpaused & Hwait & Htstale & Hjstale & Hnt & Hnj & Hnc & Huf &
        Hzvc & Hlts & Hljs & Hlt & Hlj & Hltn & Hljn & Htc & Hjc & Hlast & Hsm & Hpos).

(** With no command that is nonzero and not stale, the message of the cycle is the last
    command sent, with zero velocities. *)
Lemma commandIteration_idle (s : State) :
  have_nonzero_twist_stamped_ s && negb (twist_command_is_stale_ s) = false ->
  have_nonzero_joint_command_ s && negb (joint_command_is_stale_ s) = false ->
  exists joint_trajectory, command_cycle s = Val (true, joint_trajectory, s).
Proof.
  intros Ht Hj. unfold commandIteration. cbv zeta. rewrite Ht, Hj. eexists. reflexivity.
Qed.

(** A cycle that finds both commands timed out publishes the status and nothing else:
    the point [filteredHalt] composes is not sent, and [last_sent_command_] stays. *)
Theorem stale_commands_publish_nothing (now : Time.t) (monitor : RobotState) (s s' : State) :
  timedOut now (latest_twist_command_stamp_ s) (incoming_command_timeout parameters_) = true ->
  timedOut now (latest_joint_command_stamp_ s) (incoming_command_timeout parameters_) = true ->
  cycle now monitor s = Val s' ->
  published s' = published s ++ [StatusMsg (status_ s)] /\
  last_sent_command_ s' = last_sent_command_ s /\
  (wait_for_servo_commands_ s || paused_ s = false -> ok_to_publish_ s' = false).
Proof.
  intros Ht Hj. rewrite calculateSingleIteration_phases. cbv zeta.
  begin_fields now monitor s.
  remember (begin_cycle now monitor s) as b eqn:Hb. clear Hb.
  rewrite Ht in Htstale. rewrite Hj in Hjstale.
  rewrite Hwait, Hpaused.
  destruct (wait_for_servo_commands_ s || paused_ s).
  - intros H. injection H as <-.
    destruct (keepWaiting_fields b) as (-> & _ & -> & _).
    split; [exact Hpub|]. split; [exact Hlast | discriminate].
  - destruct (commandIteration_idle b) as [jt E];
      [rewrite Htstale; apply andb_false_r | rewrite Hjstale; apply andb_false_r |].
    rewrite E. cbn [bind negb]. intros H.
    apply bind_Val in H. destruct H as ([jt2 s2] & E2 & H).
    apply haltIfStale_frame in E2. destruct E2 as (sm2 & d2 & E2 & _).
    apply endIteration_frame in H.
    destruct H as (ok & count & last & commands & sm3 & uf3 & E3 & _ & _ & N & _ & Hok).
    assert (twist_command_is_stale_ s2 && joint_command_is_stale_ s2 = true) as Hstale.
    { rewrite E2.
      change (twist_command_is_stale_ b && joint_command_is_stale_ b = true).
      rewrite Htstale, Hjstale. reflexivity. }
    destruct (N (or_introl Hstale)) as [-> ->].
    assert (published s' = published b ++ []) as P by (rewrite E3, E2; reflexivity).
    assert (last_sent_command_ s' = last_sent_command_ b) as L
        by (rewrite E3, E2; reflexivity).
    rewrite P, L, app_nil_r. split; [exact Hpub|]. split; [exact Hlast|].
    intros _. rewrite E3. exact (Hok Hstale).
Qed.


(** What the callbacks leave of the state. *)
Lemma twistStampedCB_fields (msg : TwistStamped.t) (s : State) :
  let s' := twistStampedCB msg s in
  published s' = published s /\ paused_ s' = paused_ s /\
  last_sent_command_ s' = last_sent_command_ s /\
  zero_velocity_count_ s' = zero_velocity_count_ s /\
  status_ s' = status_ s /\
  wait_for_servo_commands_ s' = wait_for_servo_commands_ s /\
  latest_twist_stamped_ s' = Some msg /\
  latest_joint_cmd_ s' = latest_joint_cmd_ s /\
  joint_servo_cmd_ s' = joint_servo_cmd_ s /\
  latest_twist_cmd_is_nonzero_ s' = isNonZero_TwistStamped msg /\
  latest_twist_command_stamp_ s' =
    (if Time.eqb (Header.stamp (TwistStamped.header msg)) Time.zero
     then latest_twist_command_stamp_ s else Header.stamp (TwistStamped.header msg)).
Proof.
  cbv zeta. unfold twistStampedCB. destruct s.
  destruct (Time.eqb (Header.stamp (TwistStamped.header msg)) Time.zero);
    lazy; repeat split; reflexivity.
Qed.

Lemma jointCmdCB_fields (msg : JointJog.t) (s : State) :
  let s' := jointCmdCB msg s in
  published s' = published s /\ paused_ s' = paused_ s /\
  last_sent_command_ s' = last_sent_command_ s /\
  zero_velocity_count_ s' = zero_velocity_count_ s /\
  status_ s' = status_ s /\
  wait_for_servo_commands_ s' = wait_for_servo_commands_ s /\
  latest_joint_cmd_ s' = Some msg /\
  latest_twist_stamped_ s' = latest_twist_stamped_ s /\
  twist_stamped_cmd_ s' = twist_stamped_cmd_ s /\
  latest_joint_cmd_is_nonzero_ s' = isNonZero_JointJog msg /\
  latest_joint_command_stamp_ s' =
    (if Time.eqb (Header.stamp (JointJog.header msg)) Time.zero
     then latest_joint_command_stamp_ s else Header.stamp (JointJog.header msg)).
Proof.
  cbv zeta. unfold jointCmdCB. destruct s.
  destruct (Time.eqb (Header.stamp (JointJog.header msg)) Time.zero);
    lazy -[isNonZero_JointJog]; repeat split; reflexivity.
Qed.

Local Notation run_node :=
  (run doSmoothing reset copyJointGroupPositions copyJointGroupVelocities
     setJointGroupPositions getJacobian linear frameTransform jacobiSVD pseudoInverse
     enforceVelocityLimits timedOut parameters_ joint_model_group_ past_the_end).

Lemma handle_Cycle (now : Time.t) (monitor : RobotState) (s : State) :
  handle doSmoothing reset copyJointGroupPositions copyJointGroupVelocities
    setJointGroupPositions getJacobian linear frameTransform jacobiSVD pseudoInverse
    enforceVelocityLimits timedOut parameters_ joint_model_group_ past_the_end
    (Cycle now monitor) s
  = cycle now monitor s.
Proof. reflexivity. Qed.

(** A paused node goes through every cycle and sends no command, whatever commands
    arrive: what it has published gains status messages only, and [last_sent_command_]
    stays. *)
Theorem paused_node_sends_no_command (events : list Event) :
  forall s : State,
    paused_ s = true ->
    exists s',
      run_node events s = Val s' /\
      paused_ s' = true /\
      filter is_command (published s') = filter is_command (published s) /\
      last_sent_command_ s' = last_sent_command_ s.
Proof.
  induction events as [|e rest IH]; intros s Hp.
  - exists s. repeat split; [exact Hp].
  - cbn [run].
    assert (exists s1, handle doSmoothing reset copyJointGroupPositions
                         copyJointGroupVelocities setJointGroupPositions getJacobian
                         linear frameTransform jacobiSVD pseudoInverse
                         enforceVelocityLimits timedOut parameters_ joint_model_group_
                         past_the_end
                         e s = Val s1 /\
                       paused_ s1 = true /\
                       filter is_command (published s1) = filter is_command (published s) /\
                       last_sent_command_ s1 = last_sent_command_ s)
      as (s1 & E & Hp1 & Hf1 & Hl1).
    { destruct e as [msg|msg|now monitor].
      - destruct (twistStampedCB_fields msg s) as (P & Q & L & _).
        eexists. split; [reflexivity|]. rewrite P, Q, L. auto.
      - destruct (jointCmdCB_fields msg s) as (P & Q & L & _).
        eexists. split; [reflexivity|]. rewrite P, Q, L. auto.
      - rewrite handle_Cycle, calculateSingleIteration_phases. cbv zeta.
        begin_fields now monitor s.
        remember (begin_cycle now monitor s) as b eqn:Hb. clear Hb.
        rewrite Hpaused, Hp, orb_true_r.
        eexists. split; [reflexivity|].
        destruct (keepWaiting_fields b) as (-> & -> & -> & _).
        rewrite Hpaused, Hpub, Hlast, filter_app. cbn. rewrite app_nil_r. auto. }
    rewrite E. cbn [bind].
    destruct (IH s1 Hp1) as (s' & E' & Hp' & Hf' & Hl').
    exists s'. rewrite Hf', Hl', Hf1, Hl1. auto.
Qed.

Lemma calculateSingleIteration_count (now : Time.t) (monitor : RobotState) (s s' : State) :
  (0 <= zero_velocity_count_ s <= INT_MAX)%Z ->
  cycle now monitor s = Val s' ->
  (0 <= zero_velocity_count_ s' <= INT_MAX)%Z.
Proof.
  intros Hc. rewrite calculateSingleIteration_phases. cbv zeta.
  begin_fields now monitor s.
  remember (begin_cycle now monitor s) as b eqn:Hb. clear Hb.
  rewrite <- Hzvc in Hc.
  clear - Hc.
  destruct (wait_for_servo_commands_ b || paused_ b).
  - intros E. injection E as <-. destruct (keepWaiting_fields b) as (_ & _ & _ & -> & _).
    exact Hc.
  - intros E. apply bind_Val in E. destruct E as ([[ok jt] s2] & E2 & E).
    apply commandIteration_frame in E2.
    destruct E2 as (conditions & cs & st & js & sm & uf & dt & cmd & E2 & _).
    assert (zero_velocity_count_ s2 = zero_velocity_count_ b) as Z2
        by (rewrite E2; reflexivity).
    rewrite <- Z2 in Hc. clear E2 Z2.
    destruct ok; cbn [negb] in E.
    + apply bind_Val in E. destruct E as ([jt3 s3] & E3 & E).
      apply haltIfStale_frame in E3. destruct E3 as (sm3 & d3 & E3 & _).
      assert (zero_velocity_count_ s3 = zero_velocity_count_ s2) as Z3
          by (rewrite E3; reflexivity).
      rewrite <- Z3 in Hc. clear E3 Z3.
      apply endIteration_frame in E.
      destruct E as (ok & count & last & commands & sm4 & uf4 & E4 & _ & _ & _ & B & _).
      assert (zero_velocity_count_ s' = count) as -> by (rewrite E4; reflexivity).
      exact (B Hc).
    + injection E as <-. exact Hc.
Qed.

(** The count of cycles without command stays within the range of [int], whatever
    happens to the node. *)
Theorem zero_velocity_count_in_range (events : list Event) :
  forall s s' : State,
    (0 <= zero_velocity_count_ s <= INT_MAX)%Z ->
    run_node events s = Val s' ->
    (0 <= zero_velocity_count_ s' <= INT_MAX)%Z.
Proof.
  induction events as [|e rest IH]; intros s s' Hc H.
  - injection H as <-. exact Hc.
  - cbn [run] in H. apply bind_Val in H. destruct H as (s1 & E & H).
    apply (IH s1 s'); [|exact H]. clear IH H.
    destruct e as [msg|msg|now monitor].
    + injection E as <-. destruct (twistStampedCB_fields msg s) as (_ & _ & _ & -> & _).
      exact Hc.
    + injection E as <-. destruct (jointCmdCB_fields msg s) as (_ & _ & _ & -> & _).
      exact Hc.
    + rewrite handle_Cycle in E.
      exact (calculateSingleIteration_count now monitor s s1 Hc E).
Qed.


(** The first command with a header stamp ends the wait: the cycle after it publishes
    the status only, and the node waits no longer. *)
Theorem stamped_command_ends_waiting (now : Time.t) (monitor : RobotState) (s : State) :
  wait_for_servo_commands_ s = true ->
  (forall msg : TwistStamped.t,
     Header.stamp (TwistStamped.header msg) <> Time.zero ->
     exists s',
       cycle now monitor (twistStampedCB msg s) = Val s' /\
       wait_for_servo_commands_ s' = false /\
       twist_stamped_cmd_ s' = msg /\
       latest_twist_command_stamp_ s' = Header.stamp (TwistStamped.header msg) /\
       published s' = published s ++ [StatusMsg (status_ s)]) /\
  (forall msg : JointJog.t,
     Header.stamp (JointJog.header msg) <> Time.zero ->
     exists s',
       cycle now monitor (jointCmdCB msg s) = Val s' /\
       wait_for_servo_commands_ s' = false /\
       joint_servo_cmd_ s' = msg /\
       latest_joint_command_stamp_ s' = Header.stamp (JointJog.header msg) /\
       published s' = published s ++ [StatusMsg (status_ s)]).
Proof.
  intros Hw. split; intros msg Hstamp.
  - assert (Time.eqb (Header.stamp (TwistStamped.header msg)) Time.zero = false) as Hz.
    { destruct (Time.eqb _ _) eqn:E; [|reflexivity].
      apply Time_eqb_eq in E. contradiction. }
    destruct (twistStampedCB_fields msg s)
      as (P & _ & _ & _ & St & W & L & _ & _ & _ & Ls).
    rewrite Hz in Ls. rewrite Hw in W.
    remember (twistStampedCB msg s) as c eqn:Hc. clear Hc.
    rewrite calculateSingleIteration_phases. cbv zeta.
    begin_fields now monitor c.
    remember (begin_cycle now monitor c) as b eqn:Hb. clear Hb.
    rewrite Hwait, W. cbn [orb]. eexists. split; [reflexivity|].
    destruct (keepWaiting_fields b) as (-> & _ & _ & _ & _ & -> & -> & _ & -> & _).
    rewrite Htc, L, Hz, Hlts, Ls, Hpub, P, St. repeat split; reflexivity.
  - assert (Time.eqb (Header.stamp (JointJog.header msg)) Time.zero = false) as Hz.
    { destruct (Time.eqb _ _) eqn:E; [|reflexivity].
      apply Time_eqb_eq in E. contradiction. }
    destruct (jointCmdCB_fields msg s)
      as (P & _ & _ & _ & St & W & L & _ & _ & _ & Ls).
    rewrite Hz in Ls. rewrite Hw in W.
    remember (jointCmdCB msg s) as c eqn:Hc. clear Hc.
    rewrite calculateSingleIteration_phases. cbv zeta.
    begin_fields now monitor c.
    remember (begin_cycle now monitor c) as b eqn:Hb. clear Hb.
    rewrite Hwait, W. cbn [orb]. eexists. split; [reflexivity|].
    destruct (keepWaiting_fields b) as (-> & _ & _ & _ & _ & -> & _ & -> & _ & ->).
    rewrite Hjc, L, Hz, Hljs, Ls, Hpub, P, St, andb_false_r. repeat split; reflexivity.
Qed.

(** A command that [checkValidCommand] refuses costs the cycle its publication: the
    cycle publishes the status and no command, leaves [last_sent_command_] and resets the
    smoothing plugin to the joint positions read in the cycle. *)
Theorem invalid_command_skips_publication (now : Time.t) (monitor : RobotState) (s : State) :
  wait_for_servo_commands_ s || paused_ s = false ->
  let fresh stamp := negb (timedOut now stamp (incoming_command_timeout parameters_)) in
  let skipped s' :=
    published s' = published s ++ [StatusMsg (status_ s)] /\
    last_sent_command_ s' = last_sent_command_ s /\
    smoother_ s' = reset (smoother_ s) (copyJointGroupPositions monitor) in
  (forall msg,
     latest_twist_stamped_ s = Some msg ->
     latest_twist_cmd_is_nonzero_ s && fresh (latest_twist_command_stamp_ s) = true ->
     checkValidCommand_TwistStamped parameters_ msg = false ->
     exists s', cycle now monitor s = Val s' /\ skipped s') /\
  (forall msg,
     latest_joint_cmd_ s = Some msg ->
     latest_twist_cmd_is_nonzero_ s && fresh (latest_twist_command_stamp_ s) = false ->
     latest_joint_cmd_is_nonzero_ s && fresh (latest_joint_command_stamp_ s) = true ->
     checkValidCommand_JointJog msg = false ->
     exists s', cycle now monitor s = Val s' /\ skipped s').
Proof.
  intros Hgo fresh skipped. subst fresh skipped. cbv beta.
  split; intros msg Hmsg.
  - intros Hfresh Hbad.
    rewrite calculateSingleIteration_phases. cbv zeta.
    begin_fields now monitor s.
    remember (begin_cycle now monitor s) as b eqn:Hb. clear Hb.
    rewrite Hwait, Hpaused, Hgo.
    unfold commandIteration. cbv zeta.
    rewrite Hnt, Htstale, Hfresh, Htc, Hmsg.
    unfold cartesianServoCalcs. rewrite Hbad. cbn [negb bind].
    eexists. split; [reflexivity|].
    match goal with
    | |- context [resetLowPassFilters reset ?js ?x] =>
        destruct (resetLowPassFilters_fields js x) as (-> & -> & _ & ->)
    end.
    assert (forall cmd, published (b<|twist_stamped_cmd_ := cmd|>) = published b /\
                        last_sent_command_ (b<|twist_stamped_cmd_ := cmd|>)
                        = last_sent_command_ b /\
                        smoother_ (b<|twist_stamped_cmd_ := cmd|>) = smoother_ b /\
                        original_joint_state_ (b<|twist_stamped_cmd_ := cmd|>)
                        = original_joint_state_ b) as F
      by (intros cmd; destruct b; repeat split; reflexivity).
    destruct (F msg) as (-> & -> & -> & ->).
    rewrite Hpub, Hlast, Hsm, Hpos. repeat split; reflexivity.
  - intros Htwist Hfresh Hbad.
    rewrite calculateSingleIteration_phases. cbv zeta.
    begin_fields now monitor s.
    remember (begin_cycle now monitor s) as b eqn:Hb. clear Hb.
    rewrite Hwait, Hpaused, Hgo.
    unfold commandIteration. cbv zeta.
    rewrite Hnt, Htstale, Htwist, Hnj, Hjstale, Hfresh, Hjc, Hmsg.
    unfold jointServoCalcs. rewrite Hbad. cbn [negb bind].
    eexists. split; [reflexivity|].
    match goal with
    | |- context [resetLowPassFilters reset ?js ?x] =>
        destruct (resetLowPassFilters_fields js x) as (-> & -> & _ & ->)
    end.
    rewrite Hpub, Hlast, Hsm, Hpos. repeat split; reflexivity.
Qed.

End Cycle.

End CycleFacts.


(** * The theorems at concrete inputs *)

Module Cases.

Import Servo ServoExamples.
Import RecordSetters.TriangleBracketNotations.

Lemma six_joints_named (positions velocities : list double) :
  List.length positions = 6%nat ->
  List.length velocities = 6%nat ->
  names_the_group six_joints (joint_state positions velocities).
Proof.
  intros Hp Hv. unfold names_the_group. cbn.
  split; [|split; [exact Hp | split; [exact Hv|]]].
  - repeat constructor; cbn; intuition discriminate.
  - intros joint H. repeat (destruct H as [<-|H]; [cbn; tauto|]). contradiction.
Qed.

(** Counterexample to C10 as stated.  The target velocity of the second joint is exactly
    zero, and the quotient by it is defined: it is minus infinity for the new velocity
    -1, which makes the function return [true], and plus infinity for the new velocity
    1, which makes it return [false]. *)
Lemma checkForLaggingMotion_zero_target_counterexample :
  nth_error (RuckigSmoothing.target_velocity (RuckigCases.two_joints [1; 0])) 1 = Some 0 /\
  (-1 / 0 =? neg_infinity) = true /\
  RuckigSmoothing.checkForLaggingMotion 2 (RuckigCases.two_joints [1; 0])
    (RuckigCases.stepped [2; -1]) = Val true /\
  (1 / 0 =? infinity) = true /\
  RuckigSmoothing.checkForLaggingMotion 2 (RuckigCases.two_joints [1; 0])
    (RuckigCases.stepped [2; 1]) = Val false.
Proof. repeat split; vm_compute; reflexivity. Qed.

Lemma checkForLaggingMotion_unguarded_division_witness :
  RuckigSmoothing.checkForLaggingMotion 2 (RuckigCases.two_joints [1; 0])
    (RuckigCases.stepped [2; -1]) = Val true /\
  is_nan (-1 / 0) || is_infinity (-1 / 0) = true.
Proof.
  destruct (RuckigFacts.checkForLaggingMotion_unguarded_division 2
              (RuckigCases.two_joints [1; 0]) (RuckigCases.stepped [2; -1])
              ltac:(vm_compute; lia) ltac:(vm_compute; lia))
    as (b & E & _ & Hzero).
  destruct (Hzero 1%nat (-1) 0 ltac:(lia) eq_refl eq_refl eq_refl) as (Hq & _ & Hb).
  rewrite E, (Hb ltac:(vm_compute; reflexivity)). split; [reflexivity | exact Hq].
Defined.

Lemma removeDriftDimensions_removes_marked_rows_witness :
  exists keep,
    removeDriftDimensions stray (gantry_jacobian home) turn_back drifting =
    Val (select keep (gantry_jacobian home), select keep turn_back) /\
    List.length (select keep turn_back) = 4%nat.
Proof.
  destruct (ServoFacts.removeDriftDimensions_removes_marked_rows stray drifting
              (gantry_jacobian home) turn_back eq_refl eq_refl eq_refl)
    as (keep & _ & E & _ & _ & _).
  exists keep. split; [exact E|].
  vm_compute in E. vm_compute.
  destruct keep as [|[] [|[] [|[] [|[] [|[] [|[] [|]]]]]]]; try discriminate E; reflexivity.
Defined.

Lemma unstamped_commands_never_end_waiting_witness :
  exists s',
    gantry_run
      [ TwistCommand (twist_command Time.zero 1 0 0 0 0 0);
        Cycle (at_time 5) home;
        JointCommand (jog_command Time.zero ["joint_2"%string] [1]);
        Cycle (at_time 6) home ]
      (started tt (zeros 6)) = Val s' /\
    wait_for_servo_commands_ s' = true.
Proof.
  destruct (ServoFacts.unstamped_commands_never_end_waiting
              passthrough_doSmoothing passthrough_reset robot_positions robot_velocities
              robot_set_positions gantry_jacobian (fun m : Matrix => m) aligned
              diagonal_svd diagonal_pseudo_inverse no_velocity_limits one_second
              parameters six_joints stray (started tt (zeros 6))) as (_ & _ & H).
  destruct (H [ TwistCommand (twist_command Time.zero 1 0 0 0 0 0);
                Cycle (at_time 5) home;
                JointCommand (jog_command Time.zero ["joint_2"%string] [1]);
                Cycle (at_time 6) home ])
    as (s' & E & W & _).
  - unfold waiting_unstamped. cbn.
    repeat split; try reflexivity; intros msg Hm; discriminate Hm.
  - reflexivity.
  - exists s'. split; [exact E | exact W].
Defined.

(** Near its limits in Cartesian mode: joint_1 is selected, joint_2 is not.  With
    [halt_all_joints_in_cartesian_mode] off joint_1 alone is halted and joint_2 keeps
    its position and velocity; with the flag on joint_2 is halted as well. *)
Lemma position_limits_select_and_halt_witness :
  (exists joints_to_halt s',
     enforcePositionLimits parameters six_joints (internal_joint_state_ near_limits) =
       Val joints_to_halt /\
     map getName joints_to_halt = ["joint_1"%string] /\
     haltAtPositionLimits parameters six_joints CARTESIAN_SPACE near_limits = Val s' /\
     status_ s' = JOINT_BOUND /\
     nth_error (JointState.position (internal_joint_state_ s')) 0 = Some (-2.94) /\
     nth_error (JointState.velocity (internal_joint_state_ s')) 0 = Some 0 /\
     nth_error (JointState.position (internal_joint_state_ s')) 1 = Some 2.95 /\
     nth_error (JointState.velocity (internal_joint_state_ s')) 1 = Some (-1)) /\
  (exists joints_to_halt s',
     enforcePositionLimits halting_all six_joints (internal_joint_state_ near_limits) =
       Val joints_to_halt /\
     map getName joints_to_halt = ["joint_1"%string] /\
     haltAtPositionLimits halting_all six_joints CARTESIAN_SPACE near_limits = Val s' /\
     status_ s' = JOINT_BOUND /\
     nth_error (JointState.position (internal_joint_state_ s')) 0 = Some (-2.94) /\
     nth_error (JointState.velocity (internal_joint_state_ s')) 0 = Some 0 /\
     nth_error (JointState.position (internal_joint_state_ s')) 1 = Some 2.96 /\
     nth_error (JointState.velocity (internal_joint_state_ s')) 1 = Some 0).
Proof.
  split.
  - destruct (ServoFacts.position_limits_select_and_halt parameters six_joints
                CARTESIAN_SPACE near_limits
                (six_joints_named [-2.95; 2.95; 0; 0; 0; 0] [-1; -1; 0; 0; 0; 0]
                   eq_refl eq_refl)
                eq_refl)
      as (halt & s' & Esel & _ & _ & Ehalt & _ & Hsome).
    exists halt, s'.
    assert (Esel' := Esel). vm_compute in Esel'. inversion Esel'; subst halt. clear Esel'.
    split; [exact Esel|]. split; [reflexivity|]. split; [exact Ehalt|].
    destruct (Hsome ltac:(discriminate)) as (Hstatus & _ & Hjoints).
    split; [exact Hstatus|].
    pose proof (Hjoints 0%nat "joint_1"%string eq_refl) as H1.
    pose proof (Hjoints 1%nat "joint_2"%string eq_refl) as H2.
    vm_compute in H1, H2. destruct H1 as [P1 V1], H2 as [P2 V2].
    repeat split; assumption.
  - destruct (ServoFacts.position_limits_select_and_halt
                halting_all six_joints
                CARTESIAN_SPACE near_limits
                (six_joints_named [-2.95; 2.95; 0; 0; 0; 0] [-1; -1; 0; 0; 0; 0]
                   eq_refl eq_refl)
                eq_refl)
      as (halt & s' & Esel & _ & _ & Ehalt & _ & Hsome).
    exists halt, s'.
    assert (Esel' := Esel). vm_compute in Esel'. inversion Esel'; subst halt. clear Esel'.
    split; [exact Esel|]. split; [reflexivity|]. split; [exact Ehalt|].
    destruct (Hsome ltac:(discriminate)) as (Hstatus & _ & Hjoints).
    split; [exact Hstatus|].
    pose proof (Hjoints 0%nat "joint_1"%string eq_refl) as H1.
    pose proof (Hjoints 1%nat "joint_2"%string eq_refl) as H2.
    vm_compute in H1, H2. destruct H1 as [P1 V1], H2 as [P2 V2].
    repeat split; assumption.
Defined.




(** With velocities published the same stop is rounded to a standstill: the comparison
    with 1e-4 is that of the signed velocity, and -50 rad/s passes it. *)
Lemma filteredHalt_rounds_backward_motion :
  exists joint_trajectory s' point,
    filteredHalt lowpass_doSmoothing parameters JointTrajectory.default stale_moving
    = Val (joint_trajectory, s') /\
    JointTrajectory.points joint_trajectory = [point] /\
    map (velocity_from parameters [0; 0.5; 0; 0; 0; 0] [0; 1; 0; 0; 0; 0]) (seq 0 6)
    = [0; -50; 0; 0; 0; 0] /\
    (STOPPED_VELOCITY_EPS <? -50) = false /\
    JointTrajectoryPoint.velocities point = zeros 6 /\
    done_stopping_ s' = true.
Proof.
  eexists. eexists. eexists.
  split; [vm_compute; reflexivity|].
  repeat split; vm_compute; reflexivity.
Qed.


Lemma filteredHalt_signed_comparison_witness :
  exists joint_trajectory s' point,
    filteredHalt lowpass_doSmoothing parameters JointTrajectory.default stale_moving
    = Val (joint_trajectory, s') /\
    JointTrajectory.points joint_trajectory = [point] /\
    JointTrajectoryPoint.velocities point = zeros 6 /\
    done_stopping_ s' = true /\
    velocity_from parameters [0; 0.5; 0; 0; 0; 0] [0; 1; 0; 0; 0; 0] 1 = -50.
Proof.
  destruct (ServoFacts.filteredHalt_signed_comparison lowpass_doSmoothing parameters
              JointTrajectory.default stale_moving
              [0; 0.5; 0; 0; 0; 0] [0; 0.5; 0; 0; 0; 0]
              eq_refl eq_refl eq_refl eq_refl ltac:(intros H; discriminate H))
    as (joint_trajectory & s' & point & E & Hpts & Hvel & Hdone).
  - intros i Hi. vm_compute in Hi.
    do 6 (destruct i as [|i]; [vm_compute; reflexivity|]). lia.
  - exists joint_trajectory, s', point.
    split; [exact E|]. split; [exact Hpts|]. split; [exact Hvel|].
    split; [exact Hdone|]. vm_compute. reflexivity.
Defined.

Lemma insertRedundantPointsIntoTrajectory_spec_witness :
  let point :=
    {| JointTrajectoryPoint.positions := [0; 1; 0; 0; 0; 0];
       JointTrajectoryPoint.velocities := zeros 6;
       JointTrajectoryPoint.accelerations := [];
       JointTrajectoryPoint.time_from_start := 0.01 |} in
  let outgoing :=
    insertRedundantPointsIntoTrajectory parameters
      (last_sent_command_ stale_settled) 30 in
  List.length (JointTrajectory.points outgoing) = 30%nat /\
  nth_error (JointTrajectory.points outgoing) 29 =
    Some (point<|JointTrajectoryPoint.time_from_start := int_to_double 30 * 0.01|>).
Proof.
  cbv zeta.
  destruct (ServoFacts.insertRedundantPointsIntoTrajectory_spec parameters
              (last_sent_command_ stale_settled) 30
              {| JointTrajectoryPoint.positions := [0; 1; 0; 0; 0; 0];
                 JointTrajectoryPoint.velocities := zeros 6;
                 JointTrajectoryPoint.accelerations := [];
                 JointTrajectoryPoint.time_from_start := 0.01 |} [] eq_refl)
    as [_ H].
  destruct (H ltac:(lia)) as (Hlen & _ & Hlater).
  split; [exact Hlen|].
  exact (Hlater 29%nat ltac:(vm_compute; lia)).
Defined.

End Cases.

Module SmootherCases.

Import RuckigSmoothing.

Lemma applySmoothing_too_few_waypoints_witness :
  applySmoothing (fun _ _ => tt) RuckigExamples.update_halfway RuckigExamples.distance1
    RuckigExamples.unwind_id RuckigExamples.average_duration 100 RuckigExamples.single 1 1
  = Val (false, RuckigExamples.single).
Proof.
  apply (RuckigFacts.applySmoothing_too_few_waypoints (fun _ _ => tt)
           RuckigExamples.update_halfway RuckigExamples.distance1 RuckigExamples.unwind_id
           RuckigExamples.average_duration 100 RuckigExamples.single 1 1).
  vm_compute. lia.
Defined.

Lemma applySmoothing_timestep_not_short_enough_witness :
  exists trajectory',
    applySmoothing (fun _ _ => tt) RuckigExamples.update_halfway RuckigExamples.distance1
      RuckigExamples.unwind_id RuckigExamples.average_duration 100
      RuckigExamples.too_quick 1 1
    = Val (false, trajectory') /\
    (RuckigExamples.average_duration trajectory' <? DEFAULT_RUCKIG_TIMESTEP) = true.
Proof.
  destruct (RuckigFacts.applySmoothing_timestep_not_short_enough (fun _ _ => tt)
              RuckigExamples.update_halfway RuckigExamples.distance1
              RuckigExamples.unwind_id RuckigExamples.average_duration 100
              RuckigExamples.too_quick 1 1 RuckigExamples.one_joint
              eq_refl ltac:(vm_compute; lia) eq_refl)
    as (trajectory' & E & H).
  exists trajectory'.
  assert ((RuckigExamples.average_duration trajectory' <? DEFAULT_RUCKIG_TIMESTEP) = true)
    as Hshort.
  { vm_compute in E. inversion E. vm_compute. reflexivity. }
  split; [exact (H Hshort) | exact Hshort].
Defined.

(** The duration test is made after the loop has appended a copy of the first waypoint:
    the average segment duration of the input is below the timestep, that of the
    lengthened trajectory is not, and the smoothing goes through. *)
Lemma applySmoothing_short_average_accepted :
  (RuckigExamples.average_duration RuckigExamples.brisk_start <? DEFAULT_RUCKIG_TIMESTEP)
  = true /\
  exists result,
    applySmoothing (fun _ _ => tt) RuckigExamples.update_arrive RuckigExamples.distance1
      RuckigExamples.unwind_id RuckigExamples.average_duration 2
      RuckigExamples.brisk_start 1 1 = Val (true, result).
Proof. split; [vm_compute; reflexivity|]. eexists. vm_compute. reflexivity. Qed.

Lemma removeRepeatedWaypoints_appends_witness :
  exists appended,
    map fst appended = [RuckigExamples.waypoint 0 0] /\
    removeRepeatedWaypoints RuckigExamples.distance1 3 RuckigExamples.repeated_start
    = Val {| getGroup := getGroup RuckigExamples.repeated_start;
             waypoints := waypoints RuckigExamples.repeated_start ++ appended |}.
Proof.
  destruct (RuckigFacts.removeRepeatedWaypoints_appends RuckigExamples.distance1 3
              RuckigExamples.repeated_start
              {| getGroup := getGroup RuckigExamples.repeated_start;
                 waypoints := waypoints RuckigExamples.repeated_start
                              ++ [(RuckigExamples.waypoint 0 0, 1)] |})
    as [appended H].
  - vm_compute. reflexivity.
  - exists appended. cbn [waypoints] in H. apply app_inv_head in H. subst appended.
    split; vm_compute; reflexivity.
Defined.

Lemma while_body_next_targets_witness :
  exists s',
    while_body RuckigExamples.update_halfway (RuckigExamples.waypoint 1 1) 1 [0%nat]
      RuckigExamples.lagging_start = Val (Next s') /\
    nth_error (target_velocity (ruckig_input s')) 0 = Some 1 /\
    nth_error (target_acceleration (ruckig_input s')) 0 = Some 0.
Proof.
  destruct (while_body RuckigExamples.update_halfway (RuckigExamples.waypoint 1 1) 1
              [0%nat] RuckigExamples.lagging_start) as [[s'|]| |] eqn:E;
    try (vm_compute in E; discriminate E).
  exists s'. split; [reflexivity|].
  destruct (RuckigFacts.while_body_next_targets RuckigExamples.update_halfway
              (RuckigExamples.waypoint 1 1) 1 [0%nat] RuckigExamples.lagging_start s' E
              0%nat ltac:(lia))
    as (i & v & a & Hi & Hv & Ha & Htv & Hta).
  inversion Hi; subst i. inversion Hv; subst v. inversion Ha; subst a.
  split; assumption.
Defined.

Lemma decreaseTargetVelocity_spec_witness :
  exists inp',
    decreaseTargetVelocity 1 RuckigExamples.at_rest
      {| new_position := [0.5]; new_velocity := [0.5]; new_acceleration := [0] |}
    = Val inp' /\
    target_position inp' = [1] /\
    nth_error (target_velocity inp') 0 = Some (1 * 0.9) /\
    nth_error (target_acceleration inp') 0
    = Some ((1 * 0.9 - 0.5) / DEFAULT_RUCKIG_TIMESTEP).
Proof.
  destruct (RuckigFacts.decreaseTargetVelocity_spec 1 RuckigExamples.at_rest
              {| new_position := [0.5]; new_velocity := [0.5]; new_acceleration := [0] |}
              eq_refl eq_refl eq_refl)
    as (inp' & E & Hp & H).
  exists inp'. split; [exact E|]. split; [exact Hp|].
  exact (H 0%nat 1 0.5 eq_refl eq_refl).
Defined.

Lemma while_loop_finished_witness :
  exists s',
    while_loop RuckigExamples.update_arrive 2 (RuckigExamples.waypoint 1 1) 1 [0%nat]
      RuckigExamples.lagging_start = Val (Next s') /\
    backward_motion_detected s' = false /\
    ruckig_result s' = Finished /\
    max_velocity (ruckig_input s') = [5].
Proof.
  destruct (while_loop RuckigExamples.update_arrive 2 (RuckigExamples.waypoint 1 1) 1
              [0%nat] RuckigExamples.lagging_start) as [[s'|]| |] eqn:E;
    try (vm_compute in E; discriminate E).
  exists s'. split; [reflexivity|].
  destruct (RuckigFacts.while_loop_finished RuckigExamples.update_arrive
              (RuckigExamples.waypoint 1 1) 1 [0%nat] 2 RuckigExamples.lagging_start s' E)
    as (B & R & V & _ & _).
  repeat split; assumption.
Defined.

Lemma applySmoothing_success_witness :
  exists result added,
    applySmoothing (fun _ _ => tt) RuckigExamples.update_arrive RuckigExamples.distance1
      RuckigExamples.unwind_id RuckigExamples.average_duration 2
      RuckigExamples.two_points 1 1 = Val (true, result) /\
    waypoints result = (RuckigExamples.waypoint 0 0, 0) :: added /\
    Forall (fun w => snd w = DEFAULT_RUCKIG_TIMESTEP) added.
Proof.
  destruct (applySmoothing (fun _ _ => tt) RuckigExamples.update_arrive
              RuckigExamples.distance1 RuckigExamples.unwind_id
              RuckigExamples.average_duration 2 RuckigExamples.two_points 1 1)
    as [[[|] result]| |] eqn:E; try (vm_compute in E; discriminate E).
  destruct (RuckigFacts.applySmoothing_success _ _ _ _ _ _ _ _ _ _ E)
    as (first & duration & others & added & Hin & Hout & Hstep & _).
  exists result, added. split; [reflexivity|].
  cbn in Hin. inversion Hin; subst first duration others.
  split; assumption.
Defined.

Lemma while_body_feeds_output_back_witness :
  exists s',
    while_body RuckigExamples.update_halfway (RuckigExamples.waypoint 1 1) 1 [0%nat]
      RuckigExamples.lagging_start = Val (Next s') /\
    nth_error (current_position (ruckig_input s')) 0
    = nth_error (new_position (ruckig_output s')) 0.
Proof.
  destruct (while_body RuckigExamples.update_halfway (RuckigExamples.waypoint 1 1) 1
              [0%nat] RuckigExamples.lagging_start) as [[s'|]| |] eqn:E;
    try (vm_compute in E; discriminate E).
  exists s'. split; [reflexivity|].
  destruct (RuckigFacts.while_body_feeds_output_back RuckigExamples.update_halfway
              (RuckigExamples.waypoint 1 1) 1 [0%nat] RuckigExamples.lagging_start s' E)
    as [_ H].
  destruct (H 0%nat ltac:(lia)) as (p & v & a & Hp & _ & _ & Hc & _).
  rewrite Hp, Hc. reflexivity.
Defined.

Lemma setKinematicLimits_spec_witness :
  exists inp',
    setKinematicLimits RuckigExamples.one_joint 1 0.5 0.25 RuckigExamples.at_rest
    = Val inp' /\
    target_position inp' = [1] /\
    nth_error (max_jerk inp') 0 = Some DEFAULT_MAX_JERK.
Proof.
  destruct (RuckigFacts.setKinematicLimits_spec RuckigExamples.one_joint 1 0.5 0.25
              RuckigExamples.at_rest
              ltac:(vm_compute; lia) ltac:(vm_compute; lia) ltac:(vm_compute; lia)
              ltac:(vm_compute; lia))
    as (inp' & E & _ & _ & _ & Ht & _ & _ & H).
  exists inp'. split; [exact E|]. split; [exact Ht|].
  destruct (nth_error (getVariableBounds RuckigExamples.one_joint) 0) as [bounds|] eqn:B;
    [|vm_compute in B; discriminate B].
  exact (proj1 (H 0%nat bounds ltac:(lia) B)).
Defined.


End SmootherCases.

Module CycleCases.

Import Servo ServoExamples CycleFacts.

Local Notation run_gantry :=
  (run passthrough_doSmoothing passthrough_reset robot_positions robot_velocities
     robot_set_positions gantry_jacobian (fun m : Matrix => m) aligned diagonal_svd
     diagonal_pseudo_inverse no_velocity_limits one_second parameters six_joints stray)
  (only parsing).
Local Notation cycle_gantry :=
  (calculateSingleIteration passthrough_doSmoothing passthrough_reset robot_positions
     robot_velocities robot_set_positions gantry_jacobian (fun m : Matrix => m) aligned
     diagonal_svd diagonal_pseudo_inverse no_velocity_limits one_second parameters
     six_joints stray)
  (only parsing).
Local Notation on_gantry f :=
  (f passthrough_doSmoothing passthrough_reset robot_positions
     robot_velocities robot_set_positions gantry_jacobian (fun m : Matrix => m) aligned
     diagonal_svd diagonal_pseudo_inverse no_velocity_limits one_second parameters
     six_joints stray)
  (only parsing).

(** The cycle after a jog that names two joints and has one velocity: it completes and
    publishes the status and one trajectory. *)
Lemma cycle_publishes_status_then_one_command_witness :
  let s := jointCmdCB short_jog jogging in
  let s' := end_of (cycle_gantry (at_time 5) home s) s in
  cycle_gantry (at_time 5) home s = Val s' /\
  (exists msg,
     published s' = published s ++ [StatusMsg NO_WARNING; TrajectoryMsg msg] /\
     map JointTrajectoryPoint.velocities (JointTrajectory.points msg)
     = [[0.5 * 0.01 * 1 / 0.01; 0.25 * 0.5 * 0.01 / 0.01; 0; 0; 0; 0]]) /\
  exists conditions commands,
    published s' = published s ++ StatusMsg (status_ s) :: conditions ++ commands /\
    (conditions = [] \/ exists condition, conditions = [ConditionMsg condition]) /\
    (List.length commands <= 1)%nat /\ forallb is_command commands = true.
Proof.
  cbv zeta.
  assert (cycle_gantry (at_time 5) home (jointCmdCB short_jog jogging)
          = Val (end_of (cycle_gantry (at_time 5) home (jointCmdCB short_jog jogging))
                   (jointCmdCB short_jog jogging))) as E
      by (vm_compute; reflexivity).
  split; [exact E|]. split; [eexists; split; vm_compute; reflexivity|].
  exact (on_gantry cycle_publishes_status_then_one_command _ _ _ _ E).
Defined.

Lemma stale_commands_publish_nothing_witness :
  let s' := end_of (cycle_gantry (at_time 10) home jogging) jogging in
  cycle_gantry (at_time 10) home jogging = Val s' /\
  published s' = published jogging ++ [StatusMsg (status_ jogging)] /\
  last_sent_command_ s' = last_sent_command_ jogging /\
  ok_to_publish_ s' = false.
Proof.
  cbv zeta.
  assert (cycle_gantry (at_time 10) home jogging
          = Val (end_of (cycle_gantry (at_time 10) home jogging) jogging)) as E
      by (vm_compute; reflexivity).
  split; [exact E|].
  destruct (on_gantry stale_commands_publish_nothing (at_time 10) home
              jogging _ ltac:(vm_compute; reflexivity) ltac:(vm_compute; reflexivity) E) as (P & L & O).
  split; [exact P|]. split; [exact L|]. apply O. vm_compute. reflexivity.
Defined.

Lemma paused_node_sends_no_command_witness :
  exists s',
    run_gantry [TwistCommand (twist_command (at_time 5) 1 0 0 0 0 0); Cycle (at_time 5) home;
                JointCommand (jog_command (at_time 6) ["joint_2"%string] [1]);
                Cycle (at_time 6) home]
      (setPaused true jogging) = Val s' /\
    paused_ s' = true /\
    filter is_command (published s') = [] /\
    last_sent_command_ s' = last_sent_command_ jogging.
Proof.
  destruct (on_gantry paused_node_sends_no_command
              [TwistCommand (twist_command (at_time 5) 1 0 0 0 0 0); Cycle (at_time 5) home;
               JointCommand (jog_command (at_time 6) ["joint_2"%string] [1]);
               Cycle (at_time 6) home]
              (setPaused true jogging) ltac:(vm_compute; reflexivity)) as (s' & E & P & F & L).
  exists s'. split; [exact E|]. split; [exact P|].
  split; [rewrite F; vm_compute; reflexivity | rewrite L; vm_compute; reflexivity].
Defined.

Lemma zero_velocity_count_in_range_witness :
  let events := [JointCommand short_jog; Cycle (at_time 5) home; Cycle (at_time 10) home;
                 Cycle (at_time 11) home] in
  let s' := end_of (run_gantry events jogging) jogging in
  run_gantry events jogging = Val s' /\
  (0 <= zero_velocity_count_ s' <= INT_MAX)%Z.
Proof.
  cbv zeta.
  assert (run_gantry [JointCommand short_jog; Cycle (at_time 5) home;
                      Cycle (at_time 10) home; Cycle (at_time 11) home]
            jogging
          = Val (end_of (run_gantry [JointCommand short_jog; Cycle (at_time 5) home;
                                     Cycle (at_time 10) home; Cycle (at_time 11) home]
                           jogging) jogging)) as E
      by (vm_compute; reflexivity).
  split; [exact E|].
  assert (0 <= zero_velocity_count_ jogging <= INT_MAX)%Z as Hc
      by (vm_compute; split; discriminate).
  exact (on_gantry zero_velocity_count_in_range _ jogging _ Hc E).
Defined.

Lemma stamped_command_ends_waiting_witness :
  exists s',
    cycle_gantry (at_time 5) home
      (jointCmdCB (jog_command (at_time 5) ["joint_2"%string] [1]) (started tt (zeros 6)))
    = Val s' /\
    wait_for_servo_commands_ s' = false /\
    published s' = [StatusMsg NO_WARNING].
Proof.
  destruct (on_gantry stamped_command_ends_waiting (at_time 5) home
              (started tt (zeros 6)) ltac:(vm_compute; reflexivity)) as [_ Hjog].
  destruct (Hjog (jog_command (at_time 5) ["joint_2"%string] [1]))
    as (s' & E & W & _ & _ & P).
  - discriminate.
  - exists s'. split; [exact E|]. split; [exact W | rewrite P; vm_compute; reflexivity].
Defined.

Lemma invalid_command_skips_publication_witness :
  exists s',
    cycle_gantry (at_time 5) home (twistStampedCB too_fast jogging) = Val s' /\
    published s' = published jogging ++ [StatusMsg NO_WARNING] /\
    last_sent_command_ s' = last_sent_command_ jogging.
Proof.
  destruct (on_gantry invalid_command_skips_publication (at_time 5) home
              (twistStampedCB too_fast jogging) ltac:(vm_compute; reflexivity)) as [Htwist _].
  destruct (Htwist too_fast ltac:(vm_compute; reflexivity) ltac:(vm_compute; reflexivity) ltac:(vm_compute; reflexivity)) as (s' & E & P & L & _).
  exists s'. split; [exact E|].
  split; [rewrite P; vm_compute; reflexivity | rewrite L; vm_compute; reflexivity].
Defined.

End CycleCases.

Module CommandCases.

Import Servo ServoExamples.
Import RecordSetters.TriangleBracketNotations.

Lemma internalServoUpdate_size_mismatch_witness :
  exists s',
    internalServoUpdate passthrough_doSmoothing no_velocity_limits parameters six_joints
      [0.01] JointTrajectory.default JOINT_SPACE (started tt (zeros 6))
    = Val (false, JointTrajectory.default, s') /\
    published s' = published (started tt (zeros 6)).
Proof.
  destruct (ServoFacts.internalServoUpdate_size_mismatch passthrough_doSmoothing
              no_velocity_limits parameters six_joints [0.01] JointTrajectory.default
              JOINT_SPACE (started tt (zeros 6)))
    as (s' & E & _ & P & _).
  - left. vm_compute. lia.
  - exists s'. split; assumption.
Defined.

Lemma scaleJointCommand_ignored_witness :
  scaleJointCommand parameters stray (jog_command (at_time 5) ["wrist_9"%string] [1])
    (started tt (zeros 6))
  = Val (zeros 6).
Proof.
  apply (ServoFacts.scaleJointCommand_ignored (Smoother := unit) parameters stray
           (jog_command (at_time 5) ["wrist_9"%string] [1]) (started tt (zeros 6))).
  left. intros name [<-|[]]. vm_compute. reflexivity.
Defined.


Lemma filteredHalt_accelerations_without_velocities_witness :
  filteredHalt lowpass_doSmoothing without_velocities
    JointTrajectory.default stale_moving = OutOfRange.
Proof.
  apply (ServoFacts.filteredHalt_accelerations_without_velocities lowpass_doSmoothing
           without_velocities
           JointTrajectory.default stale_moving
           ltac:(vm_compute; reflexivity) ltac:(vm_compute; reflexivity)).
  vm_compute. lia.
Defined.

Lemma enforceControlDimensions_idempotent_witness :
  enforceControlDimensions too_fast (started tt (zeros 6)) = too_fast.
Proof.
  apply (proj2 (ServoFacts.enforceControlDimensions_idempotent (Smoother := unit)
                  too_fast (started tt (zeros 6)))).
  vm_compute. reflexivity.
Defined.

Lemma suddenHalt_unknown_joints_witness :
  suddenHalt (started tt (zeros 6)) (joint_state (zeros 6) (zeros 6))
    [bounded_joint "wrist_9" (-3) 3]
  = Val (joint_state (zeros 6) (zeros 6)).
Proof.
  apply (ServoFacts.suddenHalt_unknown_joints (Smoother := unit) (started tt (zeros 6))
           (joint_state (zeros 6) (zeros 6)) [bounded_joint "wrist_9" (-3) 3]).
  constructor; [|constructor].
  vm_compute. intros H. repeat (destruct H as [H|H]; [discriminate H|]). exact H.
Defined.


End CommandCases.
